(** * History Feed extension: blacklist, LLM service, statistics, feed and chat

    A shallow embedding of the JavaScript sources

    - [extension/config.js]   class [Config] ([load], [save]);
                              class [LLMService] ([sendMessage] and the
                              request of each provider);
                              class [Blacklist] ([load], [addDomain],
                              [addPattern], [removeDomain], [removePattern],
                              [clearStorage], [matches], [_matchDomain],
                              [_matchPattern]);
    - the statistics page     ([fetchHistory], [getRootDomain],
                              [processDomainData], [updateSummaryStats],
                              [renderChart], [loadAndRenderData]);
    - the feed page           ([loadAllHistory], [getHistoryBatch],
                              [loadMoreHistory], [formatTimeAgo],
                              [openChatModal], [fetchPageContent],
                              [sendMessage], [addMessage],
                              [saveChatHistory], [clearCurrentChat],
                              [clearAllChats]);

    followed by the properties of these functions.

    Conventions.  JavaScript strings are modelled by [string] (one [ascii]
    per code unit; the rules and URLs considered have code units below
    256).  Array lengths
    and counters are [nat], times are whole milliseconds.  An exception is
    an explicit outcome ([Throws], or [None] where the state is kept).  A
    function with an [await] is cut there when what happens meanwhile
    matters, and is otherwise a call that runs to its end.  The services of
    the browser that the code calls but does not define are interfaces or
    arguments: the URL parser ([URLParser]), the history API
    ([HistoryAPI]), the answers of the network and of the storage; the
    regular-expression engine is modelled for the part of the pattern
    grammar described in module [RegExp], and is an interface
    ([RegExpEngine]) for the rest. *)

From Stdlib Require Import ZArith Lia Bool List Ascii String Sorted.
From Stdlib Require Import Floats.PrimFloat Floats.FloatOps Floats.SpecFloat.
From Stdlib Require Import Uint63 DecimalString.
From stdpp Require Import base option list strings gmap.

Set Default Proof Using "Type".
Set Warnings "-abstract-large-number,-register-all".
Local Open Scope string_scope.
Local Open Scope list_scope.

(* ===================================================================== *)
(** ** Outcomes of JavaScript computations *)
(* ===================================================================== *)

(** A computation returns a value or throws. *)
Inductive result (A : Type) : Type :=
| Ok (a : A)
| Throws.
Arguments Ok {A} a.
Arguments Throws {A}.

Definition rbind {A B : Type} (x : result A) (f : A -> result B) : result B :=
  match x with
  | Ok a => f a
  | Throws => Throws
  end.

Notation "x <- e1 ;;; e2" := (rbind e1 (fun x => e2))
  (at level 100, e1 at next level, right associativity).

(** [try { body } catch (error) { handler }] *)
Definition try_catch {A : Type} (body : result A) (handler : result A) : result A :=
  match body with
  | Throws => handler
  | r => r
  end.

(** [for (const x of xs) { if (test(x)) return true; }] : the loop stops at
    the first element whose test holds or does not return. *)
Fixpoint for_some {A : Type} (test : A -> result bool) (xs : list A) : result bool :=
  match xs with
  | [] => Ok false
  | x :: xs' =>
      b <- test x ;;;
      if b then Ok true else for_some test xs'
  end.

(* ===================================================================== *)
(** ** Built-in string and array operations *)
(* ===================================================================== *)

Module JS.

Definition char_in (lo hi : nat) (c : ascii) : bool :=
  (lo <=? nat_of_ascii c)%nat && (nat_of_ascii c <=? hi)%nat.

Definition is_upper (c : ascii) : bool := char_in 65 90 c.
Definition is_lower (c : ascii) : bool := char_in 97 122 c.
Definition is_digit (c : ascii) : bool := char_in 48 57 c.
Definition is_alnum (c : ascii) : bool := is_upper c || is_lower c || is_digit c.

(** The code units below 256 that [toLowerCase] changes: the letters [A]
    to [Z], and the letters from 192 to 222, among which 215 is a sign. *)
Definition has_lower_case (c : ascii) : bool :=
  is_upper c || (char_in 192 222 c && negb (nat_of_ascii c =? 215)%nat).

Definition lower_char (c : ascii) : ascii :=
  if has_lower_case c then ascii_of_nat (nat_of_ascii c + 32) else c.

(** [s.toLowerCase()] *)
Fixpoint toLowerCase (s : string) : string :=
  match s with
  | EmptyString => EmptyString
  | String c s' => String (lower_char c) (toLowerCase s')
  end.

(** [s.startsWith(p)] *)
Fixpoint startsWith (s p : string) {struct p} : bool :=
  match p, s with
  | EmptyString, _ => true
  | String _ _, EmptyString => false
  | String a p', String b s' => Ascii.eqb a b && startsWith s' p'
  end.

(** [s.includes(p)] : [p] occurs in [s], searched from every index. *)
Fixpoint includes (s p : string) : bool :=
  startsWith s p ||
  match s with
  | EmptyString => false
  | String _ s' => includes s' p
  end.

(** [s.replace(/[class]/g, f)] for a one-character class: every
    character of the class is replaced by [f] of it, the others stay. *)
Fixpoint replace_chars (cls : ascii -> bool) (f : ascii -> string) (s : string) : string :=
  match s with
  | EmptyString => EmptyString
  | String c s' =>
      (if cls c then f c else String c EmptyString) +:+ replace_chars cls f s'
  end.

(** Every character of [s] satisfies [p]. *)
Fixpoint all_chars (p : ascii -> bool) (s : string) : bool :=
  match s with
  | EmptyString => true
  | String c s' => p c && all_chars p s'
  end.

(** [s.split(sep)] for a one-character separator; [cur] is the part read
    since the last separator.  The result is never empty. *)
Fixpoint split_go (sep : ascii) (cur : string) (s : string) : list string :=
  match s with
  | EmptyString => [cur]
  | String c s' =>
      if Ascii.eqb c sep then cur :: split_go sep EmptyString s'
      else split_go sep (cur +:+ String c EmptyString) s'
  end.

Definition split (sep : ascii) (s : string) : list string :=
  split_go sep EmptyString s.

(** [parts.join(sep)] *)
Fixpoint join (sep : string) (parts : list string) : string :=
  match parts with
  | [] => EmptyString
  | [p] => p
  | p :: rest => p +:+ sep +:+ join sep rest
  end.

(** [xs.slice(-n)] : the last [n] elements, all of them when there are
    fewer. *)
Definition slice_last {A : Type} (n : nat) (xs : list A) : list A :=
  skipn (length xs - n) xs.

(** [xs.slice(from, to)] for indices that are not negative. *)
Definition slice {A : Type} (from to : nat) (xs : list A) : list A :=
  firstn (to - from) (skipn from xs).

(** [xs.sort(compare)], which is stable: [before a b] says that
    [compare(a, b) <= 0], so that [a] may stay in front of [b]. *)
Fixpoint sort_insert {A : Type} (before : A -> A -> bool) (x : A) (l : list A) : list A :=
  match l with
  | [] => [x]
  | y :: l' => if before x y then x :: y :: l' else y :: sort_insert before x l'
  end.

Definition sort {A : Type} (before : A -> A -> bool) (l : list A) : list A :=
  fold_right (sort_insert before) [] l.

(** [xs.includes(x)] on an array of strings. *)
Definition array_includes (xs : list string) (x : string) : bool :=
  existsb (String.eqb x) xs.

(** [[...new Set(xs)]] : the elements of [xs] without repetition, in the
    order of their first occurrence. *)
Definition unique (xs : list string) : list string :=
  fold_left (fun set x => if array_includes set x then set else set ++ [x]) xs [].

(** [!!x] for a value that is a string or [undefined]. *)
Definition truthy (x : option string) : bool :=
  match x with
  | Some (String _ _) => true
  | _ => false
  end.

(** [x || d] for a value that is a string or [undefined]. *)
Definition or_else (x : option string) (d : string) : string :=
  match x with
  | Some (String c s) => String c s
  | _ => d
  end.

(** [`${x}`] for a value that is a string or [undefined]. *)
Definition to_string (x : option string) : string := default "undefined" x.

(** The white space and line terminators among the code units below 256:
    what [\s] matches and what [trim] removes. *)
Definition is_space (c : ascii) : bool :=
  existsb (Nat.eqb (nat_of_ascii c)) [9; 10; 11; 12; 13; 32; 160].

(** [s.replace(/\s+/g, ' ')]; [in_run] says that the character before is
    white space, whose run is already replaced. *)
Fixpoint replace_spaces (in_run : bool) (s : string) : string :=
  match s with
  | EmptyString => EmptyString
  | String c s' =>
      if is_space c then
        if in_run then replace_spaces true s'
        else String " " (replace_spaces true s')
      else String c (replace_spaces false s')
  end.

Fixpoint trimStart (s : string) : string :=
  match s with
  | EmptyString => EmptyString
  | String c s' => if is_space c then trimStart s' else s
  end.

Fixpoint trimEnd (s : string) : string :=
  match s with
  | EmptyString => EmptyString
  | String c s' =>
      match trimEnd s' with
      | EmptyString => if is_space c then EmptyString else String c EmptyString
      | rest => String c rest
      end
  end.

(** [s.trim()] *)
Definition trim (s : string) : string := trimEnd (trimStart s).

(** [s.substring(0, n)] *)
Fixpoint substring (n : nat) (s : string) : string :=
  match n, s with
  | S n', String c s' => String c (substring n' s')
  | _, _ => EmptyString
  end.

End JS.

(* ===================================================================== *)
(** ** Regular expressions: [new RegExp(source).test(input)] *)
(* ===================================================================== *)

(** The part of the pattern grammar (without flags) that is read here:
    pattern characters, [.], the assertions [^] and [$], identity escapes
    of characters that are not letters or digits, groups [( )],
    alternatives [|] and the quantifiers [*], [+], [?] with their lazy
    forms.  A pattern with a character class, a brace, a [(?] group or an
    escape of a letter or digit is reported as [Unsupported], and what the
    platform makes of it is a parameter ([RegExpEngine]). *)

(** [new RegExp(source)] for a source that is [Unsupported] below: [None]
    when the constructor throws a [SyntaxError], otherwise the answer of
    [test] on each input. *)
Class RegExpEngine : Type := regexp_engine : string -> option (string -> bool).

Module RegExp.

Inductive re : Type :=
| Empty
| Chr (c : ascii)
| Dot
| Bol
| Eol
| Cat (a b : re)
| Alt (a b : re)
| Star (a : re).

Definition Plus (a : re) : re := Cat a (Star a).
Definition Opt (a : re) : re := Alt a Empty.

(** An alternative is the sequence of its terms, a disjunction the choice
    between its alternatives. *)
Fixpoint seq (ts : list re) : re :=
  match ts with
  | [] => Empty
  | [t] => t
  | t :: ts' => Cat t (seq ts')
  end.

Fixpoint alt (rs : list re) : re :=
  match rs with
  | [] => Empty
  | [r] => r
  | r :: rs' => Alt r (alt rs')
  end.

(** *** Reading a pattern *)

(** What the last term read allows next: a quantifier ([TAtom]), the [?]
    of a lazy quantifier ([TQuant]), neither ([TFixed]); [TOpen] is the
    position right after an opening parenthesis. *)
Inductive tag : Type := TAtom | TQuant | TFixed | TOpen.

(** The disjunction being read: finished alternatives, and the terms of
    the current one, last term first. *)
Record frame : Type := Frame {
  alts : list re;
  terms : list re;
  last : tag
}.

Definition frame0 (t : tag) : frame := Frame [] [] t.

Definition close (f : frame) : re := alt (alts f ++ [seq (rev (terms f))]).

Inductive pstate : Type :=
| Reading (outer : list frame) (cur : frame) (escaped : bool)
| SyntaxErr
| Beyond.

Definition push (t : re) (g : tag) (outer : list frame) (cur : frame) : pstate :=
  Reading outer (Frame (alts cur) (t :: terms cur) g) false.

Definition quantify (q : re -> re) (outer : list frame) (cur : frame) : pstate :=
  match last cur, terms cur with
  | TAtom, t :: ts => Reading outer (Frame (alts cur) (q t :: ts) TQuant) false
  | _, _ => SyntaxErr
  end.

Definition step (st : pstate) (c : ascii) : pstate :=
  match st with
  | SyntaxErr => SyntaxErr
  | Beyond => Beyond
  | Reading outer cur true =>
      if JS.is_alnum c then Beyond else push (Chr c) TAtom outer cur
  | Reading outer cur false =>
      if Ascii.eqb c "\" then Reading outer cur true
      else if Ascii.eqb c "." then push Dot TAtom outer cur
      else if Ascii.eqb c "^" then push Bol TFixed outer cur
      else if Ascii.eqb c "$" then push Eol TFixed outer cur
      else if Ascii.eqb c "*" then quantify Star outer cur
      else if Ascii.eqb c "+" then quantify Plus outer cur
      else if Ascii.eqb c "?" then
        match last cur with
        | TQuant => Reading outer (Frame (alts cur) (terms cur) TFixed) false
        | TOpen => Beyond
        | _ => quantify Opt outer cur
        end
      else if Ascii.eqb c "(" then Reading (cur :: outer) (frame0 TOpen) false
      else if Ascii.eqb c ")" then
        match outer with
        | [] => SyntaxErr
        | parent :: outer' => push (close cur) TAtom outer' parent
        end
      else if Ascii.eqb c "|" then
        Reading outer (Frame (alts cur ++ [seq (rev (terms cur))]) [] TFixed) false
      else if Ascii.eqb c "[" || Ascii.eqb c "]" || Ascii.eqb c "{" || Ascii.eqb c "}"
      then Beyond
      else push (Chr c) TAtom outer cur
  end.

Fixpoint feed (st : pstate) (s : string) : pstate :=
  match s with
  | EmptyString => st
  | String c s' => feed (step st c) s'
  end.

Inductive compiled : Type :=
| Regex (r : re)
| SyntaxError
| Unsupported.

Definition start : pstate := Reading [] (frame0 TFixed) false.

Definition finish (st : pstate) : compiled :=
  match st with
  | Reading [] cur false => Regex (close cur)
  | Reading _ _ _ => SyntaxError
  | SyntaxErr => SyntaxError
  | Beyond => Unsupported
  end.

(** [new RegExp(source)] *)
Definition compile (source : string) : compiled := finish (feed start source).

(** *** Matching *)

(** [.] matches every character but a line terminator. *)
Definition line_terminator (c : ascii) : bool :=
  Ascii.eqb c "010" || Ascii.eqb c "013".

(** The iterations of a star whose body is matched by [ma]: an
    iteration that consumes nothing is rejected, as the language
    definition does, so at most [n] iterations are tried on an input of
    [n] characters. *)
Fixpoint iterate (ma : (bool -> string -> bool) -> bool -> string -> bool)
    (k : bool -> string -> bool) (n : nat) (bos : bool) (s : string) : bool :=
  match n with
  | O => k bos s
  | S n' =>
      ma (fun bos' s' =>
            (String.length s' <? String.length s)%nat && iterate ma k n' bos' s')
        bos s
      || k bos s
  end.

(** [m r k bos s]: [r] matches a prefix of [s] and the continuation [k]
    accepts what follows.  [bos] says that no character precedes [s] in
    the input. *)
Fixpoint m (r : re) (k : bool -> string -> bool) (bos : bool) (s : string) : bool :=
  match r with
  | Empty => k bos s
  | Chr c =>
      match s with
      | String d s' => Ascii.eqb c d && k false s'
      | EmptyString => false
      end
  | Dot =>
      match s with
      | String d s' => negb (line_terminator d) && k false s'
      | EmptyString => false
      end
  | Bol => bos && k bos s
  | Eol =>
      match s with
      | EmptyString => k bos s
      | String _ _ => false
      end
  | Cat a b => m a (m b k) bos s
  | Alt a b => m a k bos s || m b k bos s
  | Star a => iterate (m a) k (String.length s) bos s
  end.

(** The match may start at any index of the input. *)
Fixpoint search (r : re) (bos : bool) (s : string) : bool :=
  m r (fun _ _ => true) bos s ||
  match s with
  | EmptyString => false
  | String _ s' => search r false s'
  end.

(** [new RegExp(source).test(input)] *)
Definition test `{RegExpEngine} (source input : string) : result bool :=
  match compile source with
  | Regex r => Ok (search r true input)
  | SyntaxError => Throws
  | Unsupported =>
      match regexp_engine source with
      | Some accepts => Ok (accepts input)
      | None => Throws
      end
  end.

End RegExp.

(* ===================================================================== *)
(** ** Browser interfaces *)
(* ===================================================================== *)

(** [new URL(url).hostname]; [None] when the constructor throws. *)
Class URLParser : Type := url_hostname : string -> option string.

Module Chrome.

(** An entry of [chrome.history.search]. *)
Record HistoryItem : Type := {
  id : string;
  url : string;
  title : option string;
  lastVisitTime : Z;
  visitCount : nat
}.

(** An entry of [chrome.history.getVisits]. *)
Record VisitItem : Type := {
  transition : string
}.

End Chrome.

(** [chrome.history.getVisits({ url })]; [None] when the promise is
    rejected. *)
Class HistoryAPI : Type := getVisits : string -> option (list Chrome.VisitItem).

(* ===================================================================== *)
(** ** [extension/config.js]: class [Blacklist] *)
(* ===================================================================== *)

Module Blacklist.

(** [this.rules] *)
Record Rules : Type := {
  domains : list string;
  patterns : list string
}.

(** [.replace(/\./g, '\\.')] *)
Definition escapeDots : string -> string :=
  JS.replace_chars (Ascii.eqb ".") (fun _ => "\.").

(** [.replace(/\*/g, '.*')] *)
Definition expandStars : string -> string :=
  JS.replace_chars (Ascii.eqb "*") (fun _ => ".*").

(** The class [[.+?^${}()|[\]\\]] *)
Definition special (c : ascii) : bool :=
  existsb (Ascii.eqb c)
    ["."; "+"; "?"; "^"; "$"; "{"; "}"; "("; ")"; "|"; "["; "]"; "\"]%char.

(** [.replace(/[.+?^${}()|[\]\\]/g, '\\$&')] *)
Definition escapeSpecial : string -> string :=
  JS.replace_chars special (fun c => String "\" (String c EmptyString)).

Definition _matchDomain `{RegExpEngine} (hostname pattern : string) : result bool :=
  (* Exact match *)
  if String.eqb hostname pattern then Ok true
  (* Wildcard pattern *)
  else if JS.includes pattern "*" then
    let regexPattern := expandStars (escapeDots pattern) in
    RegExp.test ("^" +:+ regexPattern +:+ "$") hostname
  else Ok false.

Definition _matchPattern `{RegExpEngine} (url pattern : string) : result bool :=
  (* Simple contains check if no wildcards *)
  if negb (JS.includes pattern "*") then Ok (JS.includes url pattern)
  (* Wildcard pattern *)
  else
    let regexPattern := expandStars (escapeSpecial pattern) in
    RegExp.test regexPattern url.

Definition matches `{RegExpEngine} `{URLParser} (rules : Rules) (url : string) : result bool :=
  try_catch
    (match url_hostname url with
     | None => Throws
     | Some host =>
         let hostname := JS.toLowerCase host in
         let fullUrl := JS.toLowerCase url in
         (* Check domain patterns *)
         d <- for_some (fun domainPattern =>
                          _matchDomain hostname (JS.toLowerCase domainPattern))
                (domains rules) ;;;
         if d then Ok true
         else
           (* Check URL patterns *)
           p <- for_some (fun urlPattern =>
                            _matchPattern fullUrl (JS.toLowerCase urlPattern))
                  (patterns rules) ;;;
           if p then Ok true else Ok false
     end)
    (Ok false).

(** *** The rules of an instance and of the storage *)

(** What [fetch] and [response.json()] give for [blacklist.json]: an
    exception, a response that is not [ok], or the two properties of the
    object read, [None] for one that is missing. *)
Inductive file : Type :=
| Unavailable
| NotOk
| Data (domains patterns : option (list string)).

(** An instance with the storage it reads and writes:
    [chrome.storage.local] under [STORAGE_KEY], [None] when nothing is
    stored. *)
Record Instance : Type := {
  rules : Rules;
  storage : option Rules
}.

Definition no_rules : Rules := {| domains := []; patterns := [] |}.

(** [new Blacklist()] over a storage. *)
Definition new (storage : option Rules) : Instance :=
  {| rules := no_rules; storage := storage |}.

Definition _loadFromStorage (b : Instance) : option Rules := storage b.

Definition save (stored : Rules) (b : Instance) : Instance :=
  {| rules := rules b; storage := Some stored |}.

Definition set_rules (r : Rules) (b : Instance) : Instance :=
  {| rules := r; storage := storage b |}.

(** Load blacklist from file and Chrome storage. *)
Definition load (f : file) (b : Instance) : Instance :=
  match f with
  | Unavailable => b
  | _ =>
      let b :=
        match f with
        | Data d p => set_rules {| domains := default [] d; patterns := default [] p |} b
        | _ => b
        end in
      (* Merge with Chrome storage (user additions via console) *)
      match _loadFromStorage b with
      | Some stored =>
          set_rules
            {| domains := JS.unique (domains (rules b) ++ domains stored);
               patterns := JS.unique (patterns (rules b) ++ patterns stored) |} b
      | None => b
      end
  end.

(** Add a domain to blacklist. *)
Definition addDomain (domain : string) (b : Instance) : Instance :=
  let stored := default no_rules (_loadFromStorage b) in
  if negb (JS.array_includes (domains stored) domain) then
    let stored := {| domains := domains stored ++ [domain]; patterns := patterns stored |} in
    let b := save stored b in
    set_rules {| domains := domains (rules b) ++ [domain];
                 patterns := patterns (rules b) |} b
  else b.

(** Add a pattern to blacklist. *)
Definition addPattern (pattern : string) (b : Instance) : Instance :=
  let stored := default no_rules (_loadFromStorage b) in
  if negb (JS.array_includes (patterns stored) pattern) then
    let stored := {| domains := domains stored; patterns := patterns stored ++ [pattern] |} in
    let b := save stored b in
    set_rules {| domains := domains (rules b);
                 patterns := patterns (rules b) ++ [pattern] |} b
  else b.

(** [xs.filter(x => x !== y)] *)
Definition without (y : string) (xs : list string) : list string :=
  List.filter (fun x => negb (String.eqb x y)) xs.

(** Remove a domain from blacklist. *)
Definition removeDomain (domain : string) (b : Instance) : Instance :=
  let stored := default no_rules (_loadFromStorage b) in
  let stored := {| domains := without domain (domains stored);
                   patterns := patterns stored |} in
  let b := save stored b in
  set_rules {| domains := without domain (domains (rules b));
               patterns := patterns (rules b) |} b.

(** Remove a pattern from blacklist. *)
Definition removePattern (pattern : string) (b : Instance) : Instance :=
  let stored := default no_rules (_loadFromStorage b) in
  let stored := {| domains := domains stored;
                   patterns := without pattern (patterns stored) |} in
  let b := save stored b in
  set_rules {| domains := domains (rules b);
               patterns := without pattern (patterns (rules b)) |} b.

(** Get all blacklist rules. *)
Definition getRules (b : Instance) : Rules := rules b.

(** Clear all storage rules (keeps file rules). *)
Definition clearStorage (f : file) (b : Instance) : Instance :=
  load f {| rules := rules b; storage := None |}.

End Blacklist.

(* ===================================================================== *)
(** ** [extension/config.js]: class [Config] *)
(* ===================================================================== *)

Module Config.

Module STORAGE_KEYS.
Definition API_KEY : string := "llm_api_key".
Definition PROVIDER : string := "llm_provider".
Definition ENDPOINT : string := "llm_endpoint".
Definition MODEL : string := "llm_model".
End STORAGE_KEYS.

Module PROVIDERS.
Definition OPENAI : string := "openai".
Definition ANTHROPIC : string := "anthropic".
Definition GEMINI : string := "gemini".
Definition CUSTOM : string := "custom".
End PROVIDERS.

Module DEFAULT_SETTINGS.
Definition provider : string := PROVIDERS.OPENAI.
(** [0.7] *)
Definition temperature : float := 0x1.6666666666666p-1%float.
Definition maxTokens : float := 2000%float.
End DEFAULT_SETTINGS.

(** A configuration object; [None] is a property that is [undefined]. *)
Record t : Type := {
  apiKey : option string;
  provider : option string;
  endpoint : option string;
  model : option string
}.

(** Load configuration from Chrome storage: [storage] holds the string
    entries of [chrome.storage.local]. *)
Definition load (storage : gmap string string) : t :=
  {| apiKey := Some (JS.or_else (storage !! STORAGE_KEYS.API_KEY) "");
     provider := Some (JS.or_else (storage !! STORAGE_KEYS.PROVIDER)
                         DEFAULT_SETTINGS.provider);
     endpoint := Some (JS.or_else (storage !! STORAGE_KEYS.ENDPOINT) "");
     model := Some (JS.or_else (storage !! STORAGE_KEYS.MODEL) "") |}.

(** [if (value !== undefined) data[key] = value] *)
Definition set_defined (key : string) (value : option string)
    (data : gmap string string) : gmap string string :=
  match value with
  | Some v => <[key := v]> data
  | None => data
  end.

(** Save configuration to Chrome storage: [chrome.storage.local.set(data)]
    writes the entries of [data] and leaves the others. *)
Definition save (config : t) (storage : gmap string string) : gmap string string :=
  let data : gmap string string := ∅ in
  let data := set_defined STORAGE_KEYS.API_KEY (apiKey config) data in
  let data := set_defined STORAGE_KEYS.PROVIDER (provider config) data in
  let data := set_defined STORAGE_KEYS.ENDPOINT (endpoint config) data in
  let data := set_defined STORAGE_KEYS.MODEL (model config) data in
  data ∪ storage.

End Config.

(* ===================================================================== *)
(** ** [extension/config.js]: class [LLMService] *)
(* ===================================================================== *)

Module LLMService.

(** A value given to [JSON.stringify]. *)
Inductive value : Type :=
| Undefined
| Null
| Str (s : string)
| Num (x : float)
| Arr (items : list value)
| Obj (properties : list (string * value)).

(** The arguments of a call of [fetch]. *)
Record request : Type := {
  url : string;
  method : string;
  headers : list (string * string);
  body : value
}.

(** What a call does up to its first [await]: it throws an [Error], or
    it calls [fetch]. *)
Inductive call : Type :=
| Error (message : string)
| Fetch (r : request).

(** The line feed of a template, [\n]. *)
Definition LF : string := String (ascii_of_nat 10) "".

(** [You are a helpful assistant. Here is the content of a webpage the
    user is asking about:\n\n${context}] *)
Definition about (context : string) : string :=
  "You are a helpful assistant. Here is the content of a webpage the user is asking about:"
  +:+ LF +:+ LF +:+ context.

Definition message (role content : string) : value :=
  Obj [("role", Str role); ("content", Str content)].

(** OpenAI API implementation, up to the call of [fetch]; [model] is
    [None] when the argument is [undefined], which the default replaces. *)
Definition _sendToOpenAI (userMessage : string) (context apiKey model : option string)
  : call :=
  let model := default "gpt-3.5-turbo" model in
  let messages := [] in
  let messages :=
    if JS.truthy context
    then messages ++ [message "system" (about (JS.to_string context))]
    else messages in
  let messages := messages ++ [message "user" userMessage] in
  Fetch
    {| url := "https://api.openai.com/v1/chat/completions";
       method := "POST";
       headers := [("Content-Type", "application/json");
                   ("Authorization", "Bearer " +:+ JS.to_string apiKey)];
       body := Obj [("model", Str model);
                    ("messages", Arr messages);
                    ("temperature", Num Config.DEFAULT_SETTINGS.temperature);
                    ("max_tokens", Num Config.DEFAULT_SETTINGS.maxTokens)] |}.

(** Anthropic Claude API implementation, up to the call of [fetch]. *)
Definition _sendToAnthropic (userMessage : string) (context apiKey model : option string)
  : call :=
  let model := default "claude-3-5-sonnet-20241022" model in
  let systemPrompt := "You are a helpful assistant." in
  let userContent := userMessage in
  let systemPrompt :=
    if JS.truthy context then about (JS.to_string context) else systemPrompt in
  Fetch
    {| url := "https://api.anthropic.com/v1/messages";
       method := "POST";
       headers := [("Content-Type", "application/json");
                   ("x-api-key", JS.to_string apiKey);
                   ("anthropic-version", "2023-06-01")];
       body := Obj [("model", Str model);
                    ("max_tokens", Num Config.DEFAULT_SETTINGS.maxTokens);
                    ("system", Str systemPrompt);
                    ("messages", Arr [message "user" userContent])] |}.

(** Google Gemini API implementation, up to the call of [fetch]. *)
Definition _sendToGemini (userMessage : string) (context apiKey model : option string)
  : call :=
  let model := default "gemini-1.5-flash" model in
  let fullPrompt := userMessage in
  let fullPrompt :=
    if JS.truthy context
    then about (JS.to_string context) +:+ LF +:+ LF +:+ "User question: " +:+ userMessage
    else fullPrompt in
  let url :=
    "https://generativelanguage.googleapis.com/v1beta/models/" +:+ model
    +:+ ":generateContent?key=" +:+ JS.to_string apiKey in
  Fetch
    {| url := url;
       method := "POST";
       headers := [("Content-Type", "application/json")];
       body := Obj [("contents", Arr [Obj [("parts", Arr [Obj [("text", Str fullPrompt)]])]]);
                    ("generationConfig",
                     Obj [("temperature", Num Config.DEFAULT_SETTINGS.temperature);
                          ("maxOutputTokens", Num Config.DEFAULT_SETTINGS.maxTokens)])] |}.

(** A string, [null] or [undefined] as a value. *)
Definition nullable (x : option string) : value :=
  match x with
  | Some s => Str s
  | None => Null
  end.

Definition optional (x : option string) : value :=
  match x with
  | Some s => Str s
  | None => Undefined
  end.

(** Custom endpoint implementation (flexible for any API), up to the call
    of [fetch]. *)
Definition _sendToCustom (userMessage : string) (context endpoint apiKey model : option string)
  : call :=
  if negb (JS.truthy endpoint) then Error "Custom endpoint not configured."
  else
    let payload :=
      Obj [("message", Str userMessage);
           ("context", nullable context);
           ("model", optional model);
           ("temperature", Num Config.DEFAULT_SETTINGS.temperature);
           ("max_tokens", Num Config.DEFAULT_SETTINGS.maxTokens)] in
    let headers := [("Content-Type", "application/json")] in
    let headers :=
      if JS.truthy apiKey
      then headers ++ [("Authorization", "Bearer " +:+ JS.to_string apiKey)]
      else headers in
    Fetch
      {| url := JS.to_string endpoint;
         method := "POST";
         headers := headers;
         body := payload |}.

Definition provider_is (provider : option string) (name : string) : bool :=
  match provider with
  | Some p => String.eqb p name
  | None => false
  end.

(** Main method to send a message to the LLM, up to the call of [fetch];
    [context] is [null] when it is [None]. *)
Definition sendMessage (config : Config.t) (userMessage : string) (context : option string)
  : call :=
  let provider := Config.provider config in
  let apiKey := Config.apiKey config in
  let endpoint := Config.endpoint config in
  let model := Config.model config in
  if negb (JS.truthy apiKey) && negb (provider_is provider Config.PROVIDERS.CUSTOM) then
    Error "API key not configured. Please add your API key in settings."
  else if provider_is provider Config.PROVIDERS.OPENAI then
    _sendToOpenAI userMessage context apiKey model
  else if provider_is provider Config.PROVIDERS.ANTHROPIC then
    _sendToAnthropic userMessage context apiKey model
  else if provider_is provider Config.PROVIDERS.GEMINI then
    _sendToGemini userMessage context apiKey model
  else if provider_is provider Config.PROVIDERS.CUSTOM then
    _sendToCustom userMessage context endpoint apiKey model
  else
    Error ("Unknown provider: " +:+ JS.to_string provider).

End LLMService.

(* ===================================================================== *)
(** ** Numbers: [(x).toFixed(1)] *)
(* ===================================================================== *)

Module Number.

(** A count as a JavaScript number (exact below 2^53). *)
Definition of_nat (n : nat) : float :=
  PrimFloat.of_uint63 (Uint63.of_Z (Z.of_nat n)).

(** The integer [n] for which [n / 10 - x] is closest to zero, the larger
    one of two, for [x = mant * 2^e]. *)
Definition tenths (mant : positive) (e : Z) : Z :=
  if (0 <=? e)%Z then (10 * Z.pos mant * 2 ^ e)%Z
  else ((20 * Z.pos mant + 2 ^ (- e)) / 2 ^ (1 - e))%Z.

Definition decimal (n : Z) : string :=
  NilZero.string_of_uint (N.to_uint (Z.to_N n)).

(** [x.toFixed(1)] for a magnitude below [10^21]. *)
Definition toFixed1 (x : float) : string :=
  match Prim2SF x with
  | S754_nan => "NaN"
  | S754_infinity false => "Infinity"
  | S754_infinity true => "-Infinity"
  | S754_zero _ => "0.0"
  | S754_finite sign mant e =>
      let n := tenths mant e in
      (if sign then "-" else "") +:+
      decimal (n / 10) +:+ "." +:+ decimal (n mod 10)
  end.

End Number.

(** A value of a property that the code assigns values of several types. *)
Inductive js_value : Type :=
| JSUndefined
| JSNumber (x : float)
| JSString (s : string).

(* ===================================================================== *)
(** ** The statistics page *)
(* ===================================================================== *)

Module Stats.

Definition secondLevel : list string :=
  ["co"; "com"; "org"; "ac"; "gov"; "edu"; "net"].

(** Extract root domain from URL; [None] is [null]. *)
Definition getRootDomain `{URLParser} (url : string) : option string :=
  match url_hostname url with
  | None => None
  | Some hostname =>
      let parts := JS.split "." hostname in
      if (3 <=? length parts)%nat
         && JS.array_includes secondLevel (nth (length parts - 2) parts "")
      then Some (JS.join "." (JS.slice_last 3 parts))
      else Some (JS.join "." (JS.slice_last 2 parts))
  end.

(** The object kept per domain.  [urls] is a [Set] in insertion order,
    [None] once the property is deleted; [percentage] is [JSUndefined]
    until it is assigned. *)
Record DomainData : Type := {
  domain : string;
  visitCount : nat;
  urls : option (list string);
  typedCount : nat;
  clickedCount : nat;
  percentage : js_value
}.

(** A [Map] keyed by domain, in insertion order. *)
Definition DomainMap : Type := list (string * DomainData).

Fixpoint map_has (k : string) (mp : DomainMap) : bool :=
  match mp with
  | [] => false
  | (k', _) :: mp' => String.eqb k k' || map_has k mp'
  end.

(** [mp.set(k, v)] for a key that [mp] does not have. *)
Definition map_set (k : string) (v : DomainData) (mp : DomainMap) : DomainMap :=
  mp ++ [(k, v)].

(** A change of the object [mp.get(k)]. *)
Fixpoint map_update (k : string) (f : DomainData -> DomainData) (mp : DomainMap) : DomainMap :=
  match mp with
  | [] => []
  | (k', v) :: mp' =>
      if String.eqb k k' then (k', f v) :: mp' else (k', v) :: map_update k f mp'
  end.

(** [set.add(u)] *)
Definition set_add (u : string) (set : list string) : list string :=
  if existsb (String.eqb u) set then set else set ++ [u].

Definition newDomain (d : string) : DomainData :=
  {| domain := d; visitCount := 0; urls := Some []; typedCount := 0;
     clickedCount := 0; percentage := JSUndefined |}.

Definition visit (u : string) (data : DomainData) : DomainData :=
  {| domain := domain data;
     visitCount := visitCount data + 1;
     urls := option_map (set_add u) (urls data);
     typedCount := typedCount data;
     clickedCount := clickedCount data;
     percentage := percentage data |}.

(** The callback of [historyItems.forEach]. *)
Definition group `{URLParser} (domainMap : DomainMap) (item : Chrome.HistoryItem) : DomainMap :=
  match getRootDomain (Chrome.url item) with
  | None => domainMap
  | Some d =>
      if String.eqb d "" then domainMap
      else
        let domainMap :=
          if map_has d domainMap then domainMap
          else map_set d (newDomain d) domainMap in
        map_update d (visit (Chrome.url item)) domainMap
  end.

(** The callback of [visits.forEach], on the pair of counters. *)
Definition classify (counts : nat * nat) (v : Chrome.VisitItem) : nat * nat :=
  if String.eqb (Chrome.transition v) "typed"
  then (fst counts + 1, snd counts)
  else (fst counts, snd counts + 1).

(** The body of [for (const url of data.urls)]: a rejected lookup is
    logged and skipped. *)
Definition countUrl `{HistoryAPI} (counts : nat * nat) (u : string) : nat * nat :=
  match getVisits u with
  | Some visits => fold_left classify visits counts
  | None => counts
  end.

Definition toPercentage (visits totalVisits : nat) : string :=
  Number.toFixed1
    (PrimFloat.mul
       (PrimFloat.div (Number.of_nat visits) (Number.of_nat totalVisits))
       (Number.of_nat 100)).

(** The body of [for (const [domain, data] of domainEntries)]. *)
Definition resolve `{HistoryAPI} (totalVisits : nat) (data : DomainData) : DomainData :=
  let counts := fold_left countUrl (default [] (urls data)) (0, 0) in
  {| domain := domain data;
     visitCount := visitCount data;
     urls := None;
     typedCount := fst counts;
     clickedCount := snd counts;
     percentage := JSString (toPercentage (visitCount data) totalVisits) |}.

(** [.sort((a, b) => b.visitCount - a.visitCount)]: descending. *)
Definition sort_desc (l : list DomainData) : list DomainData :=
  JS.sort (fun a b => (visitCount b <=? visitCount a)%nat) l.

Definition processDomainData `{URLParser} `{HistoryAPI}
    (historyItems : list Chrome.HistoryItem) : list DomainData :=
  let totalVisits := length historyItems in
  (* Group by domain and collect URLs *)
  let domainMap := fold_left group historyItems [] in
  (* Get typed vs clicked details for each domain *)
  let domainMap := map (fun e => (fst e, resolve totalVisits (snd e))) domainMap in
  (* Convert to array and sort by visit count *)
  sort_desc (map snd domainMap).

(** *** The page: history, summary and chart *)

(** The callback of [historyItems.filter] in [fetchHistory], for a
    blacklist that is loaded. *)
Definition allowed `{RegExpEngine} `{URLParser} (blacklist : Blacklist.Rules)
    (item : Chrome.HistoryItem) (rest : result (list Chrome.HistoryItem))
  : result (list Chrome.HistoryItem) :=
  b <- Blacklist.matches blacklist (Chrome.url item) ;;;
  rest <- rest ;;;
  Ok (if negb b then item :: rest else rest).

(** Fetch history from Chrome API: [historyItems] is the answer of
    [chrome.history.search]. *)
Definition fetchHistory `{RegExpEngine} `{URLParser} (blacklist : Blacklist.Rules)
    (historyItems : list Chrome.HistoryItem) : result (list Chrome.HistoryItem) :=
  (* Filter out blacklisted items *)
  fold_right (allowed blacklist) (Ok []) historyItems.

(** [state.topN]: a whole number, or [Infinity]. *)
Inductive count : Type :=
| Finite (n : nat)
| Infinity.

(** [domainData.slice(0, topN)] *)
Definition top (topN : count) (domainData : list DomainData) : list DomainData :=
  match topN with
  | Finite n => JS.slice 0 n domainData
  | Infinity => domainData
  end.

(** The data that [renderChart] gives to the chart: the labels, the
    values and the title; [None] when there is no domain to display. *)
Definition renderChart (topN : count) (domainData : list DomainData)
  : option (list string * list nat * string) :=
  (* Get top N domains *)
  let topDomains := top topN domainData in
  if (length topDomains =? 0)%nat then None
  else
    (* Prepare data for chart *)
    let labels := map domain topDomains in
    let visitCounts := map visitCount topDomains in
    Some (labels, visitCounts,
          "Top " +:+ Number.decimal (Z.of_nat (length topDomains))
          +:+ " Most Visited Domains").

(** Update summary statistics: what the three elements of the summary
    hold, the two numbers before [toLocaleString] renders them. *)
Record Summary : Type := {
  totalVisits : nat;
  uniqueDomains : nat;
  topDomain : string
}.

Definition updateSummaryStats (domainData : list DomainData) (totalVisits : nat) : Summary :=
  {| totalVisits := totalVisits;
     uniqueDomains := length domainData;
     topDomain := match domainData with
                  | first :: _ => domain first
                  | [] => "N/A"
                  end |}.

(** What [loadAndRenderData] leaves on the page: the statistics kept in
    [state.domainData], the summary, and the data of the chart. *)
Record Page : Type := {
  domainData : list DomainData;
  summary : Summary;
  chart : option (list string * list nat * string)
}.

(** Load and render data: [historyItems] is the answer of
    [chrome.history.search] for the time range. *)
Definition loadAndRenderData `{RegExpEngine} `{URLParser} `{HistoryAPI}
    (blacklist : Blacklist.Rules)
    (topN : count) (historyItems : list Chrome.HistoryItem) : result Page :=
  (* Fetch history for selected time range *)
  history <- fetchHistory blacklist historyItems ;;;
  (* Process domain data (now async to get typed/clicked counts) *)
  let domainData := processDomainData history in
  Ok {| domainData := domainData;
        (* Update summary stats *)
        summary := updateSummaryStats domainData (length history);
        (* Render chart *)
        chart := renderChart topN domainData |}.

End Stats.

(* ===================================================================== *)
(** ** The feed page: paging *)
(* ===================================================================== *)

Module Feed.

(** [CONFIG.batchSize] *)
Definition batchSize : nat := 20.

(** The object [state]. *)
Record State : Type := {
  currentOffset : nat;
  isLoading : bool;
  hasMore : bool;
  allHistory : list Chrome.HistoryItem;
  filteredCount : nat
}.

(** What a call does besides changing [state], in the order it happens. *)
Inductive event : Type :=
| ShowLoading
| HideLoading
| ShowEmptyState
| GetHistoryBatch (offset limit : nat)
| GetVisits (url : string)
| RenderCards (items : list Chrome.HistoryItem)
| LogError.

Record World : Type := {
  state : State;
  trace : list event
}.

Definition emit (e : event) (w : World) : World :=
  {| state := state w; trace := trace w ++ [e] |}.

Definition set_isLoading (b : bool) (w : World) : World :=
  {| state := {| currentOffset := currentOffset (state w);
                 isLoading := b;
                 hasMore := hasMore (state w);
                 allHistory := allHistory (state w);
                 filteredCount := filteredCount (state w) |};
     trace := trace w |}.

Definition set_hasMore (b : bool) (w : World) : World :=
  {| state := {| currentOffset := currentOffset (state w);
                 isLoading := isLoading (state w);
                 hasMore := b;
                 allHistory := allHistory (state w);
                 filteredCount := filteredCount (state w) |};
     trace := trace w |}.

Definition set_currentOffset (n : nat) (w : World) : World :=
  {| state := {| currentOffset := n;
                 isLoading := isLoading (state w);
                 hasMore := hasMore (state w);
                 allHistory := allHistory (state w);
                 filteredCount := filteredCount (state w) |};
     trace := trace w |}.

Definition set_allHistory (history : list Chrome.HistoryItem) (filtered : nat)
    (w : World) : World :=
  {| state := {| currentOffset := currentOffset (state w);
                 isLoading := isLoading (state w);
                 hasMore := hasMore (state w);
                 allHistory := history;
                 filteredCount := filtered |};
     trace := trace w |}.

(** [.sort((a, b) => b.lastVisitTime - a.lastVisitTime)]: most recent
    first. *)
Definition sort_recent (l : list Chrome.HistoryItem) : list Chrome.HistoryItem :=
  JS.sort (fun a b => (Chrome.lastVisitTime b <=? Chrome.lastVisitTime a)%Z) l.

(** The callback of [historyItems.filter] with its counter [filtered]:
    the records kept so far, in order, and the number of records dropped. *)
Definition keep `{RegExpEngine} `{URLParser} (blacklist : Blacklist.Rules)
    (acc : result (list Chrome.HistoryItem * nat)) (item : Chrome.HistoryItem)
  : result (list Chrome.HistoryItem * nat) :=
  a <- acc ;;;
  b <- Blacklist.matches blacklist (Chrome.url item) ;;;
  if b then Ok (fst a, snd a + 1) else Ok (fst a ++ [item], snd a).

(** Load and filter all history, from the answer [historyItems] of
    [chrome.history.search]. *)
Definition loadAllHistory `{RegExpEngine} `{URLParser} (blacklist : Blacklist.Rules)
    (historyItems : list Chrome.HistoryItem) (w : World) : result World :=
  (* Sort by most recent visit *)
  let historyItems := sort_recent historyItems in
  (* Filter out blacklisted items (count filtered items ONCE) *)
  a <- fold_left (keep blacklist) historyItems (Ok ([], 0)) ;;;
  Ok (set_allHistory (fst a) (snd a) w).

(** Get a batch of history items from cached filtered data. *)
Definition getHistoryBatch (offset limit : nat) (w : World)
  : list Chrome.HistoryItem * World :=
  (JS.slice offset (offset + limit) (allHistory (state w)),
   emit (GetHistoryBatch offset limit) w).

(** The [finally] block of [loadMoreHistory]. *)
Definition finally (w : World) : World :=
  emit HideLoading (set_isLoading false w).

(** [loadMoreHistory] stops at its [await], or returns before it. *)
Inductive progress : Type :=
| Returned
| Awaiting (historyItems : list Chrome.HistoryItem).

(** [loadMoreHistory()] up to its [await]: every [getVisits] request of
    the batch is issued before the function is suspended. *)
Definition loadMoreHistory (w : World) : World * progress :=
  if isLoading (state w) || negb (hasMore (state w)) then (w, Returned)
  else
    let w := set_isLoading true w in
    let w := emit ShowLoading w in
    (* Get next batch from cached filtered history *)
    let '(historyItems, w) := getHistoryBatch (currentOffset (state w)) batchSize w in
    if (length historyItems =? 0)%nat then
      let w := set_hasMore false w in
      let w := emit HideLoading w in
      let w := if (currentOffset (state w) =? 0)%nat then emit ShowEmptyState w else w in
      (finally w, Returned)
    else
      (* Get visit counts for each item *)
      let w := fold_left (fun w item => emit (GetVisits (Chrome.url item)) w) historyItems w in
      (w, Awaiting historyItems).

Definition withVisitCount (item : Chrome.HistoryItem) (visits : list Chrome.VisitItem)
  : Chrome.HistoryItem :=
  {| Chrome.id := Chrome.id item;
     Chrome.url := Chrome.url item;
     Chrome.title := Chrome.title item;
     Chrome.lastVisitTime := Chrome.lastVisitTime item;
     Chrome.visitCount := length visits |}.

(** [renderCards]: [createCard] parses the URL of every item and throws
    when one does not parse. *)
Definition renderCards `{URLParser} (items : list Chrome.HistoryItem) (w : World)
  : result World :=
  if forallb (fun item => bool_decide (is_Some (url_hostname (Chrome.url item)))) items
  then Ok (emit (RenderCards items) w)
  else Throws.

(** [loadMoreHistory()] from its [await] on, once the requests are
    answered. *)
Definition loadMoreHistory_resume `{URLParser} `{HistoryAPI}
    (historyItems : list Chrome.HistoryItem) (w : World) : World :=
  let body :=
    match mapM (fun item => getVisits (Chrome.url item)) historyItems with
    | None => Throws
    | Some visits =>
        let itemsWithVisitCount := zip_with withVisitCount historyItems visits in
        w <- renderCards itemsWithVisitCount w ;;;
        let w := set_currentOffset (currentOffset (state w) + length historyItems) w in
        (* Check if we've reached the end of cached history *)
        if (length (allHistory (state w)) <=? currentOffset (state w))%nat
        then Ok (set_hasMore false w)
        else Ok w
    end in
  match body with
  | Ok w' => finally w'
  | _ => finally (emit LogError w)
  end.

(** A call of [loadMoreHistory] that runs to its end before anything else
    happens. *)
Definition loadMoreHistory_whole `{URLParser} `{HistoryAPI} (w : World) : World :=
  match loadMoreHistory w with
  | (w', Returned) => w'
  | (w', Awaiting historyItems) => loadMoreHistory_resume historyItems w'
  end.

Definition fetches (tr : list event) : nat :=
  length (List.filter (fun e => match e with GetHistoryBatch _ _ => true | _ => false end) tr).

Definition lookups (tr : list event) : nat :=
  length (List.filter (fun e => match e with GetVisits _ => true | _ => false end) tr).

Definition rendered (tr : list event) : list Chrome.HistoryItem :=
  flat_map (fun e => match e with RenderCards items => items | _ => [] end) tr.

(** *** The cards *)

(** [`${n} ${unit}${n !== 1 ? 's' : ''} ago`] *)
Definition ago (n : Z) (unit : string) : string :=
  Number.decimal n +:+ " " +:+ unit +:+ (if (n =? 1)%Z then "" else "s") +:+ " ago".

(** Format timestamp to "X time ago"; [now] is [Date.now()], both times
    in whole milliseconds. *)
Definition formatTimeAgo (now timestamp : Z) : string :=
  let diff := (now - timestamp)%Z in
  let seconds := (diff / 1000)%Z in
  let minutes := (seconds / 60)%Z in
  let hours := (minutes / 60)%Z in
  let days := (hours / 24)%Z in
  let weeks := (days / 7)%Z in
  let months := (days / 30)%Z in
  let years := (days / 365)%Z in
  if (0 <? years)%Z then ago years "year"
  else if (0 <? months)%Z then ago months "month"
  else if (0 <? weeks)%Z then ago weeks "week"
  else if (0 <? days)%Z then ago days "day"
  else if (0 <? hours)%Z then ago hours "hour"
  else if (0 <? minutes)%Z then ago minutes "minute"
  else "Just now".

End Feed.

(* ===================================================================== *)
(** ** The feed page: chat histories *)
(* ===================================================================== *)

Module Chat.

Module Message.
Record t : Type := { role : string; content : string }.
End Message.

(** An entry of [chatHistories]. *)
Module Entry.
Record t : Type := {
  messages : list Message.t;
  content : option string
}.
End Entry.

(** The object [chatState]. *)
Record ChatState : Type := {
  currentPage : option Chrome.HistoryItem;
  pageContent : option string;
  messages : list Message.t;
  isTyping : bool
}.

Inductive event : Type :=
| Confirm (message : string)
| Alert (message : string)
| ClearUI
| SystemMessage (message : string).

Record World : Type := {
  chatState : ChatState;
  chatHistories : gmap string Entry.t;
  trace : list event
}.

Definition emit (e : event) (w : World) : World :=
  {| chatState := chatState w; chatHistories := chatHistories w;
     trace := trace w ++ [e] |}.

(** [chatHistories[url]], as [openChatModal] reads it. *)
Definition get (url : string) (w : World) : option Entry.t :=
  chatHistories w !! url.

(** Save current chat state to history storage. *)
Definition saveChatHistory (w : World) : World :=
  match currentPage (chatState w) with
  | None => w
  | Some page =>
      {| chatState := chatState w;
         chatHistories :=
           <[Chrome.url page :=
               {| Entry.messages := messages (chatState w);
                  Entry.content := pageContent (chatState w) |}]>
             (chatHistories w);
         trace := trace w |}
  end.

(** Clear current chat history.  [answer] is what [confirm] returns. *)
Definition clearCurrentChat (answer : bool) (w : World) : World :=
  match currentPage (chatState w) with
  | None => w
  | Some page =>
      let w := emit (Confirm "Are you sure you want to clear this chat?") w in
      if answer then
        let w :=
          {| chatState :=
               {| currentPage := currentPage (chatState w);
                  pageContent := None;
                  messages := [];
                  isTyping := isTyping (chatState w) |};
             (* Clear from storage *)
             chatHistories := delete (Chrome.url page) (chatHistories w);
             trace := trace w |} in
        emit (SystemMessage "Chat cleared successfully.") (emit ClearUI w)
      else w
  end.

(** Clear all chat histories.  [answer] is what [confirm] returns. *)
Definition clearAllChats (answer : bool) (w : World) : World :=
  let chatCount := size (chatHistories w) in
  if (chatCount =? 0)%nat then emit (Alert "No chats to clear.") w
  else
    let w :=
      emit (Confirm ("Are you sure you want to clear all "
                     +:+ Number.decimal (Z.of_nat chatCount)
                     +:+ " chat histories?")) w in
    if answer then
      emit (Alert "All chat histories cleared successfully.")
        {| chatState := chatState w; chatHistories := ∅; trace := trace w |}
    else w.

Definition confirmations (tr : list event) : nat :=
  length (List.filter (fun e => match e with Confirm _ => true | _ => false end) tr).

End Chat.

(* ===================================================================== *)
(** ** The feed page: the chat modal *)
(* ===================================================================== *)

Module Modal.

(** What the handlers do to the page and ask of the platform. *)
Inductive event : Type :=
| ModalOpened (item : Chrome.HistoryItem)
| ModalClosing
| ContentPreview (content : string)
| MessageElement (role content : string)
| SystemElement (content : string)
| ErrorElement (content : string)
| SettingsHint
| InputCleared
| SendDisabled (disabled : bool)
| FetchDisabled (disabled : bool)
| ConfigLoad
| Request (r : LLMService.request)
| FetchPage (url : string)
| LogError
| Uncaught.

(** The chat store, the number of modals in the document (their elements
    are those that [document.getElementById] finds), and the events so
    far.  [openChatModal] makes [chatState.messages] the array of the entry
    it reads; a list stands for both, since every [push] on the array is
    followed by [saveChatHistory], which writes a copy of it under the page
    of the chat, and the page changes in [openChatModal] only. *)
Record World : Type := {
  chat : Chat.World;
  modals : nat;
  log : list event
}.

Definition emit (e : event) (w : World) : World :=
  {| chat := chat w; modals := modals w; log := log w ++ [e] |}.

Definition set_chatState (s : Chat.ChatState) (w : World) : World :=
  {| chat := {| Chat.chatState := s;
                Chat.chatHistories := Chat.chatHistories (chat w);
                Chat.trace := Chat.trace (chat w) |};
     modals := modals w; log := log w |}.

Definition chatState (w : World) : Chat.ChatState := Chat.chatState (chat w).

Definition set_isTyping (b : bool) (w : World) : World :=
  set_chatState
    {| Chat.currentPage := Chat.currentPage (chatState w);
       Chat.pageContent := Chat.pageContent (chatState w);
       Chat.messages := Chat.messages (chatState w);
       Chat.isTyping := b |} w.

Definition saveChatHistory (w : World) : World :=
  {| chat := Chat.saveChatHistory (chat w); modals := modals w; log := log w |}.

(** Render existing content when reopening chat. *)
Definition renderExistingContent (w : World) : World :=
  match Chat.pageContent (chatState w) with
  | Some (String c s) => emit (ContentPreview (String c s)) w
  | _ => w
  end.

(** Render existing messages when reopening chat. *)
Definition renderExistingMessages (w : World) : World :=
  fold_left
    (fun w msg => emit (MessageElement (Chat.Message.role msg) (Chat.Message.content msg)) w)
    (Chat.messages (chatState w)) w.

(** Open chat modal for a history item.  The state is set before the URL
    is parsed; when it does not parse, the exception leaves the handler
    and no modal is added. *)
Definition openChatModal `{URLParser} (historyItem : Chrome.HistoryItem) (w : World)
  : World :=
  (* Load existing chat history if available *)
  let existingChat := Chat.get (Chrome.url historyItem) (chat w) in
  let w :=
    set_chatState
      match existingChat with
      | Some existingChat =>
          {| Chat.currentPage := Some historyItem;
             Chat.pageContent :=
               if JS.truthy (Chat.Entry.content existingChat)
               then Chat.Entry.content existingChat else None;
             Chat.messages := Chat.Entry.messages existingChat;
             Chat.isTyping := false |}
      | None =>
          {| Chat.currentPage := Some historyItem;
             Chat.pageContent := None;
             Chat.messages := [];
             Chat.isTyping := false |}
      end w in
  match url_hostname (Chrome.url historyItem) with
  | None => emit Uncaught w
  | Some domain =>
      (* Add to document *)
      let w := {| chat := chat w; modals := modals w + 1; log := log w |} in
      let w := emit (ModalOpened historyItem) w in
      let w := if JS.truthy (Chat.pageContent (chatState w))
               then renderExistingContent w else w in
      if (0 <? length (Chat.messages (chatState w)))%nat
      then renderExistingMessages w else w
  end.

(** Close chat modal, and the callback of its timer, [backdrop.remove()],
    200 ms later. *)
Definition closeChatModal (w : World) : World := emit ModalClosing w.

Definition remove (w : World) : World :=
  {| chat := chat w; modals := modals w - 1; log := log w |}.

(** The functions that append to [#chatMessages] throw when the document
    has no such element: [None]. *)
Definition appendChild (e : event) (w : World) : option World :=
  if (modals w =? 0)%nat then None else Some (emit e w).

(** Add message to chat. *)
Definition addMessage (role content : string) (w : World) : option World :=
  w ← appendChild (MessageElement role content) w;
  let w :=
    set_chatState
      {| Chat.currentPage := Chat.currentPage (chatState w);
         Chat.pageContent := Chat.pageContent (chatState w);
         Chat.messages :=
           Chat.messages (chatState w)
           ++ [{| Chat.Message.role := role; Chat.Message.content := content |}];
         Chat.isTyping := Chat.isTyping (chatState w) |} w in
  Some (saveChatHistory w).

Definition addSystemMessage (content : string) (w : World) : option World :=
  appendChild (SystemElement content) w.

Definition addErrorMessage (content : string) (w : World) : option World :=
  appendChild (ErrorElement content) w.

Definition addSettingsHint (w : World) : option World :=
  appendChild SettingsHint w.

(** [sendMessage] stops at its two [await]s, or returns. *)
Inductive progress : Type :=
| Returned
| AwaitingConfig (message : string)
| AwaitingReply (r : LLMService.request).

(** What the promise of [llmService.sendMessage] settles to. *)
Inductive reply : Type :=
| Resolved (response : string)
| Rejected (message : string).

(** The [catch] and [finally] blocks of [sendMessage]: [thrown] is the
    message of the error caught, if any. *)
Definition settle (thrown : option string) (w : World) : World :=
  let w :=
    match thrown with
    | Some message =>
        let w := emit LogError w in
        match addErrorMessage ("Error: " +:+ message) w with
        | Some w => w
        | None => emit Uncaught w
        end
    | None => w
    end in
  emit (SendDisabled false) (set_isTyping false w).

(** The message of the [TypeError] for an element that is not found. *)
Definition no_element : string :=
  "Cannot read properties of null (reading 'appendChild')".

(** [sendMessage()] up to [await Config.load()]; [input] is the value of
    the text area, which is read from an element of the modal. *)
Definition sendMessage (input : string) (w : World) : World * progress :=
  if (modals w =? 0)%nat then (emit Uncaught w, Returned)
  else
    let message := JS.trim input in
    if negb (JS.truthy (Some message)) || Chat.isTyping (chatState w) then (w, Returned)
    else
      match addMessage "user" message w with
      | None => (emit Uncaught w, Returned)
      | Some w =>
          let w := emit InputCleared w in
          let w := set_isTyping true w in
          let w := emit (SendDisabled true) w in
          (emit ConfigLoad w, AwaitingConfig message)
      end.

(** [sendMessage()] from the configuration to the request. *)
Definition sendMessage_configured (message : string) (config : Config.t) (w : World)
  : World * progress :=
  (* Check if API key is configured *)
  if negb (JS.truthy (Config.apiKey config))
     && negb (LLMService.provider_is (Config.provider config) Config.PROVIDERS.CUSTOM)
  then
    match addSettingsHint w with
    | Some w =>
        let w := set_isTyping false w in
        let w := emit (SendDisabled false) w in
        (settle None w, Returned)
    | None => (settle (Some no_element) w, Returned)
    end
  else
    (* Send message with context *)
    match LLMService.sendMessage config message (Chat.pageContent (chatState w)) with
    | LLMService.Error e => (settle (Some e) w, Returned)
    | LLMService.Fetch r => (emit (Request r) w, AwaitingReply r)
    end.

(** [sendMessage()] from the reply on. *)
Definition sendMessage_replied (answer : reply) (w : World) : World :=
  match answer with
  | Resolved response =>
      (* Add assistant response *)
      match addMessage "assistant" response w with
      | Some w => settle None w
      | None => settle (Some no_element) w
      end
  | Rejected message => settle (Some message) w
  end.

(** A call of [sendMessage] that runs to its end before anything else
    happens, over the stored configuration and the answer of the
    network. *)
Definition sendMessage_whole (storage : gmap string string)
    (network : LLMService.request -> reply) (input : string) (w : World) : World :=
  match sendMessage input w with
  | (w, AwaitingConfig message) =>
      match sendMessage_configured message (Config.load storage) w with
      | (w, AwaitingReply r) => sendMessage_replied (network r) w
      | (w, _) => w
      end
  | (w, _) => w
  end.

(** What [response.text()] and the parser give for the page: the text of
    its body, or an exception with its message. *)
Inductive page : Type :=
| PageText (textContent : string)
| PageFails (message : string).

Definition set_pageContent (content : option string) (w : World) : World :=
  set_chatState
    {| Chat.currentPage := Chat.currentPage (chatState w);
       Chat.pageContent := content;
       Chat.messages := Chat.messages (chatState w);
       Chat.isTyping := Chat.isTyping (chatState w) |} w.

(** [textContent.replace(/\s+/g, ' ').trim().substring(0, 10000)] *)
Definition cleanedContent (textContent : string) : string :=
  JS.substring 10000 (JS.trim (JS.replace_spaces false textContent)).

(** The [catch] block of [fetchPageContent]. *)
Definition fetch_failed (message : string) (w : World) : World :=
  let w := emit LogError w in
  match addErrorMessage
          ("Failed to fetch page content: " +:+ message
           +:+ ". This might be due to CORS restrictions or the page being unavailable.") w with
  | Some w => emit (FetchDisabled false) w
  | None => emit Uncaught w
  end.

(** [fetchPageContent] stops at its two [await]s, or returns. *)
Inductive fetching : Type :=
| Fetched
| AwaitingResponse (url : string)
| AwaitingText.

(** [document.getElementById] for an element that a modal may have:
    [shown] says that some modal of the document has it. *)
Definition found (shown : bool) (w : World) : bool :=
  (0 <? modals w)%nat && shown.

(** The message of the [TypeError] for a toggle that is not found. *)
Definition no_toggle : string :=
  "Cannot read properties of null (reading 'addEventListener')".

(** [fetchPageContent()] up to [await fetch(...)].  [button] says that a
    modal has the button [#fetchContentBtn], which a modal has until it
    shows a preview of the content; without the button,
    [button.disabled = true] throws before the [try]. *)
Definition fetchPageContent (button : bool) (w : World) : World * fetching :=
  match Chat.currentPage (chatState w) with
  | None => (w, Fetched)
  | Some page =>
      if found button w then
        let w := emit (FetchDisabled true) w in
        (emit (FetchPage (Chrome.url page)) w, AwaitingResponse (Chrome.url page))
      else (emit Uncaught w, Fetched)
  end.

(** [fetchPageContent()] from the answer of [fetch] to
    [await response.text()]; [rejected] is the message of the error when
    the promise of [fetch] is rejected. *)
Definition fetchPageContent_responded (rejected : option string) (w : World)
  : World * fetching :=
  match rejected with
  | Some message => (fetch_failed message w, Fetched)
  | None => (w, AwaitingText)
  end.

(** [fetchPageContent()] from the text on; [answer] is what
    [response.text()] and the parser give.  The preview is written into
    the element found at the start of the call; [toggle] says that some
    modal of the document then has a button [#toggleContent]. *)
Definition fetchPageContent_read (answer : page) (toggle : bool) (w : World) : World :=
  match answer with
  | PageText textContent =>
      let cleanedContent := cleanedContent textContent in
      let w := set_pageContent (Some cleanedContent) w in
      (* Save to chat history *)
      let w := saveChatHistory w in
      (* Display content preview *)
      let w := emit (ContentPreview cleanedContent) w in
      (* Setup toggle *)
      if found toggle w then
        match addSystemMessage
                "Page content fetched successfully! You can now ask questions about it."
                w with
        | Some w => w
        | None => fetch_failed no_element w
        end
      else fetch_failed no_toggle w
  | PageFails message => fetch_failed message w
  end.

(** Clear all chat histories, on the chat store. *)
Definition clearAllChats (answer : bool) (w : World) : World :=
  {| chat := Chat.clearAllChats answer (chat w); modals := modals w; log := log w |}.

End Modal.

(* ===================================================================== *)
(** ** Instances used to run the functions on examples *)
(* ===================================================================== *)

(** A reader of the plainest URLs, [http://host/...] and
    [https://host/...] with a host made of letters, digits, [-] and [.]
    whose last label starts with a letter.  On a string it accepts it
    returns the host name in lower case, as the URL parser does; it rejects
    every other string, among them all strings without a scheme. *)
Module PlainURL.

Fixpoint drop (n : nat) (s : string) : string :=
  match n, s with
  | S n', String _ s' => drop n' s'
  | _, _ => s
  end.

Definition after_scheme (url : string) : option string :=
  let lower := JS.toLowerCase url in
  if JS.startsWith lower "https://" then Some (drop 8 url)
  else if JS.startsWith lower "http://" then Some (drop 7 url)
  else None.

Definition delimiter (c : ascii) : bool :=
  Ascii.eqb c "/" || Ascii.eqb c "?" || Ascii.eqb c "#".

Fixpoint authority (s : string) : string :=
  match s with
  | EmptyString => EmptyString
  | String c s' => if delimiter c then EmptyString else String c (authority s')
  end.

Definition host_char (c : ascii) : bool :=
  JS.is_alnum c || Ascii.eqb c "-" || Ascii.eqb c ".".

Definition starts_with_letter (s : string) : bool :=
  match s with
  | String c _ => JS.is_upper c || JS.is_lower c
  | EmptyString => false
  end.

Definition hostname (url : string) : option string :=
  match after_scheme url with
  | None => None
  | Some rest =>
      let host := JS.toLowerCase (authority rest) in
      if JS.all_chars host_char host
         && starts_with_letter (List.last (JS.split "." host) "")
         && negb (JS.includes host "xn--")
      then Some host
      else None
  end.

Definition parser : URLParser := hostname.

End PlainURL.

(** An engine that rejects every pattern outside the grammar of [RegExp].
    The one such pattern in the examples is [^[ads.*$], whose character
    class is not closed. *)
Module PlainRegExp.

Definition engine : RegExpEngine := fun _ => None.

End PlainRegExp.

(** A history with three visited pages. *)
Module SampleHistory.

Definition visit (kind : string) : Chrome.VisitItem :=
  {| Chrome.transition := kind |}.

Definition item (u : string) : Chrome.HistoryItem :=
  {| Chrome.id := ""; Chrome.url := u; Chrome.title := None;
     Chrome.lastVisitTime := 0; Chrome.visitCount := 0 |}.

Definition lookup (u : string) : option (list Chrome.VisitItem) :=
  if String.eqb u "https://example.com/" then Some [visit "typed"; visit "link"]
  else if String.eqb u "https://blog.example.com/post" then Some [visit "link"]
  else if String.eqb u "https://news.site.org/" then Some [visit "typed"]
  else Some [].

Definition api : HistoryAPI := lookup.

Definition items : list Chrome.HistoryItem :=
  [item "https://example.com/"; item "https://blog.example.com/post";
   item "https://news.site.org/"].

(** What the statistics hold for [example.com] on these pages. *)
Definition example_com : Stats.DomainData :=
  {| Stats.domain := "example.com"; Stats.visitCount := 2; Stats.urls := None;
     Stats.typedCount := 1; Stats.clickedCount := 2;
     Stats.percentage := JSString "66.7" |}.

(** A feed over these pages: before the first batch, and exhausted. *)
Definition ready : Feed.World :=
  {| Feed.state :=
       {| Feed.currentOffset := 0; Feed.isLoading := false; Feed.hasMore := true;
          Feed.allHistory := items; Feed.filteredCount := 0 |};
     Feed.trace := [] |}.

Definition exhausted : Feed.World :=
  {| Feed.state :=
       {| Feed.currentOffset := 3; Feed.isLoading := false; Feed.hasMore := false;
          Feed.allHistory := items; Feed.filteredCount := 0 |};
     Feed.trace := [] |}.

Definition feed_over (history : list Chrome.HistoryItem) : Feed.World :=
  {| Feed.state :=
       {| Feed.currentOffset := 0; Feed.isLoading := false; Feed.hasMore := true;
          Feed.allHistory := history; Feed.filteredCount := 0 |};
     Feed.trace := [] |}.

(** Five records, three of them of [example.com], and a rule set that
    excludes that domain. *)
Definition visited (u : string) (time : Z) : Chrome.HistoryItem :=
  {| Chrome.id := ""; Chrome.url := u; Chrome.title := None;
     Chrome.lastVisitTime := time; Chrome.visitCount := 0 |}.

Definition five : list Chrome.HistoryItem :=
  [visited "https://example.com/" 10; visited "https://news.site.org/" 50;
   visited "https://example.com/about" 30; visited "https://blog.example.net/" 20;
   visited "https://EXAMPLE.com/contact" 40].

Definition no_example_com : Blacklist.Rules :=
  {| Blacklist.domains := ["example.com"]; Blacklist.patterns := [] |}.

(** A chat store with the transcripts of two pages, the chat of the
    first being open. *)
Definition entry (text : string) : Chat.Entry.t :=
  {| Chat.Entry.messages :=
       [{| Chat.Message.role := "user"; Chat.Message.content := text |}];
     Chat.Entry.content := None |}.

Definition chats : Chat.World :=
  {| Chat.chatState :=
       {| Chat.currentPage := Some (item "https://example.com/");
          Chat.pageContent := None;
          Chat.messages := Chat.Entry.messages (entry "hello");
          Chat.isTyping := false |};
     Chat.chatHistories :=
       <["https://example.com/" := entry "hello"]>
         (<["https://news.site.org/" := entry "summary?"]> ∅);
     Chat.trace := [] |}.

(** A rule set with a suffix rule and a URL pattern; a rule set with a
    domain rule whose regular expression does not compile; the rules of a
    user in the storage, the shipped file, and the instance loaded from
    both. *)
Definition ads_rules : Blacklist.Rules :=
  {| Blacklist.domains := ["example.com"; "*.ads.com"];
     Blacklist.patterns := ["/login"] |}.

Definition broken_rules : Blacklist.Rules :=
  {| Blacklist.domains := ["example.com"; "(ads*"; "site.org"];
     Blacklist.patterns := [""] |}.

Definition user_rules : Blacklist.Rules :=
  {| Blacklist.domains := ["tracker.net"; "example.com"];
     Blacklist.patterns := ["*checkout*"] |}.

Definition shipped : Blacklist.file :=
  Blacklist.Data (Some ["example.com"; "*.ads.com"]) (Some ["/login"]).

Definition blacklist : Blacklist.Instance :=
  Blacklist.load shipped (Blacklist.new (Some user_rules)).

(** A stored configuration without a model, a network that answers every
    request, and the chat of the first page in an open modal. *)
Definition settings : gmap string string :=
  <["llm_api_key" := "secret"]> (<["llm_provider" := "gemini"]> ∅).

Definition network (r : LLMService.request) : Modal.reply :=
  Modal.Resolved "It is an example page.".

Definition open_chat : Modal.World :=
  {| Modal.chat := chats; Modal.modals := 1; Modal.log := [] |}.

(** A feed whose second record has a URL that does not parse. *)
Definition broken_feed : Feed.World :=
  feed_over [item "https://example.com/"; item "not a url"].

End SampleHistory.

(* ===================================================================== *)
(** ** Notions used to state the properties *)
(* ===================================================================== *)

(** [p] occurs in [s]. *)
Definition occurs_in (p s : string) : Prop :=
  exists before after : string, s = before +:+ p +:+ after.

(** The term a rule character stands for once every character but [*] is
    taken literally and [*] is any run of characters: the regular
    expression of a rule is the sequence of the terms of its characters. *)
Definition wild_term (c : ascii) : RegExp.re :=
  if Ascii.eqb c "*" then RegExp.Star RegExp.Dot else RegExp.Chr c.

Definition wild_terms (rule : string) : list RegExp.re :=
  map wild_term (list_ascii_of_string rule).

Definition wild (rule : string) : RegExp.re := RegExp.seq (wild_terms rule).

Definition wild_anchored (rule : string) : RegExp.re :=
  RegExp.seq (RegExp.Bol :: wild_terms rule ++ [RegExp.Eol]).

Definition is_empty (s : string) : bool :=
  match s with
  | EmptyString => true
  | String _ _ => false
  end.

Definition no_line_terminator (s : string) : bool :=
  JS.all_chars (fun c => negb (RegExp.line_terminator c)) s.

(** A rule matches a string when its characters match it one by one, a
    [*] matching any run of characters without a line terminator. *)
Inductive wild_matches : string -> string -> Prop :=
| wild_end : wild_matches "" ""
| wild_char (c : ascii) (rule s : string) :
    c <> "*"%char ->
    wild_matches rule s ->
    wild_matches (String c rule) (String c s)
| wild_star (rule run s : string) :
    no_line_terminator run = true ->
    wild_matches rule s ->
    wild_matches (String "*" rule) (run +:+ s).

(** What the two replacements of [_matchPattern] write for a character of
    the rule. *)
Definition encode_char (c : ascii) : string :=
  if Blacklist.special c then String "\" (String c "")
  else if Ascii.eqb c "*" then ".*"
  else String c "".

Fixpoint encode (rule : string) : string :=
  match rule with
  | EmptyString => EmptyString
  | String c rule' => encode_char c +:+ encode rule'
  end.

(** A domain rule in which [.] and [*] are the only characters with a
    meaning in a regular expression. *)
Definition plain_rule (rule : string) : bool :=
  forallb (fun c => negb (Blacklist.special c) || Ascii.eqb c ".")
    (list_ascii_of_string rule).

(** The last [n] labels of a host name, and its label before the last. *)
Definition last_labels (n : nat) (labels : list string) : list string :=
  rev (firstn n (rev labels)).

Definition second_to_last (labels : list string) : option string :=
  match rev labels with
  | _ :: l :: _ => Some l
  | _ => None
  end.

(** The labels the root domain keeps, as the glossary words it: the last
    three when the label before the last is one of [second_level], the
    last two otherwise. *)
Definition root_labels (second_level labels : list string) : list string :=
  match second_to_last labels with
  | Some l =>
      if bool_decide (l ∈ second_level) then last_labels 3 labels
      else last_labels 2 labels
  | None => last_labels 2 labels
  end.

(** The records of a domain, their distinct URLs in the order of first
    appearance, and the visits the history knows of a URL. *)
Definition in_domain `{URLParser} (d : string) (item : Chrome.HistoryItem) : bool :=
  bool_decide (Stats.getRootDomain (Chrome.url item) = Some d).

Definition records_of `{URLParser} (d : string) (items : list Chrome.HistoryItem)
  : list Chrome.HistoryItem :=
  List.filter (in_domain d) items.

Definition distinct (us : list string) : list string :=
  fold_left (fun seen u => Stats.set_add u seen) us [].

Definition visits_of `{HistoryAPI} (u : string) : list Chrome.VisitItem :=
  default [] (getVisits u).

Definition is_typed (v : Chrome.VisitItem) : bool :=
  String.eqb (Chrome.transition v) "typed".

Definition domain_visits `{URLParser} `{HistoryAPI}
    (d : string) (items : list Chrome.HistoryItem) : list Chrome.VisitItem :=
  flat_map visits_of (distinct (map Chrome.url (records_of d items))).

(** The domain under which the grouping counts a record, if any, the
    domains of a list of records in the order of first appearance, and the
    object the grouping holds for a domain once the records are read. *)
Definition grouped_domain `{URLParser} (item : Chrome.HistoryItem) : option string :=
  match Stats.getRootDomain (Chrome.url item) with
  | Some d => if String.eqb d "" then None else Some d
  | None => None
  end.

Definition domains_of `{URLParser} (items : list Chrome.HistoryItem) : list string :=
  distinct (omap grouped_domain items).

Definition grouped `{URLParser} (d : string) (items : list Chrome.HistoryItem)
  : Stats.DomainData :=
  {| Stats.domain := d;
     Stats.visitCount := length (records_of d items);
     Stats.urls := Some (distinct (map Chrome.url (records_of d items)));
     Stats.typedCount := 0;
     Stats.clickedCount := 0;
     Stats.percentage := JSUndefined |}.

(** A record that the rule set excludes from the feed, and the order of
    the feed: no older than the next. *)
Definition blacklisted `{RegExpEngine} `{URLParser} (rules : Blacklist.Rules)
    (item : Chrome.HistoryItem) : bool :=
  match Blacklist.matches rules (Chrome.url item) with
  | Ok true => true
  | _ => false
  end.

Definition most_recent_first (a b : Chrome.HistoryItem) : Prop :=
  (Chrome.lastVisitTime b <= Chrome.lastVisitTime a)%Z.

(** The feed between two calls: nothing is loading, and the cards
    rendered so far are those of the first [currentOffset] records, in
    order. *)
Definition served (w : Feed.World) : Prop :=
  Feed.isLoading (Feed.state w) = false
  /\ Feed.currentOffset (Feed.state w) <= length (Feed.allHistory (Feed.state w))
  /\ map Chrome.url (Feed.rendered (Feed.trace w))
     = map Chrome.url
         (firstn (Feed.currentOffset (Feed.state w)) (Feed.allHistory (Feed.state w))).

(** The order of the statistics: no fewer visits than the next. *)
Definition more_visits (a b : Stats.DomainData) : Prop :=
  Stats.visitCount b <= Stats.visitCount a.

Definition is_number (v : js_value) : Prop :=
  exists x : float, v = JSNumber x.

(** The rules in the storage of an instance, and an instance that holds
    every rule of its storage. *)
Definition stored_rules (b : Blacklist.Instance) : Blacklist.Rules :=
  default Blacklist.no_rules (Blacklist.storage b).

Definition holds_stored (b : Blacklist.Instance) : Prop :=
  (forall d, In d (Blacklist.domains (stored_rules b)) ->
     In d (Blacklist.domains (Blacklist.rules b)))
  /\ (forall p, In p (Blacklist.patterns (stored_rules b)) ->
        In p (Blacklist.patterns (Blacklist.rules b))).

(** The calls of an instance. *)
Inductive call : Type :=
| Load (f : Blacklist.file)
| AddDomain (domain : string)
| AddPattern (pattern : string)
| RemoveDomain (domain : string)
| RemovePattern (pattern : string)
| ClearStorage (f : Blacklist.file).

Definition perform (b : Blacklist.Instance) (c : call) : Blacklist.Instance :=
  match c with
  | Load f => Blacklist.load f b
  | AddDomain d => Blacklist.addDomain d b
  | AddPattern p => Blacklist.addPattern p b
  | RemoveDomain d => Blacklist.removeDomain d b
  | RemovePattern p => Blacklist.removePattern p b
  | ClearStorage f => Blacklist.clearStorage f b
  end.

(** What a property reads after [Config.save]: the value written, the
    default in place of an empty one, and what it read before when none
    was written. *)
Definition read_back (written before : option string) (d : string) : option string :=
  match written with
  | Some v => Some (JS.or_else (Some v) d)
  | None => before
  end.

Definition config_keys : list string :=
  [Config.STORAGE_KEYS.API_KEY; Config.STORAGE_KEYS.PROVIDER;
   Config.STORAGE_KEYS.ENDPOINT; Config.STORAGE_KEYS.MODEL].

(** The property [key] of an object. *)
Definition property (key : string) (v : LLMService.value) : option LLMService.value :=
  match v with
  | LLMService.Obj properties =>
      option_map snd (List.find (fun kv => String.eqb (fst kv) key) properties)
  | _ => None
  end.

Definition hosted (p : option string) : Prop :=
  p = Some "openai" \/ p = Some "anthropic" \/ p = Some "gemini".

(** The model that the stored configuration names. *)
Definition stored_model (storage : gmap string string) : string :=
  JS.or_else (storage !! "llm_model") "".

(** What the assistant answers to [message] about [context], when it
    does: the stored configuration makes the service send a request and
    the network resolves it. *)
Definition answered (storage : gmap string string)
    (network : LLMService.request -> Modal.reply)
    (message : string) (context : option string) : option string :=
  match LLMService.sendMessage (Config.load storage) message context with
  | LLMService.Fetch r =>
      match network r with
      | Modal.Resolved response => Some response
      | Modal.Rejected _ => None
      end
  | LLMService.Error _ => None
  end.

Definition said (role content : string) : Chat.Message.t :=
  {| Chat.Message.role := role; Chat.Message.content := content |}.

(** The entry that [saveChatHistory] writes for a state. *)
Definition entry_of (s : Chat.ChatState) : Chat.Entry.t :=
  {| Chat.Entry.messages := Chat.messages s; Chat.Entry.content := Chat.pageContent s |}.

(** A state with one more message, with the typing flag set, and the
    store once the state is saved. *)
Definition with_message (msg : Chat.Message.t) (s : Chat.ChatState) : Chat.ChatState :=
  {| Chat.currentPage := Chat.currentPage s;
     Chat.pageContent := Chat.pageContent s;
     Chat.messages := Chat.messages s ++ [msg];
     Chat.isTyping := Chat.isTyping s |}.

Definition typing (b : bool) (s : Chat.ChatState) : Chat.ChatState :=
  {| Chat.currentPage := Chat.currentPage s;
     Chat.pageContent := Chat.pageContent s;
     Chat.messages := Chat.messages s;
     Chat.isTyping := b |}.

Definition saved (s : Chat.ChatState) (histories : gmap string Chat.Entry.t)
  : gmap string Chat.Entry.t :=
  match Chat.currentPage s with
  | Some page => <[Chrome.url page := entry_of s]> histories
  | None => histories
  end.

Definition histories (w : Modal.World) : gmap string Chat.Entry.t :=
  Chat.chatHistories (Modal.chat w).

(** The state that [openChatModal] sets for an item, from the entry of
    its URL. *)
Definition opened (item : Chrome.HistoryItem) (e : option Chat.Entry.t) : Chat.ChatState :=
  {| Chat.currentPage := Some item;
     Chat.pageContent :=
       match e with
       | Some e => if JS.truthy (Chat.Entry.content e) then Chat.Entry.content e else None
       | None => None
       end;
     Chat.messages := default [] (Chat.Entry.messages <$> e);
     Chat.isTyping := false |}.

(** The words of a text: its longest runs of characters that are not
    white space, in order. *)
Fixpoint words (s : string) : list string :=
  match s with
  | EmptyString => []
  | String c s' =>
      if JS.is_space c then words s'
      else
        match s' with
        | EmptyString => [String c ""]
        | String d _ =>
            if JS.is_space d then String c "" :: words s'
            else
              match words s' with
              | word :: rest => String c word :: rest
              | [] => [String c ""]
              end
        end
  end.

(** Milliseconds. *)
Definition minute : Z := 60000.
Definition hour : Z := 3600000.
Definition day : Z := 86400000.

(** A number of units of time in words: [one] for the number 1, and
    otherwise the number in decimal digits followed by [many]. *)
Definition units_ago (n : Z) (one many : string) : string :=
  if decide (n = 1%Z) then one else Number.decimal n +:+ many.

(** The records of a domain that the rule set does not exclude. *)
Definition counted `{RegExpEngine} `{URLParser} (rules : Blacklist.Rules) (d : string)
    (items : list Chrome.HistoryItem) : list Chrome.HistoryItem :=
  List.filter (fun item => negb (blacklisted rules item) && in_domain d item) items.

(** Case analysis on the eight bits of a character. *)
Ltac each_char c := destruct c as [[] [] [] [] [] [] [] []].

(* ===================================================================== *)
(** * Properties *)
(* ===================================================================== *)

(** ** Strings *)

Lemma startsWith_spec (s p : string) :
  JS.startsWith s p = true <-> exists rest, s = p +:+ rest.
Proof.
  revert s. induction p as [|a p IH]; intros s; simpl.
  - split; [intros _; by exists s | by destruct s].
  - destruct s as [|b s]; simpl.
    + split; [done | intros [rest Hr]; discriminate].
    + rewrite andb_true_iff, Ascii.eqb_eq, IH. split.
      * intros [-> [rest ->]]. by exists rest.
      * intros [rest Hr]. injection Hr as -> ->. eauto.
Qed.

Lemma includes_spec (s p : string) :
  JS.includes s p = true <-> occurs_in p s.
Proof.
  unfold occurs_in. induction s as [|c s IH].
  - change (JS.includes "" p) with (JS.startsWith "" p || false).
    rewrite orb_false_r, startsWith_spec. split.
    + intros [rest Hr]. by exists EmptyString, rest.
    + intros [[|b before] [after Hr]]; [by exists after | discriminate].
  - change (JS.includes (String c s) p)
      with (JS.startsWith (String c s) p || JS.includes s p).
    rewrite orb_true_iff, startsWith_spec, IH. split.
    + intros [[rest Hr] | (before & after & ->)].
      * by exists EmptyString, rest.
      * by exists (String c before), after.
    + intros [[|b before] [after Hr]].
      * left. by exists after.
      * right. injection Hr as -> ->. eauto.
Qed.

Lemma includes_empty (s : string) : JS.includes s EmptyString = true.
Proof. destruct s; reflexivity. Qed.

Lemma append_cons (x : ascii) (a b : string) :
  String x a +:+ b = String x (a +:+ b).
Proof. reflexivity. Qed.

Lemma append_empty_l (a : string) : "" +:+ a = a.
Proof. reflexivity. Qed.

Lemma append_assoc (a b c : string) : (a +:+ b) +:+ c = a +:+ (b +:+ c).
Proof. induction a as [|x a IH]; [done | by rewrite !append_cons, IH]. Qed.

Lemma append_empty_r (a : string) : a +:+ "" = a.
Proof. induction a as [|x a IH]; [done | by rewrite append_cons, IH]. Qed.

Lemma replace_chars_app cls f (a b : string) :
  JS.replace_chars cls f (a +:+ b)
  = JS.replace_chars cls f a +:+ JS.replace_chars cls f b.
Proof.
  induction a as [|x a IH]; [done |].
  change (JS.replace_chars cls f (String x a +:+ b))
    with ((if cls x then f x else String x "") +:+ JS.replace_chars cls f (a +:+ b)).
  rewrite IH. symmetry. apply append_assoc.
Qed.

(** ** Reading an escaped rule *)

Lemma expand_escaped_char (c : ascii) :
  Blacklist.expandStars
    (if Blacklist.special c then String "\" (String c "") else String c "")
  = encode_char c.
Proof. each_char c; reflexivity. Qed.

Lemma expand_escapeSpecial (rule : string) :
  Blacklist.expandStars (Blacklist.escapeSpecial rule) = encode rule.
Proof.
  induction rule as [|c rule IH]; [done |].
  change (Blacklist.escapeSpecial (String c rule))
    with ((if Blacklist.special c then String "\" (String c "") else String c "")
          +:+ Blacklist.escapeSpecial rule).
  unfold Blacklist.expandStars in *.
  rewrite replace_chars_app, IH.
  change (encode (String c rule)) with (encode_char c +:+ encode rule).
  f_equal. apply expand_escaped_char.
Qed.

Lemma expand_escaped_dot (c : ascii) :
  negb (Blacklist.special c) || Ascii.eqb c "." = true ->
  Blacklist.expandStars (if Ascii.eqb "." c then "\." else String c "")
  = encode_char c.
Proof. each_char c; first [reflexivity | discriminate]. Qed.

Lemma expand_escapeDots (rule : string) :
  plain_rule rule = true ->
  Blacklist.expandStars (Blacklist.escapeDots rule) = encode rule.
Proof.
  unfold plain_rule. induction rule as [|c rule IH]; [done |].
  cbn [list_ascii_of_string forallb]. rewrite andb_true_iff. intros [Hc Hrule].
  change (Blacklist.escapeDots (String c rule))
    with ((if Ascii.eqb "." c then "\." else String c "")
          +:+ Blacklist.escapeDots rule).
  unfold Blacklist.expandStars in *.
  rewrite replace_chars_app, IH by done.
  change (encode (String c rule)) with (encode_char c +:+ encode rule).
  f_equal. by apply expand_escaped_dot.
Qed.

Lemma feed_app (st : RegExp.pstate) (a b : string) :
  RegExp.feed st (a +:+ b) = RegExp.feed (RegExp.feed st a) b.
Proof. revert st. induction a as [|x a IH]; intros st; simpl; [done | apply IH]. Qed.

Lemma feed_encode_char outer cur (c : ascii) :
  exists t,
    RegExp.feed (RegExp.Reading outer cur false) (encode_char c)
    = RegExp.Reading outer
        (RegExp.Frame (RegExp.alts cur) (wild_term c :: RegExp.terms cur) t) false.
Proof. each_char c; eexists; reflexivity. Qed.

Lemma feed_encode outer cur (rule : string) :
  exists t,
    RegExp.feed (RegExp.Reading outer cur false) (encode rule)
    = RegExp.Reading outer
        (RegExp.Frame (RegExp.alts cur)
           (rev (wild_terms rule) ++ RegExp.terms cur) t) false.
Proof.
  revert cur. induction rule as [|c rule IH]; intros cur.
  - exists (RegExp.last cur). by destruct cur.
  - change (encode (String c rule)) with (encode_char c +:+ encode rule).
    rewrite feed_app.
    destruct (feed_encode_char outer cur c) as [t ->].
    destruct (IH (RegExp.Frame (RegExp.alts cur) (wild_term c :: RegExp.terms cur) t))
      as [t' ->].
    exists t'. unfold wild_terms. cbn [list_ascii_of_string map rev RegExp.alts RegExp.terms].
    by rewrite <- app_assoc.
Qed.

(** The escaped form of a URL pattern is always a regular expression: the
    sequence of the terms of the rule. *)
Lemma compile_pattern (rule : string) :
  RegExp.compile (Blacklist.expandStars (Blacklist.escapeSpecial rule))
  = RegExp.Regex (wild rule).
Proof.
  rewrite expand_escapeSpecial. unfold RegExp.compile, RegExp.start.
  destruct (feed_encode [] (RegExp.frame0 RegExp.TFixed) rule) as [t ->].
  unfold RegExp.finish, RegExp.close, wild.
  cbn [RegExp.alts RegExp.terms RegExp.frame0 app RegExp.alt].
  by rewrite app_nil_r, rev_involutive.
Qed.

(** So is the anchored form of a domain rule in which [.] and [*] are the
    only characters with a meaning. *)
Lemma compile_domain (rule : string) :
  plain_rule rule = true ->
  RegExp.compile ("^" +:+ Blacklist.expandStars (Blacklist.escapeDots rule) +:+ "$")
  = RegExp.Regex (wild_anchored rule).
Proof.
  intros Hplain. rewrite expand_escapeDots by done.
  unfold RegExp.compile, RegExp.start.
  change (RegExp.feed _ ("^" +:+ encode rule +:+ "$"))
    with (RegExp.feed
            (RegExp.Reading [] (RegExp.Frame [] [RegExp.Bol] RegExp.TFixed) false)
            (encode rule +:+ "$")).
  rewrite feed_app.
  destruct (feed_encode [] (RegExp.Frame [] [RegExp.Bol] RegExp.TFixed) rule) as [t ->].
  cbn [RegExp.alts RegExp.terms]. unfold wild_anchored.
  change (RegExp.feed ?st "$") with (RegExp.step st "$").
  unfold RegExp.step, RegExp.push, RegExp.finish, RegExp.close.
  cbn [RegExp.alts RegExp.terms app RegExp.alt Ascii.eqb Bool.eqb].
  cbn [rev]. rewrite rev_app_distr, rev_involutive.
  reflexivity.
Qed.

(** ** What the regular expression of a rule matches *)

Lemma is_empty_app (a b : string) :
  is_empty (a +:+ b) = is_empty a && is_empty b.
Proof. by destruct a. Qed.

Lemma is_empty_true (a : string) : is_empty a = true -> a = "".
Proof. by destruct a. Qed.

Lemma append_eq_empty (a b : string) : a +:+ b = "" -> a = "" /\ b = "".
Proof. destruct a; [done | discriminate]. Qed.

Lemma m_seq_cons t ts k bos s :
  RegExp.m (RegExp.seq (t :: ts)) k bos s
  = RegExp.m t (RegExp.m (RegExp.seq ts) k) bos s.
Proof. destruct ts; reflexivity. Qed.

Lemma iterate_dot n k bos s :
  String.length s <= n ->
  RegExp.iterate (RegExp.m RegExp.Dot) k n bos s = true <->
  exists run rest,
    s = run +:+ rest /\ no_line_terminator run = true
    /\ k (bos && is_empty run) rest = true.
Proof.
  revert bos s. induction n as [|n IH]; intros bos s Hlen.
  - destruct s; [| simpl in Hlen; lia]. simpl. split.
    + intros Hk. exists "", "". by rewrite andb_true_r.
    + intros (run & rest & Hs & _ & Hk). symmetry in Hs.
      apply append_eq_empty in Hs as [-> ->]. by rewrite andb_true_r in Hk.
  - destruct s as [|d s].
    + simpl. split.
      * intros Hk. exists "", "". by rewrite andb_true_r.
      * intros (run & rest & Hs & _ & Hk). symmetry in Hs.
        apply append_eq_empty in Hs as [-> ->]. by rewrite andb_true_r in Hk.
    + cbn [RegExp.iterate RegExp.m]. simpl in Hlen.
      assert (Hlt : (String.length s <? String.length (String d s))%nat = true)
        by (apply Nat.ltb_lt; simpl; lia).
      rewrite Hlt, andb_true_l, orb_true_iff, andb_true_iff, IH by lia. split.
      * intros [[Hd (run & rest & -> & Hrun & Hk)] | Hk].
        -- exists (String d run), rest. split; [done |]. split.
           ++ unfold no_line_terminator in *. simpl. by rewrite Hd.
           ++ by rewrite andb_false_r.
        -- exists "", (String d s). by rewrite andb_true_r.
      * intros ([|d' run] & rest & Hs & Hrun & Hk).
        -- right. rewrite append_empty_l in Hs. subst rest. by rewrite andb_true_r in Hk.
        -- left. rewrite append_cons in Hs. injection Hs as <- ->.
           unfold no_line_terminator in *. simpl in Hrun.
           apply andb_true_iff in Hrun as [Hd Hrun]. split; [done |].
           exists run, rest. by rewrite andb_false_r in Hk.
Qed.

Lemma wild_terms_cons c rule :
  wild_terms (String c rule) = wild_term c :: wild_terms rule.
Proof. reflexivity. Qed.

Lemma m_wild_terms rule tail k bos s :
  RegExp.m (RegExp.seq (wild_terms rule ++ tail)) k bos s = true <->
  exists mid rest,
    s = mid +:+ rest /\ wild_matches rule mid
    /\ RegExp.m (RegExp.seq tail) k (bos && is_empty mid) rest = true.
Proof.
  revert bos s. induction rule as [|c rule IH]; intros bos s.
  - change (wild_terms "" ++ tail) with tail. split.
    + intros Hm. exists "", s. rewrite andb_true_r. by repeat split; [constructor |].
    + intros (mid & rest & -> & Hw & Hm). inversion Hw; subst.
      by rewrite andb_true_r in Hm.
  - rewrite wild_terms_cons, <- app_comm_cons, m_seq_cons. unfold wild_term.
    destruct (Ascii.eqb c "*") eqn:Hc.
    + apply Ascii.eqb_eq in Hc as ->.
      change (RegExp.m (RegExp.Star RegExp.Dot) ?k' bos s)
        with (RegExp.iterate (RegExp.m RegExp.Dot) k' (String.length s) bos s).
      rewrite iterate_dot by done. split.
      * intros (run & rest1 & -> & Hrun & Hk).
        apply IH in Hk as (mid & rest & -> & Hw & Hm).
        exists (run +:+ mid), rest. rewrite append_assoc, is_empty_app, andb_assoc.
        by repeat split; [constructor |].
      * intros (mid & rest & -> & Hw & Hm). inversion Hw as [| |rule' run mid' Hrun Hw']; subst; [done |].
        exists run, (mid' +:+ rest). rewrite append_assoc. repeat split; [done |].
        apply IH. exists mid', rest. by rewrite is_empty_app, andb_assoc in Hm.
    + apply Ascii.eqb_neq in Hc. cbn [RegExp.m]. split.
      * destruct s as [|d s]; [done |].
        rewrite andb_true_iff, Ascii.eqb_eq. intros [<- Hk].
        apply IH in Hk as (mid & rest & -> & Hw & Hm).
        exists (String c mid), rest. rewrite andb_false_r.
        by repeat split; [constructor |].
      * intros (mid & rest & -> & Hw & Hm). inversion Hw as [|c' rule' mid' _ Hw'|]; subst; [|done].
        rewrite append_cons, andb_true_iff, Ascii.eqb_eq. split; [done |].
        apply IH. exists mid', rest. by rewrite andb_false_r in Hm.
Qed.

Lemma search_spec r bos s :
  RegExp.search r bos s = true <->
  exists before rest,
    s = before +:+ rest
    /\ RegExp.m r (fun _ _ => true) (bos && is_empty before) rest = true.
Proof.
  revert bos. induction s as [|c s IH]; intros bos.
  - cbn [RegExp.search]. rewrite orb_false_r. split.
    + intros Hm. exists "", "". by rewrite andb_true_r.
    + intros (before & rest & Hs & Hm). symmetry in Hs.
      apply append_eq_empty in Hs as [-> ->]. by rewrite andb_true_r in Hm.
  - cbn [RegExp.search]. rewrite orb_true_iff, IH. split.
    + intros [Hm | (before & rest & -> & Hm)].
      * exists "", (String c s). by rewrite andb_true_r.
      * exists (String c before), rest. by rewrite andb_false_r.
    + intros ([|c' before] & rest & Hs & Hm).
      * left. rewrite append_empty_l in Hs. subst rest. by rewrite andb_true_r in Hm.
      * right. rewrite append_cons in Hs. injection Hs as <- ->.
        exists before, rest. by rewrite andb_false_r in Hm.
Qed.

(** The regular expression of a URL pattern matches somewhere in [s]. *)
Lemma search_wild rule s :
  RegExp.search (wild rule) true s = true <->
  exists before mid after,
    s = before +:+ mid +:+ after /\ wild_matches rule mid.
Proof.
  unfold wild. rewrite <- (app_nil_r (wild_terms rule)), search_spec. split.
  - intros (before & rest & -> & Hm).
    apply m_wild_terms in Hm as (mid & after & -> & Hw & _). eauto.
  - intros (before & mid & after & -> & Hw). exists before, (mid +:+ after).
    split; [done |]. apply m_wild_terms. exists mid, after. eauto.
Qed.

(** The anchored regular expression of a domain rule matches all of [s]. *)
Lemma search_wild_anchored rule s :
  RegExp.search (wild_anchored rule) true s = true <-> wild_matches rule s.
Proof.
  unfold wild_anchored. rewrite search_spec. split.
  - intros (before & rest & -> & Hm). rewrite m_seq_cons in Hm.
    cbn [RegExp.m] in Hm. apply andb_true_iff in Hm as [Hb Hm].
    apply is_empty_true in Hb as ->.
    apply m_wild_terms in Hm as (mid & after & -> & Hw & Hm).
    destruct after; [| done]. simpl. by rewrite append_empty_r.
  - intros Hw. exists "", s. split; [done |]. rewrite m_seq_cons.
    cbn [RegExp.m andb is_empty]. apply m_wild_terms.
    exists s, "". by rewrite append_empty_r.
Qed.

(** ** The rule matcher *)

Lemma lower_char_star (c : ascii) :
  Ascii.eqb "*" (JS.lower_char c) = Ascii.eqb "*" c.
Proof. each_char c; reflexivity. Qed.

Lemma includes_star_lower (rule : string) :
  JS.includes (JS.toLowerCase rule) "*" = JS.includes rule "*".
Proof.
  induction rule as [|c rule IH]; [done |].
  change (JS.includes (JS.toLowerCase (String c rule)) "*")
    with (Ascii.eqb "*" (JS.lower_char c) && true
          || JS.includes (JS.toLowerCase rule) "*").
  change (JS.includes (String c rule) "*")
    with (Ascii.eqb "*" c && true || JS.includes rule "*").
  by rewrite IH, lower_char_star.
Qed.

Lemma wild_matches_refl (rule : string) : wild_matches rule rule.
Proof.
  induction rule as [|c rule IH]; [constructor |].
  destruct (Ascii.eqb c "*") eqn:Hc.
  - apply Ascii.eqb_eq in Hc as ->.
    by apply (wild_star rule "*" rule).
  - apply Ascii.eqb_neq in Hc. by constructor.
Qed.

Lemma matchPattern_wild `{RegExpEngine} (url pattern : string) :
  JS.includes pattern "*" = true ->
  Blacklist._matchPattern url pattern = Ok (RegExp.search (wild pattern) true url).
Proof.
  intros Hstar. unfold Blacklist._matchPattern, RegExp.test.
  by rewrite Hstar, compile_pattern.
Qed.

Lemma matchPattern_returns `{RegExpEngine} (url pattern : string) :
  exists b, Blacklist._matchPattern url pattern = Ok b.
Proof.
  destruct (JS.includes pattern "*") eqn:Hstar.
  - rewrite matchPattern_wild by done. eauto.
  - unfold Blacklist._matchPattern. rewrite Hstar. simpl. eauto.
Qed.

Lemma returns_or_throws {A : Type} (r : result A) :
  r <> Throws -> exists a, r = Ok a.
Proof. destruct r; [eauto | done]. Qed.

Lemma for_some_returns {A : Type} (test : A -> result bool) (xs : list A) :
  (forall x, In x xs -> exists b, test x = Ok b) ->
  exists b, for_some test xs = Ok b.
Proof.
  induction xs as [|x xs IH]; intros Hall; simpl; [eauto |].
  destruct (Hall x) as [[] ->]; [by left | simpl; eauto |].
  simpl. apply IH. intros y Hy. apply Hall. by right.
Qed.

Lemma for_some_found {A : Type} (test : A -> result bool) (xs : list A) (x : A) :
  (forall y, In y xs -> exists b, test y = Ok b) ->
  In x xs -> test x = Ok true ->
  for_some test xs = Ok true.
Proof.
  induction xs as [|y xs IH]; intros Hall Hin Hx; [done |]. simpl.
  destruct (Hall y) as [[] Hy]; [by left | by rewrite Hy |].
  rewrite Hy. simpl. destruct Hin as [-> | Hin]; [congruence |].
  apply IH; [| done | done]. intros z Hz. apply Hall. by right.
Qed.

(** C2.  Whatever the rule set, [matches] answers [false] for a string that
    does not parse as a URL: the exception of the parser is caught, so the
    call neither fails nor reports the string as blacklisted. *)
Theorem matches_unparsable `{RegExpEngine} `{URLParser} (rules : Blacklist.Rules) (url : string) :
  url_hostname url = None ->
  Blacklist.matches rules url = Ok false.
Proof. intros Hparse. unfold Blacklist.matches. by rewrite Hparse. Qed.

Lemma matches_unparsable_witness :
  PlainURL.hostname "not a url" = None
  /\ @Blacklist.matches PlainRegExp.engine PlainURL.parser
       {| Blacklist.domains := ["example.com"; "*.ads.com"];
          Blacklist.patterns := ["/login"] |}
       "not a url" = Ok false.
Proof.
  split; [reflexivity |].
  apply (@matches_unparsable PlainRegExp.engine PlainURL.parser). reflexivity.
Defined.

(** C3, as the code has it.  [matches] compares the host name and the
    rule in lower case.  A rule without [*] matches exactly when the two
    are equal.  A rule with [*] matches exactly when the two are equal or
    the anchored regular expression written from the rule (dots escaped,
    [*] expanded) matches the host name; when [.] and [*] are the only
    characters of the rule with a meaning in a regular expression, that is
    exactly when the rule, [*] standing for any run of characters, matches
    the whole host name.  The rule [*.ads.com] matches [x.ads.com] and
    [a.b.ads.com], not [ads.com] and not [badsads.com]. *)
Theorem domain_rule_matching `{RegExpEngine} (hostname rule : string) :
  (JS.includes rule "*" = false ->
   (Blacklist._matchDomain (JS.toLowerCase hostname) (JS.toLowerCase rule) = Ok true
    <-> JS.toLowerCase hostname = JS.toLowerCase rule))
  /\ (JS.includes rule "*" = true ->
      (Blacklist._matchDomain (JS.toLowerCase hostname) (JS.toLowerCase rule) = Ok true
       <-> JS.toLowerCase hostname = JS.toLowerCase rule
           \/ RegExp.test
                ("^" +:+ Blacklist.expandStars (Blacklist.escapeDots (JS.toLowerCase rule))
                 +:+ "$")
                (JS.toLowerCase hostname) = Ok true))
  /\ (JS.includes rule "*" = true ->
      plain_rule (JS.toLowerCase rule) = true ->
      (Blacklist._matchDomain (JS.toLowerCase hostname) (JS.toLowerCase rule) = Ok true
       <-> wild_matches (JS.toLowerCase rule) (JS.toLowerCase hostname)))
  /\ Blacklist._matchDomain "x.ads.com" "*.ads.com" = Ok true
  /\ Blacklist._matchDomain "a.b.ads.com" "*.ads.com" = Ok true
  /\ Blacklist._matchDomain "ads.com" "*.ads.com" = Ok false
  /\ Blacklist._matchDomain "badsads.com" "*.ads.com" = Ok false.
Proof.
  set (h := JS.toLowerCase hostname). set (p := JS.toLowerCase rule).
  assert (Hp : JS.includes p "*" = JS.includes rule "*")
    by apply includes_star_lower.
  split; [| split; [| split; [| by repeat split; vm_compute]]];
    unfold Blacklist._matchDomain; intros Hstar; rewrite Hp, Hstar.
  - destruct (String.eqb_spec h p) as [Heq | Hne]; [done |].
    split; [intros [=] | done].
  - destruct (String.eqb_spec h p) as [Heq | Hne]; [by split; [left |] |].
    split; [by right | by intros [? | ?]].
  - intros Hplain. destruct (String.eqb_spec h p) as [Heq | Hne].
    + split; [| done]. intros _. rewrite Heq. apply wild_matches_refl.
    + unfold RegExp.test. rewrite compile_domain by done. split.
      * intros [= Hs]. by apply search_wild_anchored.
      * intros Hw. f_equal. by apply search_wild_anchored.
Qed.

Lemma domain_rule_matching_witness :
  (@Blacklist._matchDomain PlainRegExp.engine (JS.toLowerCase "Example.COM")
       (JS.toLowerCase "example.com") = Ok true
   <-> JS.toLowerCase "Example.COM" = JS.toLowerCase "example.com")
  /\ (@Blacklist._matchDomain PlainRegExp.engine (JS.toLowerCase "WWW.Facebook.com")
       (JS.toLowerCase "*facebook*") = Ok true
      <-> wild_matches (JS.toLowerCase "*facebook*") (JS.toLowerCase "WWW.Facebook.com")).
Proof.
  split.
  - apply (@domain_rule_matching PlainRegExp.engine "Example.COM" "example.com"). reflexivity.
  - apply (@domain_rule_matching PlainRegExp.engine "WWW.Facebook.com" "*facebook*"); reflexivity.
Defined.

(** C3 as it is stated fails: a rule with [*] that is equal to the host
    name matches by the first test of [_matchDomain], whatever its regular
    expression says.  The rule [a$*] matches the host name [a$*], which
    its regular expression [^a$.*$] does not match. *)
Lemma domain_rule_equal_to_hostname :
  JS.includes "a$*" "*" = true
  /\ @Blacklist._matchDomain PlainRegExp.engine (JS.toLowerCase "a$*")
       (JS.toLowerCase "a$*") = Ok true
  /\ @RegExp.test PlainRegExp.engine
       ("^" +:+ Blacklist.expandStars (Blacklist.escapeDots (JS.toLowerCase "a$*")) +:+ "$")
       (JS.toLowerCase "a$*") = Ok false
  /\ ~ (forall (engine : RegExpEngine) (hostname rule : string),
          JS.includes rule "*" = true ->
          (Blacklist._matchDomain (JS.toLowerCase hostname) (JS.toLowerCase rule) = Ok true
           <-> RegExp.test
                 ("^" +:+ Blacklist.expandStars (Blacklist.escapeDots (JS.toLowerCase rule))
                  +:+ "$")
                 (JS.toLowerCase hostname) = Ok true)).
Proof.
  repeat split; try reflexivity.
  intros Hclaim. specialize (Hclaim PlainRegExp.engine "a$*" "a$*" eq_refl) as [Hto _].
  specialize (Hto eq_refl). vm_compute in Hto. discriminate.
Qed.

(** C4.  [matches] calls [_matchPattern] with the URL and the rule in lower
    case.  A rule without [*] matches exactly when it occurs in the URL.  A
    rule with [*] is tested by the regular expression written from it
    (every character with a meaning but [*] escaped, [*] expanded), which
    always compiles and is not anchored: the rule matches exactly when
    some part of the URL is matched by the rule, [*] standing for any run
    of characters.  The rule [/login] matches
    [https://site.com/app/login?x=1] and not [https://site.com/app/logout]. *)
Theorem url_pattern_matching `{RegExpEngine} (url pattern : string) :
  (JS.includes pattern "*" = false ->
   (Blacklist._matchPattern (JS.toLowerCase url) pattern = Ok true
    <-> occurs_in pattern (JS.toLowerCase url)))
  /\ (JS.includes pattern "*" = true ->
      Blacklist._matchPattern (JS.toLowerCase url) pattern
      = RegExp.test (Blacklist.expandStars (Blacklist.escapeSpecial pattern))
          (JS.toLowerCase url)
      /\ RegExp.compile (Blacklist.expandStars (Blacklist.escapeSpecial pattern))
         = RegExp.Regex (wild pattern)
      /\ (Blacklist._matchPattern (JS.toLowerCase url) pattern = Ok true
          <-> exists before mid after,
                JS.toLowerCase url = before +:+ mid +:+ after
                /\ wild_matches pattern mid))
  /\ Blacklist._matchPattern (JS.toLowerCase "https://site.com/app/login?x=1") "/login"
     = Ok true
  /\ Blacklist._matchPattern (JS.toLowerCase "https://site.com/app/logout") "/login"
     = Ok false.
Proof.
  split; [| split; [| by split; vm_compute]]; intros Hstar.
  - unfold Blacklist._matchPattern. rewrite Hstar. cbn [negb].
    rewrite <- includes_spec. split; [by intros [= ->] | by intros ->].
  - split; [by unfold Blacklist._matchPattern; rewrite Hstar |].
    split; [apply compile_pattern |].
    rewrite matchPattern_wild by done. rewrite <- search_wild.
    split; [by intros [= ->] | by intros ->].
Qed.

Lemma url_pattern_matching_witness :
  (@Blacklist._matchPattern PlainRegExp.engine (JS.toLowerCase "https://Site.com/Checkout?id=7")
       "/checkout" = Ok true
   <-> occurs_in "/checkout" (JS.toLowerCase "https://Site.com/Checkout?id=7"))
  /\ (@Blacklist._matchPattern PlainRegExp.engine (JS.toLowerCase "https://a.com/?utm_source=x")
       "*?utm_source=*" = Ok true
      <-> exists before mid after,
            JS.toLowerCase "https://a.com/?utm_source=x" = before +:+ mid +:+ after
            /\ wild_matches "*?utm_source=*" mid).
Proof.
  split.
  - apply (@url_pattern_matching PlainRegExp.engine "https://Site.com/Checkout?id=7" "/checkout").
    reflexivity.
  - apply (@url_pattern_matching PlainRegExp.engine "https://a.com/?utm_source=x" "*?utm_source=*").
    reflexivity.
Defined.

(** C10, as the code has it.  When the empty string is among the URL
    patterns, [matches] answers [true] for every URL that parses, provided
    that no domain rule makes [_matchDomain] fail for the host name: the
    domain rules are tried first, and a rule whose regular expression does
    not compile makes [matches] answer [false]. *)
Theorem empty_pattern_matches `{RegExpEngine} `{URLParser}
    (rules : Blacklist.Rules) (url host : string) :
  In "" (Blacklist.patterns rules) ->
  url_hostname url = Some host ->
  (forall d, In d (Blacklist.domains rules) ->
     Blacklist._matchDomain (JS.toLowerCase host) (JS.toLowerCase d) <> Throws) ->
  Blacklist.matches rules url = Ok true.
Proof.
  intros Hempty Hparse Hdomains. unfold Blacklist.matches. rewrite Hparse.
  destruct (for_some_returns
              (fun d => Blacklist._matchDomain (JS.toLowerCase host) (JS.toLowerCase d))
              (Blacklist.domains rules)) as [[] ->]; [| done |].
  { intros d Hd. by apply returns_or_throws, Hdomains. }
  cbn [rbind].
  rewrite (for_some_found
             (fun p => Blacklist._matchPattern (JS.toLowerCase url) (JS.toLowerCase p))
             (Blacklist.patterns rules) ""); [done | | done |].
  - intros p _. apply matchPattern_returns.
  - unfold Blacklist._matchPattern. simpl. by rewrite includes_empty.
Qed.

Lemma empty_pattern_matches_witness :
  @Blacklist.matches PlainRegExp.engine PlainURL.parser
    {| Blacklist.domains := ["example.com"; "*.ads.com"];
       Blacklist.patterns := ["/login"; ""] |}
    "https://news.site.org/today" = Ok true.
Proof.
  apply (@empty_pattern_matches PlainRegExp.engine PlainURL.parser _ _ "news.site.org").
  - right. by left.
  - reflexivity.
  - intros d [<- | [<- | []]]; vm_compute; discriminate.
Defined.

(** C10 as it is stated fails: with the domain rule [(ads*], whose regular
    expression [^(ads.*$] does not compile, [matches] answers [false] for
    [https://example.com/] although the empty pattern is in the rule set. *)
Lemma empty_pattern_after_bad_domain_rule :
  PlainURL.hostname "https://example.com/" = Some "example.com"
  /\ RegExp.compile "^(ads.*$" = RegExp.SyntaxError
  /\ @Blacklist._matchDomain PlainRegExp.engine "example.com" "(ads*" = Throws
  /\ @Blacklist.matches PlainRegExp.engine PlainURL.parser
       {| Blacklist.domains := ["(ads*"]; Blacklist.patterns := [""] |}
       "https://example.com/" = Ok false
  /\ ~ (forall (engine : RegExpEngine) (parser : URLParser)
          (rules : Blacklist.Rules) (url host : string),
          In "" (Blacklist.patterns rules) ->
          url_hostname url = Some host ->
          Blacklist.matches rules url = Ok true).
Proof.
  repeat split; try reflexivity.
  intros Hclaim.
  specialize (Hclaim PlainRegExp.engine PlainURL.parser
                {| Blacklist.domains := ["(ads*"]; Blacklist.patterns := [""] |}
                "https://example.com/" "example.com" (or_introl eq_refl) eq_refl).
  vm_compute in Hclaim. discriminate.
Qed.

(** ** Root domains *)

Lemma slice_last_labels {A : Type} (n : nat) (xs : list A) :
  JS.slice_last n xs = rev (firstn n (rev xs)).
Proof.
  unfold JS.slice_last. by rewrite List.firstn_rev, rev_involutive.
Qed.

Lemma slice_last_all {A : Type} (n : nat) (xs : list A) :
  length xs <= n -> JS.slice_last n xs = xs.
Proof.
  intros Hn. unfold JS.slice_last. by replace (length xs - n) with 0 by lia.
Qed.

Lemma nth_second_to_last (parts : list string) (l : string) :
  second_to_last parts = Some l ->
  nth (length parts - 2) parts "" = l.
Proof.
  unfold second_to_last. destruct (rev parts) as [|a [|b rest]] eqn:Hrev; [done.. |].
  intros [= ->]. apply (f_equal (@rev string)) in Hrev.
  rewrite rev_involutive in Hrev. subst parts. cbn [rev].
  rewrite <- app_assoc. cbn [app].
  rewrite !length_app, length_rev. cbn [length].
  replace (length rest + 2 - 2) with (length (rev rest) + 0)
    by (rewrite length_rev; lia).
  by rewrite app_nth2_plus.
Qed.

Lemma second_to_last_none (parts : list string) :
  second_to_last parts = None -> length parts <= 1.
Proof.
  unfold second_to_last. rewrite <- (length_rev parts).
  destruct (rev parts) as [|a [|b rest]]; simpl; [lia | lia | done].
Qed.

Lemma second_to_last_some (parts : list string) (l : string) :
  second_to_last parts = Some l -> 2 <= length parts.
Proof.
  unfold second_to_last. rewrite <- (length_rev parts).
  destruct (rev parts) as [|a [|b rest]]; simpl; [done | done | lia].
Qed.

Lemma array_includes_elem_of (xs : list string) (x : string) :
  JS.array_includes xs x = bool_decide (x ∈ xs).
Proof.
  unfold JS.array_includes. induction xs as [|y xs IH]; [done |]. simpl.
  rewrite IH. destruct (String.eqb_spec x y) as [-> | Hne].
  - symmetry. apply bool_decide_eq_true. by left.
  - simpl. apply bool_decide_ext. rewrite elem_of_cons.
    split; [by right | by intros [? | ?]].
Qed.

Lemma root_labels_code (parts : list string) :
  (if (3 <=? length parts)%nat
      && JS.array_includes Stats.secondLevel (nth (length parts - 2) parts "")
   then JS.slice_last 3 parts
   else JS.slice_last 2 parts)
  = root_labels ["co"; "com"; "org"; "ac"; "gov"; "edu"; "net"] parts.
Proof.
  unfold root_labels. destruct (second_to_last parts) as [l|] eqn:Hl.
  - rewrite (nth_second_to_last parts l Hl), array_includes_elem_of.
    apply second_to_last_some in Hl.
    change Stats.secondLevel with ["co"; "com"; "org"; "ac"; "gov"; "edu"; "net"].
    destruct (bool_decide _).
    + destruct (Nat.leb_spec 3 (length parts)); cbn [andb].
      * apply slice_last_labels.
      * unfold last_labels. rewrite <- slice_last_labels.
        rewrite !slice_last_all by lia. done.
    + rewrite andb_false_r. apply slice_last_labels.
  - apply second_to_last_none in Hl.
    destruct (Nat.leb_spec 3 (length parts)); [lia |]. apply slice_last_labels.
Qed.

(** C5.  For a URL that parses, the root domain is made of the last two
    labels of the host name, or of the last three when the label before
    the last is one of [co], [com], [org], [ac], [gov], [edu], [net]:
    [www.example.co.uk] gives [example.co.uk], [blog.example.com] gives
    [example.com] and [example.com] gives [example.com]. *)
Theorem getRootDomain_labels `{URLParser} (url hostname : string) :
  url_hostname url = Some hostname ->
  Stats.getRootDomain url
  = Some (JS.join "."
            (root_labels ["co"; "com"; "org"; "ac"; "gov"; "edu"; "net"]
               (JS.split "." hostname)))
  /\ (hostname = "www.example.co.uk" -> Stats.getRootDomain url = Some "example.co.uk")
  /\ (hostname = "blog.example.com" -> Stats.getRootDomain url = Some "example.com")
  /\ (hostname = "example.com" -> Stats.getRootDomain url = Some "example.com").
Proof.
  intros Hparse. unfold Stats.getRootDomain. rewrite Hparse.
  repeat split; try (by intros ->).
  rewrite <- root_labels_code.
  by destruct ((3 <=? _)%nat && _).
Qed.

Lemma getRootDomain_labels_witness :
  PlainURL.hostname "https://www.example.co.uk/shop?item=3" = Some "www.example.co.uk"
  /\ @Stats.getRootDomain PlainURL.parser "https://www.example.co.uk/shop?item=3"
     = Some "example.co.uk"
  /\ @Stats.getRootDomain PlainURL.parser "http://Blog.Example.com"
     = Some "example.com"
  /\ @Stats.getRootDomain PlainURL.parser "https://shop.example.com.au/" = Some "example.com.au"
  /\ @Stats.getRootDomain PlainURL.parser "https://www.example.org.uk/" = Some "example.org.uk"
  /\ @Stats.getRootDomain PlainURL.parser "https://www.example.ac.uk/" = Some "example.ac.uk"
  /\ @Stats.getRootDomain PlainURL.parser "https://www.example.gov.uk/" = Some "example.gov.uk"
  /\ @Stats.getRootDomain PlainURL.parser "https://www.example.edu.au/" = Some "example.edu.au"
  /\ @Stats.getRootDomain PlainURL.parser "https://www.example.net.au/" = Some "example.net.au"
  /\ @Stats.getRootDomain PlainURL.parser "https://www.example.io.uk/" = Some "io.uk".
Proof.
  split; [reflexivity |]. split.
  { apply (@getRootDomain_labels PlainURL.parser
             "https://www.example.co.uk/shop?item=3" "www.example.co.uk");
      reflexivity. }
  split.
  { exact (proj1 (proj2 (proj2 (@getRootDomain_labels PlainURL.parser
             "http://Blog.Example.com" "blog.example.com" eq_refl))) eq_refl). }
  split.
  { exact (proj1 (@getRootDomain_labels PlainURL.parser
             "https://shop.example.com.au/" "shop.example.com.au" eq_refl)). }
  split.
  { exact (proj1 (@getRootDomain_labels PlainURL.parser
             "https://www.example.org.uk/" "www.example.org.uk" eq_refl)). }
  split.
  { exact (proj1 (@getRootDomain_labels PlainURL.parser
             "https://www.example.ac.uk/" "www.example.ac.uk" eq_refl)). }
  split.
  { exact (proj1 (@getRootDomain_labels PlainURL.parser
             "https://www.example.gov.uk/" "www.example.gov.uk" eq_refl)). }
  split.
  { exact (proj1 (@getRootDomain_labels PlainURL.parser
             "https://www.example.edu.au/" "www.example.edu.au" eq_refl)). }
  split.
  { exact (proj1 (@getRootDomain_labels PlainURL.parser
             "https://www.example.net.au/" "www.example.net.au" eq_refl)). }
  exact (proj1 (@getRootDomain_labels PlainURL.parser
             "https://www.example.io.uk/" "www.example.io.uk" eq_refl)).
Defined.

(** ** The feed paginator *)

Lemma fetches_app (a b : list Feed.event) :
  Feed.fetches (a ++ b) = Feed.fetches a + Feed.fetches b.
Proof. unfold Feed.fetches. by rewrite List.filter_app, length_app. Qed.

Lemma emit_requests (items : list Chrome.HistoryItem) (w : Feed.World) :
  fold_left (fun w item => Feed.emit (Feed.GetVisits (Chrome.url item)) w) items w
  = {| Feed.state := Feed.state w;
       Feed.trace :=
         Feed.trace w ++ map (fun item => Feed.GetVisits (Chrome.url item)) items |}.
Proof.
  revert w. induction items as [|item items IH]; intros w; simpl.
  - rewrite app_nil_r. by destruct w.
  - rewrite IH. unfold Feed.emit. simpl. by rewrite <- app_assoc.
Qed.

Lemma fetches_requests (items : list Chrome.HistoryItem) :
  Feed.fetches (map (fun item => Feed.GetVisits (Chrome.url item)) items) = 0.
Proof. induction items as [|item items IH]; [done | apply IH]. Qed.

Lemma loadMoreHistory_guard (w : Feed.World) :
  Feed.isLoading (Feed.state w) || negb (Feed.hasMore (Feed.state w)) = true ->
  Feed.loadMoreHistory w = (w, Feed.Returned).
Proof. intros Hguard. unfold Feed.loadMoreHistory. by rewrite Hguard. Qed.

(** What a call that passes the guard leaves behind: the flag [isLoading]
    set while the requests are pending, or [hasMore] cleared when the batch
    was empty; one batch was fetched. *)
Lemma loadMoreHistory_ready (w w1 : Feed.World) (p1 : Feed.progress) :
  Feed.isLoading (Feed.state w) = false ->
  Feed.hasMore (Feed.state w) = true ->
  Feed.loadMoreHistory w = (w1, p1) ->
  Feed.fetches (Feed.trace w1) = S (Feed.fetches (Feed.trace w))
  /\ match p1 with
     | Feed.Awaiting items =>
         Feed.isLoading (Feed.state w1) = true
         /\ items = JS.slice (Feed.currentOffset (Feed.state w))
                      (Feed.currentOffset (Feed.state w) + Feed.batchSize)
                      (Feed.allHistory (Feed.state w))
         /\ items <> []
     | Feed.Returned => Feed.hasMore (Feed.state w1) = false
     end.
Proof.
  intros Hloading Hmore. unfold Feed.loadMoreHistory.
  rewrite Hloading, Hmore. cbn [orb negb].
  unfold Feed.getHistoryBatch.
  cbn [Feed.state Feed.set_isLoading Feed.emit Feed.currentOffset Feed.allHistory].
  set (batch := JS.slice _ _ _).
  destruct (Nat.eqb_spec (length batch) 0) as [Hempty | Hfull]; intros [= <- <-].
  - split; [| by destruct (_ =? _)%nat].
    destruct (_ =? _)%nat; simpl; rewrite !fetches_app; unfold Feed.fetches; simpl; lia.
  - rewrite emit_requests. simpl. rewrite !fetches_app, fetches_requests.
    split; [unfold Feed.fetches; simpl; lia |]. split; [done |]. split; [done |].
    by destruct batch.
Qed.

(** C7.  Once the paginator is exhausted ([hasMore] is false), a call of
    [loadMoreHistory] returns at once: nothing is rendered, the state is
    unchanged and no request reaches the history API, however often it is
    called. *)
Theorem exhausted_loadMoreHistory (w : Feed.World) :
  Feed.hasMore (Feed.state w) = false ->
  Feed.loadMoreHistory w = (w, Feed.Returned)
  /\ (forall n, Nat.iter n (fun w => fst (Feed.loadMoreHistory w)) w = w)
  /\ Feed.lookups (Feed.trace (fst (Feed.loadMoreHistory w))) = Feed.lookups (Feed.trace w)
  /\ Feed.rendered (Feed.trace (fst (Feed.loadMoreHistory w))) = Feed.rendered (Feed.trace w).
Proof.
  intros Hmore.
  assert (Hcall : Feed.loadMoreHistory w = (w, Feed.Returned)).
  { apply loadMoreHistory_guard. rewrite Hmore. apply orb_true_r. }
  split; [done |]. split; [| by rewrite Hcall].
  induction n as [|n IH]; [done |]. by rewrite Nat.iter_succ, IH, Hcall.
Qed.

(** C8.  While [isLoading] is set, a call of [loadMoreHistory] returns at
    once and changes nothing.  So of two calls, the second made before the
    requests of the first are answered, only the first fetches a batch. *)
Theorem loading_loadMoreHistory (w : Feed.World) :
  (Feed.isLoading (Feed.state w) = true ->
   Feed.loadMoreHistory w = (w, Feed.Returned))
  /\ (Feed.isLoading (Feed.state w) = false ->
      Feed.hasMore (Feed.state w) = true ->
      forall w1 p1,
        Feed.loadMoreHistory w = (w1, p1) ->
        Feed.loadMoreHistory w1 = (w1, Feed.Returned)
        /\ Feed.fetches (Feed.trace (fst (Feed.loadMoreHistory w1)))
           = S (Feed.fetches (Feed.trace w))).
Proof.
  split.
  - intros Hloading. apply loadMoreHistory_guard. by rewrite Hloading.
  - intros Hloading Hmore w1 p1 Hcall.
    destruct (loadMoreHistory_ready w w1 p1 Hloading Hmore Hcall) as [Hfetch Hp1].
    assert (Hagain : Feed.loadMoreHistory w1 = (w1, Feed.Returned)).
    { apply loadMoreHistory_guard. destruct p1 as [|items].
      - rewrite Hp1. apply orb_true_r.
      - by destruct Hp1 as [-> _]. }
    by rewrite Hagain.
Qed.

Lemma exhausted_loadMoreHistory_witness :
  Feed.hasMore (Feed.state SampleHistory.exhausted) = false
  /\ Feed.loadMoreHistory SampleHistory.exhausted
     = (SampleHistory.exhausted, Feed.Returned).
Proof.
  split; [reflexivity |].
  apply (exhausted_loadMoreHistory SampleHistory.exhausted). reflexivity.
Defined.

Lemma loading_loadMoreHistory_witness :
  Feed.isLoading (Feed.state SampleHistory.ready) = false
  /\ Feed.isLoading (Feed.state (fst (Feed.loadMoreHistory SampleHistory.ready))) = true
  /\ Feed.loadMoreHistory (fst (Feed.loadMoreHistory SampleHistory.ready))
     = (fst (Feed.loadMoreHistory SampleHistory.ready), Feed.Returned)
  /\ Feed.fetches
       (Feed.trace
          (fst (Feed.loadMoreHistory (fst (Feed.loadMoreHistory SampleHistory.ready)))))
     = 1.
Proof.
  split; [reflexivity |]. split; [reflexivity |].
  apply (proj2 (loading_loadMoreHistory SampleHistory.ready) eq_refl eq_refl
           (fst (Feed.loadMoreHistory SampleHistory.ready))
           (snd (Feed.loadMoreHistory SampleHistory.ready))).
  reflexivity.
Defined.

(** ** The chat store *)

Lemma confirmations_app (a b : list Chat.event) :
  Chat.confirmations (a ++ b) = Chat.confirmations a + Chat.confirmations b.
Proof. unfold Chat.confirmations. by rewrite List.filter_app, length_app. Qed.

(** C9, as the code has it.  [clearCurrentChat] and [clearAllChats] ask
    for a confirmation themselves.  When it is given, clearing the current
    chat removes the entry of its URL and no other, and clearing all chats
    leaves no entry, so that every key is absent afterwards.  When it is
    refused, the store is unchanged. *)
Theorem clear_chats_confirmed (w : Chat.World) (page : Chrome.HistoryItem) :
  Chat.currentPage (Chat.chatState w) = Some page ->
  (Chat.get (Chrome.url page) (Chat.clearCurrentChat true w) = None
   /\ forall k, k <> Chrome.url page ->
        Chat.get k (Chat.clearCurrentChat true w) = Chat.get k w)
  /\ (forall k, Chat.get k (Chat.clearAllChats true w) = None)
  /\ Chat.chatHistories (Chat.clearCurrentChat false w) = Chat.chatHistories w
  /\ Chat.chatHistories (Chat.clearAllChats false w) = Chat.chatHistories w
  /\ (forall answer,
        Chat.confirmations (Chat.trace (Chat.clearCurrentChat answer w))
        = S (Chat.confirmations (Chat.trace w)))
  /\ (forall answer, Chat.chatHistories w <> ∅ ->
        Chat.confirmations (Chat.trace (Chat.clearAllChats answer w))
        = S (Chat.confirmations (Chat.trace w))).
Proof.
  intros Hpage. unfold Chat.get, Chat.clearCurrentChat, Chat.clearAllChats.
  rewrite Hpage. repeat split.
  - simpl. apply lookup_delete_eq.
  - intros k Hk. simpl. by apply lookup_delete_ne.
  - intros k. destruct (Nat.eqb_spec (size (Chat.chatHistories w)) 0) as [Hsize | _].
    + apply map_size_empty_iff in Hsize. simpl. by rewrite Hsize.
    + simpl. apply lookup_empty.
  - by destruct (_ =? _)%nat.
  - intros []; simpl; rewrite !confirmations_app; unfold Chat.confirmations; simpl; lia.
  - intros answer Hne.
    destruct (Nat.eqb_spec (size (Chat.chatHistories w)) 0) as [Hsize | _].
    + by apply map_size_empty_iff in Hsize.
    + destruct answer; simpl; rewrite !confirmations_app;
        unfold Chat.confirmations; simpl; lia.
Qed.

Lemma clear_chats_confirmed_witness :
  Chat.get "https://example.com/" (Chat.clearCurrentChat true SampleHistory.chats) = None
  /\ Chat.get "https://news.site.org/" (Chat.clearCurrentChat true SampleHistory.chats)
     = Chat.get "https://news.site.org/" SampleHistory.chats
  /\ Chat.get "https://news.site.org/" SampleHistory.chats
     = Some (SampleHistory.entry "summary?")
  /\ Chat.get "https://news.site.org/" (Chat.clearAllChats true SampleHistory.chats) = None.
Proof.
  pose proof (clear_chats_confirmed SampleHistory.chats
                (SampleHistory.item "https://example.com/") eq_refl)
    as ([Hgone Hkept] & Hall & _).
  split; [exact Hgone |]. split; [by apply Hkept |].
  split; [reflexivity | apply Hall].
Defined.

(** C9 as it is stated fails: the two functions do ask for a confirmation,
    and when it is refused the entries stay. *)
Lemma clear_chats_refused :
  Chat.get "https://example.com/" (Chat.clearCurrentChat false SampleHistory.chats)
  = Some (SampleHistory.entry "hello")
  /\ Chat.get "https://example.com/" (Chat.clearAllChats false SampleHistory.chats)
     = Some (SampleHistory.entry "hello")
  /\ Chat.confirmations (Chat.trace (Chat.clearCurrentChat false SampleHistory.chats)) = 1
  /\ ~ (forall (answer : bool) (w : Chat.World) (page : Chrome.HistoryItem),
          Chat.currentPage (Chat.chatState w) = Some page ->
          Chat.get (Chrome.url page) (Chat.clearCurrentChat answer w) = None
          /\ (forall k, Chat.get k (Chat.clearAllChats answer w) = None)
          /\ Chat.confirmations (Chat.trace (Chat.clearCurrentChat answer w))
             = Chat.confirmations (Chat.trace w)).
Proof.
  split; [reflexivity |]. split; [reflexivity |]. split; [reflexivity |].
  intros Hclaim.
  destruct (Hclaim false SampleHistory.chats
              (SampleHistory.item "https://example.com/") eq_refl) as [Hgone _].
  vm_compute in Hgone. discriminate.
Qed.

(** ** The statistics *)

Lemma existsb_eqb_In (u : string) (l : list string) :
  existsb (String.eqb u) l = true <-> In u l.
Proof.
  rewrite existsb_exists. split.
  - intros (x & Hx & Heq). apply String.eqb_eq in Heq. by subst.
  - intros Hu. exists u. by rewrite String.eqb_refl.
Qed.

Lemma existsb_eqb_not_In (u : string) (l : list string) :
  existsb (String.eqb u) l = false <-> ~ In u l.
Proof. rewrite <- existsb_eqb_In. by destruct (existsb _ _). Qed.

Lemma distinct_snoc (l : list string) (u : string) :
  distinct (l ++ [u]) = Stats.set_add u (distinct l).
Proof. unfold distinct. by rewrite fold_left_app. Qed.

Lemma set_add_In (u x : string) (l : list string) :
  In x (Stats.set_add u l) <-> x = u \/ In x l.
Proof.
  unfold Stats.set_add. destruct (existsb (String.eqb u) l) eqn:Hu.
  - apply existsb_eqb_In in Hu. split; [by right | by intros [-> | ?]].
  - rewrite in_app_iff. simpl. split; [intros [? | [-> | []]] | intros [-> | ?]]; auto.
Qed.

Lemma distinct_In (x : string) (l : list string) :
  In x (distinct l) <-> In x l.
Proof.
  induction l as [|u l IH] using rev_ind; [done |].
  rewrite distinct_snoc, set_add_In, IH, in_app_iff. simpl. split.
  - intros [-> | ?]; auto.
  - intros [? | [-> | []]]; auto.
Qed.

Lemma distinct_NoDup (l : list string) : List.NoDup (distinct l).
Proof.
  induction l as [|u l IH] using rev_ind; [constructor |].
  rewrite distinct_snoc. unfold Stats.set_add.
  destruct (existsb (String.eqb u) (distinct l)) eqn:Hu; [done |].
  apply existsb_eqb_not_In in Hu.
  apply List.NoDup_rev in IH. rewrite <- (rev_involutive (distinct l ++ [u])).
  apply List.NoDup_rev. rewrite rev_unit. constructor; [| done].
  by rewrite <- in_rev.
Qed.

Section Grouping.
Context `{URLParser}.

Lemma in_domain_grouped (d : string) (item : Chrome.HistoryItem) :
  d <> "" ->
  in_domain d item = true <-> grouped_domain item = Some d.
Proof.
  intros Hd. unfold in_domain, grouped_domain.
  rewrite bool_decide_eq_true.
  destruct (Stats.getRootDomain (Chrome.url item)) as [d'|]; [| done].
  destruct (String.eqb_spec d' "") as [-> | Hne]; split; congruence.
Qed.

Lemma records_of_snoc (d : string) items item :
  records_of d (items ++ [item])
  = records_of d items ++ (if in_domain d item then [item] else []).
Proof. unfold records_of. by rewrite List.filter_app. Qed.

Lemma domains_of_snoc items item :
  domains_of (items ++ [item])
  = match grouped_domain item with
    | Some d => Stats.set_add d (domains_of items)
    | None => domains_of items
    end.
Proof.
  unfold domains_of. rewrite omap_app.
  change (omap grouped_domain [item])
    with (match grouped_domain item with Some d => [d] | None => [] end).
  destruct (grouped_domain item); [apply distinct_snoc | by rewrite app_nil_r].
Qed.

Lemma domains_of_In (d : string) items :
  In d (domains_of items) <->
  exists item, In item items /\ grouped_domain item = Some d.
Proof.
  unfold domains_of. rewrite distinct_In, <- list_elem_of_In, list_elem_of_omap.
  by setoid_rewrite list_elem_of_In.
Qed.

Lemma domains_of_nonempty (d : string) items :
  In d (domains_of items) -> d <> "".
Proof.
  intros (item & _ & Hd)%domains_of_In. unfold grouped_domain in Hd.
  destruct (Stats.getRootDomain _) as [d'|]; [| done].
  destruct (String.eqb_spec d' ""); congruence.
Qed.

Lemma records_of_absent (d : string) items :
  d <> "" -> ~ In d (domains_of items) -> records_of d items = [].
Proof.
  intros Hd Hnot. unfold records_of.
  induction items as [|item items IH]; [done |]. cbn [List.filter].
  destruct (in_domain d item) eqn:Hin.
  - exfalso. apply Hnot, domains_of_In. exists item. split; [by left |].
    by apply in_domain_grouped.
  - apply IH. intros (item' & Hitem' & Hg)%domains_of_In.
    apply Hnot, domains_of_In. exists item'. split; [by right | done].
Qed.

(** A record that is counted under [d] changes the object of [d]... *)
Lemma grouped_visit (d : string) items item :
  in_domain d item = true ->
  grouped d (items ++ [item]) = Stats.visit (Chrome.url item) (grouped d items).
Proof.
  intros Hin. unfold grouped, Stats.visit. cbn [Stats.domain Stats.visitCount
    Stats.urls Stats.typedCount Stats.clickedCount Stats.percentage option_map].
  rewrite records_of_snoc, Hin, length_app, map_app. cbn [length map].
  by rewrite distinct_snoc.
Qed.

(** ... and no other. *)
Lemma grouped_other (d : string) items item :
  in_domain d item = false ->
  grouped d (items ++ [item]) = grouped d items.
Proof.
  intros Hin. unfold grouped. by rewrite records_of_snoc, Hin, app_nil_r.
Qed.

Lemma map_has_keys (f : string -> Stats.DomainData) (d : string) keys :
  Stats.map_has d (map (fun k => (k, f k)) keys) = existsb (String.eqb d) keys.
Proof. induction keys as [|k keys IH]; [done |]. simpl. by rewrite IH. Qed.

Lemma map_update_other (f : string -> Stats.DomainData) g (d : string) keys :
  ~ In d keys ->
  Stats.map_update d g (map (fun k => (k, f k)) keys)
  = map (fun k => (k, f k)) keys.
Proof.
  induction keys as [|k keys IH]; [done |]. simpl. intros Hd.
  destruct (String.eqb_spec d k) as [-> | _]; [tauto |].
  rewrite IH; [done | tauto].
Qed.

Lemma map_update_keys (f : string -> Stats.DomainData) g (d : string) keys :
  List.NoDup keys ->
  Stats.map_update d g (map (fun k => (k, f k)) keys)
  = map (fun k => (k, if String.eqb d k then g (f k) else f k)) keys.
Proof.
  induction keys as [|k keys IH]; [done |]. intros [Hk Hkeys]%List.NoDup_cons_iff.
  simpl. destruct (String.eqb_spec d k) as [-> | Hne].
  - f_equal. apply map_ext_in. intros k' Hk'.
    destruct (String.eqb_spec k k') as [-> | _]; [done | done].
  - f_equal. by apply IH.
Qed.

Lemma map_update_last (f : string -> Stats.DomainData) g (d : string) v keys :
  ~ In d keys ->
  Stats.map_update d g (map (fun k => (k, f k)) keys ++ [(d, v)])
  = map (fun k => (k, f k)) keys ++ [(d, g v)].
Proof.
  induction keys as [|k keys IH]; simpl; intros Hd.
  - by rewrite String.eqb_refl.
  - destruct (String.eqb_spec d k) as [-> | _]; [tauto |].
    rewrite IH; [done | tauto].
Qed.

(** The grouping loop of [processDomainData] holds, for every domain in
    the order of first appearance, the number of its records and the set
    of their URLs. *)
Lemma grouping (items : list Chrome.HistoryItem) :
  fold_left Stats.group items []
  = map (fun d => (d, grouped d items)) (domains_of items).
Proof.
  induction items as [|item items IH] using rev_ind; [done |].
  rewrite fold_left_app. cbn [fold_left]. rewrite IH, domains_of_snoc.
  assert (Hsame : forall d, In d (domains_of items) ->
            grouped_domain item <> Some d ->
            (d, grouped d items) = (d, grouped d (items ++ [item]))).
  { intros d Hd Hne. rewrite grouped_other; [done |].
    apply not_true_is_false. intros Hin.
    by apply in_domain_grouped in Hin; [| eapply domains_of_nonempty]. }
  unfold Stats.group. unfold grouped_domain in *.
  destruct (Stats.getRootDomain (Chrome.url item)) as [d|] eqn:Hroot;
    [destruct (String.eqb_spec d "") as [-> | Hne] |].
  - apply map_ext_in. intros d Hd. by apply Hsame.
  - assert (Hin : in_domain d item = true)
      by (unfold in_domain; by rewrite Hroot, bool_decide_eq_true).
    rewrite map_has_keys. unfold Stats.set_add.
    destruct (existsb (String.eqb d) (domains_of items)) eqn:Hd.
    + rewrite map_update_keys by apply distinct_NoDup.
      apply map_ext_in. intros k Hk.
      destruct (String.eqb_spec d k) as [<- | Hdk].
      * by rewrite grouped_visit.
      * apply Hsame; [done | congruence].
    + apply existsb_eqb_not_In in Hd. unfold Stats.map_set.
      rewrite map_update_last by done. rewrite map_app. cbn [map]. f_equal.
      * apply map_ext_in. intros k Hk. apply Hsame; [done |]. congruence.
      * rewrite grouped_visit by done. do 2 f_equal.
        unfold grouped, Stats.newDomain.
        by rewrite records_of_absent.
  - apply map_ext_in. intros d Hd. by apply Hsame.
Qed.

End Grouping.

Lemma classify_counts (visits : list Chrome.VisitItem) (t c : nat) :
  fold_left Stats.classify visits (t, c)
  = (t + length (List.filter is_typed visits),
     c + length (List.filter (fun v => negb (is_typed v)) visits)).
Proof.
  revert t c. induction visits as [|v visits IH]; intros t c.
  - simpl. f_equal; lia.
  - change (fold_left Stats.classify (v :: visits) (t, c))
      with (fold_left Stats.classify visits (Stats.classify (t, c) v)).
    replace (Stats.classify (t, c) v)
      with (if is_typed v then (t + 1, c) else (t, c + 1)) by reflexivity.
    cbn [List.filter].
    destruct (is_typed v); rewrite IH; cbn [negb length]; f_equal; lia.
Qed.

Lemma countUrl_counts `{HistoryAPI} (us : list string) (t c : nat) :
  fold_left Stats.countUrl us (t, c)
  = (t + length (List.filter is_typed (flat_map visits_of us)),
     c + length (List.filter (fun v => negb (is_typed v)) (flat_map visits_of us))).
Proof.
  revert t c. induction us as [|u us IH]; intros t c.
  - simpl. f_equal; lia.
  - change (fold_left Stats.countUrl (u :: us) (t, c))
      with (fold_left Stats.countUrl us (Stats.countUrl (t, c) u)).
    change (flat_map visits_of (u :: us))
      with (visits_of u ++ flat_map visits_of us).
    unfold Stats.countUrl at 2. unfold visits_of at 1 3.
    destruct (getVisits u) as [visits|]; cbn [default from_option id app].
    + rewrite classify_counts, IH, !List.filter_app, !length_app. f_equal; lia.
    + apply IH.
Qed.

Lemma typed_or_clicked (visits : list Chrome.VisitItem) :
  length (List.filter is_typed visits)
  + length (List.filter (fun v => negb (is_typed v)) visits)
  = length visits.
Proof.
  induction visits as [|v visits IH]; [done |]. simpl.
  destruct (is_typed v); simpl; lia.
Qed.

Lemma sort_insert_In {A : Type} (before : A -> A -> bool) (x y : A) (l : list A) :
  In y (JS.sort_insert before x l) <-> y = x \/ In y l.
Proof.
  induction l as [|z l IH]; simpl; [intuition |].
  destruct (before x z); simpl; [intuition |]. rewrite IH. intuition.
Qed.

Lemma sort_In {A : Type} (before : A -> A -> bool) (y : A) (l : list A) :
  In y (JS.sort before l) <-> In y l.
Proof.
  induction l as [|x l IH]; [done |]. simpl.
  rewrite sort_insert_In, IH. intuition.
Qed.

Lemma sort_perm {A : Type} (before : A -> A -> bool) (l : list A) :
  Permutation (JS.sort before l) l.
Proof.
  induction l as [|x l IH]; simpl; [done |].
  rewrite <- IH at 2. generalize (JS.sort before l). clear.
  intros l. induction l as [|y l IH]; simpl; [done |].
  destruct (before x y); [done |].
  rewrite IH. apply perm_swap.
Qed.

(** The result of [sort] is in the order of a comparison that is total and
    transitive. *)
Lemma sort_sorted {A : Type} (before : A -> A -> bool) (l : list A) :
  (forall a b, before a b = true \/ before b a = true) ->
  (forall a b c, before a b = true -> before b c = true -> before a c = true) ->
  StronglySorted (fun a b => before a b = true) (JS.sort before l).
Proof.
  intros Htotal Htrans. induction l as [|x l IH]; simpl; [constructor |].
  revert IH. generalize (JS.sort before l). clear l.
  induction 1 as [|y l Hsorted IH Hy]; simpl; [by repeat constructor |].
  destruct (before x y) eqn:Hxy.
  - constructor; [by constructor |]. constructor; [done |].
    eapply List.Forall_impl; [| exact Hy]. intros z Hz. by eapply Htrans.
  - constructor; [done |].
    rewrite List.Forall_forall. intros z Hz%sort_insert_In.
    destruct Hz as [-> | Hz].
    + destruct (Htotal x y) as [Hx | Hx]; congruence.
    + by eapply List.Forall_forall in Hy.
Qed.

(** Every object of the result is the resolved object of a domain. *)
Lemma processDomainData_In `{URLParser} `{HistoryAPI}
    (items : list Chrome.HistoryItem) (data : Stats.DomainData) :
  In data (Stats.processDomainData items) <->
  exists d, In d (domains_of items)
            /\ data = Stats.resolve (length items) (grouped d items).
Proof.
  unfold Stats.processDomainData, Stats.sort_desc. rewrite sort_In, grouping, !map_map.
  cbn [fst snd]. rewrite in_map_iff. split.
  - intros (d & <- & Hd). eauto.
  - intros (d & Hd & ->). eauto.
Qed.

(** C1, as the code has it.  The two counters of a domain partition the
    visits that the history API reports for the distinct URLs of the
    domain: each visit is counted once, as typed when its transition is
    [typed] and as clicked otherwise.  [visitCount] is another number: the
    number of records of the domain. *)
Theorem typed_clicked_counts `{URLParser} `{HistoryAPI}
    (items : list Chrome.HistoryItem) (data : Stats.DomainData) :
  In data (Stats.processDomainData items) ->
  Stats.typedCount data
  = length (List.filter is_typed (domain_visits (Stats.domain data) items))
  /\ Stats.clickedCount data
     = length (List.filter (fun v => negb (is_typed v))
                 (domain_visits (Stats.domain data) items))
  /\ Stats.typedCount data + Stats.clickedCount data
     = length (domain_visits (Stats.domain data) items)
  /\ Stats.visitCount data = length (records_of (Stats.domain data) items).
Proof.
  intros (d & Hd & ->)%processDomainData_In.
  unfold Stats.resolve, grouped, domain_visits.
  cbn [Stats.domain Stats.visitCount Stats.urls Stats.typedCount Stats.clickedCount
       default].
  rewrite countUrl_counts. cbn [fst snd plus].
  repeat split. apply typed_or_clicked.
Qed.

Lemma typed_clicked_counts_witness :
  In SampleHistory.example_com
    (@Stats.processDomainData PlainURL.parser SampleHistory.api SampleHistory.items)
  /\ Stats.typedCount SampleHistory.example_com
     + Stats.clickedCount SampleHistory.example_com
     = length (@domain_visits PlainURL.parser SampleHistory.api
                 "example.com" SampleHistory.items)
  /\ length (@domain_visits PlainURL.parser SampleHistory.api
               "example.com" SampleHistory.items) = 3
  /\ Stats.visitCount SampleHistory.example_com = 2.
Proof.
  assert (Hin : In SampleHistory.example_com
                  (@Stats.processDomainData PlainURL.parser SampleHistory.api
                     SampleHistory.items))
    by (vm_compute; left; reflexivity).
  split; [exact Hin |]. split; [| split; reflexivity].
  apply (@typed_clicked_counts PlainURL.parser SampleHistory.api
           SampleHistory.items SampleHistory.example_com Hin).
Defined.

(** C1 as it is stated fails: two records of [example.com], whose URLs
    have three visits in all, give [visitCount = 2] and
    [typedCount + clickedCount = 3]. *)
Lemma typed_clicked_not_visitCount :
  map (fun data => (Stats.domain data, Stats.visitCount data,
                    Stats.typedCount data, Stats.clickedCount data))
    (@Stats.processDomainData PlainURL.parser SampleHistory.api SampleHistory.items)
  = [("example.com", 2, 1, 2); ("site.org", 1, 1, 0)]
  /\ ~ (forall (parser : URLParser) (api : HistoryAPI)
               (items : list Chrome.HistoryItem) (data : Stats.DomainData),
          In data (Stats.processDomainData items) ->
          Stats.typedCount data + Stats.clickedCount data = Stats.visitCount data).
Proof.
  split; [vm_compute; reflexivity |].
  intros Hclaim.
  specialize (Hclaim PlainURL.parser SampleHistory.api SampleHistory.items _
                (or_introl eq_refl)).
  vm_compute in Hclaim. discriminate.
Qed.

(** C6, as the code has it.  The [percentage] of a domain is a string: the
    result of [toFixed(1)] on the number of records of the domain divided
    by the number of all records given to [processDomainData], times 100. *)
Theorem percentage_string `{URLParser} `{HistoryAPI}
    (items : list Chrome.HistoryItem) (data : Stats.DomainData) :
  In data (Stats.processDomainData items) ->
  Stats.percentage data
  = JSString
      (Number.toFixed1
         (PrimFloat.mul
            (PrimFloat.div (Number.of_nat (Stats.visitCount data))
               (Number.of_nat (length items)))
            (Number.of_nat 100)))
  /\ Stats.visitCount data = length (records_of (Stats.domain data) items)
  /\ 0 < length items.
Proof.
  intros (d & Hd & ->)%processDomainData_In. repeat split.
  apply domains_of_In in Hd as (item & Hitem & _).
  destruct items; [done | simpl; lia].
Qed.

Lemma percentage_string_witness :
  In SampleHistory.example_com
    (@Stats.processDomainData PlainURL.parser SampleHistory.api SampleHistory.items)
  /\ Stats.percentage SampleHistory.example_com
     = JSString
         (Number.toFixed1
            (PrimFloat.mul
               (PrimFloat.div (Number.of_nat 2)
                  (Number.of_nat (length SampleHistory.items)))
               (Number.of_nat 100)))
  /\ Stats.percentage SampleHistory.example_com = JSString "66.7".
Proof.
  assert (Hin : In SampleHistory.example_com
                  (@Stats.processDomainData PlainURL.parser SampleHistory.api
                     SampleHistory.items))
    by (vm_compute; left; reflexivity).
  split; [exact Hin |]. split; [| reflexivity].
  apply (@percentage_string PlainURL.parser SampleHistory.api
           SampleHistory.items SampleHistory.example_com Hin).
Defined.

(** C6 as it is stated fails: the field is not a number. *)
Lemma percentage_not_a_number :
  map Stats.percentage
    (@Stats.processDomainData PlainURL.parser SampleHistory.api SampleHistory.items)
  = [JSString "66.7"; JSString "33.3"]
  /\ ~ (forall (parser : URLParser) (api : HistoryAPI)
               (items : list Chrome.HistoryItem) (data : Stats.DomainData),
          In data (Stats.processDomainData items) ->
          is_number (Stats.percentage data)).
Proof.
  split; [vm_compute; reflexivity |].
  intros Hclaim.
  destruct (Hclaim PlainURL.parser SampleHistory.api SampleHistory.items _
              (or_introl eq_refl)) as [x Hx].
  vm_compute in Hx. discriminate.
Qed.

(** ** Further properties of the statistics *)

Lemma sorted_weaken {A : Type} (R1 R2 : A -> A -> Prop) (l : list A) :
  (forall a b, R1 a b -> R2 a b) ->
  StronglySorted R1 l -> StronglySorted R2 l.
Proof.
  intros Himpl. induction 1 as [|x l _ IH Hx]; constructor; [done |].
  eapply List.Forall_impl; [| exact Hx]. auto.
Qed.

(** The result of [processDomainData] is in descending order of
    [visitCount] and has one object per root domain of the records. *)
Theorem processDomainData_sorted `{URLParser} `{HistoryAPI}
    (items : list Chrome.HistoryItem) :
  StronglySorted more_visits (Stats.processDomainData items)
  /\ Permutation (map Stats.domain (Stats.processDomainData items)) (domains_of items)
  /\ List.NoDup (domains_of items).
Proof.
  split; [| split; [| apply distinct_NoDup]].
  - unfold Stats.processDomainData, Stats.sort_desc, more_visits.
    eapply sorted_weaken; [| apply sort_sorted].
    + intros a b Hab. by apply Nat.leb_le in Hab.
    + intros a b. rewrite !Nat.leb_le. lia.
    + intros a b c. rewrite !Nat.leb_le. lia.
  - unfold Stats.processDomainData, Stats.sort_desc.
    rewrite sort_perm, grouping, !map_map.
    cbn [fst snd Stats.resolve Stats.domain grouped].
    by rewrite map_id.
Qed.

(** ** Further properties of the feed *)

(** [matches] returns: what its body throws is caught. *)
Lemma try_catch_returns {A : Type} (body : result A) (a : A) :
  exists b, try_catch body (Ok a) = Ok b.
Proof. destruct body; simpl; eauto. Qed.

Lemma matches_returns `{RegExpEngine} `{URLParser} (rules : Blacklist.Rules) (url : string) :
  exists b, Blacklist.matches rules url = Ok b.
Proof. apply try_catch_returns. Qed.

Lemma keep_fold `{RegExpEngine} `{URLParser} rules (l kept : list Chrome.HistoryItem) (n : nat) :
  fold_left (Feed.keep rules) l (Ok (kept, n))
  = Ok (kept ++ List.filter (fun item => negb (blacklisted rules item)) l,
        n + length (List.filter (blacklisted rules) l)).
Proof.
  revert kept n. induction l as [|x l IH]; intros kept n; simpl.
  - by rewrite app_nil_r, Nat.add_0_r.
  - replace (blacklisted rules x)
      with (match Blacklist.matches rules (Chrome.url x) with
            | Ok true => true
            | _ => false
            end) by reflexivity.
    destruct (matches_returns rules (Chrome.url x)) as [[] ->];
      cbn [rbind negb]; rewrite IH; cbn [length].
    + do 2 f_equal. lia.
    + by rewrite <- app_assoc.
Qed.

Lemma filter_length_perm {A : Type} (p : A -> bool) (l l' : list A) :
  Permutation l l' -> length (List.filter p l) = length (List.filter p l').
Proof.
  induction 1 as [|x l l' _ IH|x y l|l1 l2 l3 _ IH1 _ IH2]; simpl.
  - done.
  - destruct (p x); simpl; by rewrite IH.
  - by destruct (p x), (p y).
  - by rewrite IH1.
Qed.

Lemma sorted_filter {A : Type} (R : A -> A -> Prop) (p : A -> bool) (l : list A) :
  StronglySorted R l -> StronglySorted R (List.filter p l).
Proof.
  induction 1 as [|x l _ IH Hx]; simpl; [constructor |].
  destruct (p x); [| done]. constructor; [done |].
  rewrite List.Forall_forall in *. intros y [Hy _]%List.filter_In. auto.
Qed.

(** [loadAllHistory] keeps the records that the rule set does not match,
    most recent first, and counts the others: the two numbers add up to
    the number of records, and paging starts from an untouched cursor. *)
Theorem loadAllHistory_filters `{RegExpEngine} `{URLParser} (rules : Blacklist.Rules)
    (items : list Chrome.HistoryItem) (w : Feed.World) :
  exists w',
    Feed.loadAllHistory rules items w = Ok w'
    /\ Feed.allHistory (Feed.state w')
       = List.filter (fun item => negb (blacklisted rules item)) (Feed.sort_recent items)
    /\ Feed.filteredCount (Feed.state w') = length (List.filter (blacklisted rules) items)
    /\ length (Feed.allHistory (Feed.state w')) + Feed.filteredCount (Feed.state w')
       = length items
    /\ StronglySorted most_recent_first (Feed.allHistory (Feed.state w'))
    /\ Feed.currentOffset (Feed.state w') = Feed.currentOffset (Feed.state w)
    /\ Feed.trace w' = Feed.trace w.
Proof.
  unfold Feed.loadAllHistory. rewrite keep_fold. cbn [rbind fst snd app Nat.add].
  eexists. split; [reflexivity |].
  cbn [Feed.state Feed.set_allHistory Feed.allHistory
    Feed.filteredCount Feed.currentOffset Feed.trace].
  pose proof (sort_perm (fun a b => (Chrome.lastVisitTime b <=? Chrome.lastVisitTime a)%Z)
                items) as Hperm.
  fold (Feed.sort_recent items) in Hperm.
  assert (Hcount : length (List.filter (blacklisted rules) (Feed.sort_recent items))
                   = length (List.filter (blacklisted rules) items))
    by by apply filter_length_perm.
  repeat split; [done | | ].
  - rewrite Hcount, <- (Permutation_length Hperm), <- Hcount.
    rewrite <- (List.filter_length (blacklisted rules) (Feed.sort_recent items)). lia.
  - apply sorted_filter. unfold Feed.sort_recent.
    eapply sorted_weaken; [| apply sort_sorted].
    + intros x y Hxy. by apply Z.leb_le in Hxy.
    + intros x y. rewrite !Z.leb_le. lia.
    + intros x y z. rewrite !Z.leb_le. lia.
Qed.

Lemma loadAllHistory_filters_witness :
  exists w',
    @Feed.loadAllHistory PlainRegExp.engine PlainURL.parser SampleHistory.no_example_com
      SampleHistory.five SampleHistory.ready = Ok w'
    /\ map Chrome.url (Feed.allHistory (Feed.state w'))
       = ["https://news.site.org/"; "https://blog.example.net/"]
    /\ Feed.filteredCount (Feed.state w') = 3
    /\ StronglySorted most_recent_first (Feed.allHistory (Feed.state w')).
Proof.
  destruct (@loadAllHistory_filters PlainRegExp.engine PlainURL.parser
              SampleHistory.no_example_com SampleHistory.five SampleHistory.ready)
    as (w' & Hload & Hkept & Hcount & _ & Hsorted & _).
  exists w'. split; [done |].
  split; [by rewrite Hkept |]. split; [by rewrite Hcount | done].
Defined.

Lemma rendered_app (a b : list Feed.event) :
  Feed.rendered (a ++ b) = Feed.rendered a ++ Feed.rendered b.
Proof. apply flat_map_app. Qed.

Lemma rendered_requests (items : list Chrome.HistoryItem) :
  Feed.rendered (map (fun item => Feed.GetVisits (Chrome.url item)) items) = [].
Proof. induction items as [|item items IH]; [done | apply IH]. Qed.

Lemma withVisitCount_urls (items : list Chrome.HistoryItem)
    (visits : list (list Chrome.VisitItem)) :
  length items = length visits ->
  map Chrome.url (zip_with Feed.withVisitCount items visits) = map Chrome.url items.
Proof.
  revert visits. induction items as [|item items IH]; intros [|v visits]; simpl;
    try done.
  intros [= Hlen]. by rewrite IH.
Qed.

Lemma batch_next {A : Type} (off n : nat) (l : list A) :
  off <= length l ->
  firstn off l ++ JS.slice off (off + n) l
  = firstn (off + length (JS.slice off (off + n) l)) l
  /\ off + length (JS.slice off (off + n) l) = Nat.min (off + n) (length l).
Proof.
  intros Hoff. unfold JS.slice. replace (off + n - off) with n by lia.
  rewrite length_firstn, length_skipn. split; [| lia].
  transitivity (firstn (length (firstn off l) + Nat.min n (length l - off))
                  (firstn off l ++ skipn off l)).
  - rewrite firstn_app_2. f_equal.
    destruct (Nat.le_gt_cases n (length l - off)) as [Hle | Hgt].
    + by rewrite Nat.min_l.
    + rewrite Nat.min_r by lia.
      rewrite !firstn_all2; [done | |]; rewrite length_skipn; lia.
  - rewrite firstn_skipn. f_equal. rewrite length_firstn. lia.
Qed.

Lemma batch_subset {A : Type} (off n : nat) (l : list A) (x : A) :
  In x (JS.slice off n l) -> In x l.
Proof.
  unfold JS.slice. intros Hx.
  rewrite <- (firstn_skipn off l). apply in_or_app. right.
  rewrite <- (firstn_skipn (n - off) (skipn off l)). apply in_or_app. by left.
Qed.

(** A call of [loadMoreHistory] that runs to its end, on records whose
    URLs parse and whose visits the history API returns, renders the next
    batch and moves the cursor past it: no record is skipped and none is
    rendered twice.  The cursor stops at the end of the list, where
    [hasMore] is cleared. *)
Theorem paging_in_order `{URLParser} `{HistoryAPI} (w : Feed.World) :
  (forall item, In item (Feed.allHistory (Feed.state w)) ->
     is_Some (url_hostname (Chrome.url item))
     /\ is_Some (getVisits (Chrome.url item))) ->
  served w ->
  served (Feed.loadMoreHistory_whole w)
  /\ Feed.allHistory (Feed.state (Feed.loadMoreHistory_whole w))
     = Feed.allHistory (Feed.state w)
  /\ Feed.currentOffset (Feed.state (Feed.loadMoreHistory_whole w))
     = (if Feed.hasMore (Feed.state w)
        then Nat.min (Feed.currentOffset (Feed.state w) + Feed.batchSize)
               (length (Feed.allHistory (Feed.state w)))
        else Feed.currentOffset (Feed.state w))
  /\ (Feed.hasMore (Feed.state w) = true ->
      Feed.hasMore (Feed.state (Feed.loadMoreHistory_whole w))
      = (Feed.currentOffset (Feed.state (Feed.loadMoreHistory_whole w))
         <? length (Feed.allHistory (Feed.state w)))%nat).
Proof.
  destruct w as [[off loading more hist filtered] tr].
  unfold served, Feed.loadMoreHistory_whole, Feed.loadMoreHistory. simpl.
  intros Hgood (-> & Hoff & Hcards). simpl.
  destruct more; simpl; [| by repeat split].
  destruct (batch_next off Feed.batchSize hist Hoff) as [Hnext Hmin].
  set (batch := JS.slice _ _ _) in *.
  destruct (Nat.eqb_spec (length batch) 0) as [Hempty | Hfull].
  - (* nothing is left *)
    rewrite Hempty, Nat.add_0_r in Hmin.
    assert (Hend : (off <? length hist)%nat = false).
    { apply Nat.ltb_ge. unfold Feed.batchSize in Hmin. lia. }
    destruct (off =? 0)%nat; simpl; rewrite <- Hmin, Hend, !rendered_app; simpl;
      rewrite !app_nil_r; by repeat split.
  - (* the requests of the batch are answered *)
    rewrite emit_requests.
    unfold Feed.loadMoreHistory_resume. simpl.
    destruct (mapM (fun item => getVisits (Chrome.url item)) batch)
      as [visits|] eqn:Hvisits.
    2:{ exfalso. apply mapM_None in Hvisits. apply List.Exists_exists in Hvisits
          as (item & Hitem & Hnone).
        apply batch_subset, Hgood in Hitem as [_ [v Hv]]. congruence. }
    apply length_mapM in Hvisits.
    unfold Feed.renderCards.
    rewrite (proj2 (forallb_forall _ _)).
    2:{ intros item Hitem. apply bool_decide_eq_true.
        apply (in_map Chrome.url) in Hitem.
        rewrite withVisitCount_urls in Hitem by done.
        apply in_map_iff in Hitem as (item' & <- & Hitem').
        by apply batch_subset, Hgood in Hitem' as [? _]. }
    simpl. rewrite Hmin.
    assert (Hcards' :
      map Chrome.url (Feed.rendered tr ++ zip_with Feed.withVisitCount batch visits)
      = map Chrome.url (firstn (Nat.min (off + Feed.batchSize) (length hist)) hist)).
    { rewrite map_app, withVisitCount_urls, Hcards, <- map_app, Hnext by done.
      by rewrite Hmin. }
    destruct (Nat.leb_spec (length hist) (Nat.min (off + Feed.batchSize) (length hist)))
      as [Hle | Hlt]; simpl;
      rewrite !rendered_app, rendered_requests; simpl; rewrite !app_nil_r.
    + repeat split; [lia | done |]. intros _. symmetry. apply Nat.ltb_ge. lia.
    + repeat split; [lia | done |]. intros _. symmetry. by apply Nat.ltb_lt.
Qed.

Lemma paging_in_order_witness :
  served SampleHistory.ready
  /\ served (@Feed.loadMoreHistory_whole PlainURL.parser SampleHistory.api
               SampleHistory.ready)
  /\ Feed.currentOffset
       (Feed.state (@Feed.loadMoreHistory_whole PlainURL.parser SampleHistory.api
                      SampleHistory.ready)) = 3.
Proof.
  assert (Hserved : served SampleHistory.ready)
    by (repeat split; simpl; lia).
  split; [exact Hserved |].
  destruct (@paging_in_order PlainURL.parser SampleHistory.api SampleHistory.ready)
    as (Hnext & _ & Hoffset & _); [| exact Hserved | by split].
  intros item [<- | [<- | [<- | []]]]; split; vm_compute; eauto.
Defined.

(** Every object of the statistics stands for a domain that is not empty
    and is the root domain of a record whose URL parses: a record whose
    URL does not parse is counted under no domain. *)
Theorem aggregates_of_parsed_records `{URLParser} `{HistoryAPI}
    (items : list Chrome.HistoryItem) (data : Stats.DomainData) :
  In data (Stats.processDomainData items) ->
  Stats.domain data <> ""
  /\ exists item,
       In item items
       /\ Stats.getRootDomain (Chrome.url item) = Some (Stats.domain data)
       /\ is_Some (url_hostname (Chrome.url item)).
Proof.
  intros (d & Hd & ->)%processDomainData_In. cbn [Stats.resolve Stats.domain grouped].
  split; [by eapply domains_of_nonempty |].
  apply domains_of_In in Hd as (item & Hitem & Hgrouped).
  exists item. split; [done |]. unfold grouped_domain in Hgrouped.
  destruct (Stats.getRootDomain (Chrome.url item)) as [d'|] eqn:Hroot; [| done].
  destruct (String.eqb d' ""); [done |]. injection Hgrouped as ->.
  split; [done |]. unfold Stats.getRootDomain in Hroot.
  by destruct (url_hostname (Chrome.url item)).
Qed.

Lemma aggregates_of_parsed_records_witness :
  In SampleHistory.example_com
    (@Stats.processDomainData PlainURL.parser SampleHistory.api SampleHistory.items)
  /\ Stats.domain SampleHistory.example_com <> ""
  /\ exists item,
       In item SampleHistory.items
       /\ @Stats.getRootDomain PlainURL.parser (Chrome.url item)
          = Some (Stats.domain SampleHistory.example_com)
       /\ is_Some (PlainURL.hostname (Chrome.url item)).
Proof.
  assert (Hin : In SampleHistory.example_com
                  (@Stats.processDomainData PlainURL.parser SampleHistory.api
                     SampleHistory.items))
    by (vm_compute; left; reflexivity).
  split; [exact Hin |].
  exact (@aggregates_of_parsed_records PlainURL.parser SampleHistory.api
           SampleHistory.items SampleHistory.example_com Hin).
Defined.

(** ** Wildcards and rule sets *)

Lemma wild_matches_app (p q s : string) :
  wild_matches (p +:+ q) s <->
  exists s1 s2, s = s1 +:+ s2 /\ wild_matches p s1 /\ wild_matches q s2.
Proof.
  revert s. induction p as [|c p IH]; intros s.
  - rewrite append_empty_l. split.
    + intros Hq. exists "", s. repeat split; [constructor | done].
    + intros (s1 & s2 & -> & H1 & H2). by inversion H1; subst.
  - rewrite append_cons. split.
    + intros Hw. inversion Hw as [|c' r s' Hc Hw'|r run s' Hrun Hw']; subst.
      * apply IH in Hw' as (s1 & s2 & -> & H1 & H2).
        exists (String c s1), s2. repeat split; [by constructor | done].
      * apply IH in Hw' as (s1 & s2 & -> & H1 & H2).
        exists (run +:+ s1), s2. rewrite append_assoc.
        repeat split; [by constructor | done].
    + intros (s1 & s2 & -> & H1 & H2).
      inversion H1 as [|c' r s' Hc Hw'|r run s' Hrun Hw']; subst.
      * rewrite append_cons. constructor; [done |]. apply IH. eauto.
      * rewrite append_assoc. constructor; [done |]. apply IH. eauto.
Qed.

Lemma wild_matches_literal (text s : string) :
  JS.includes text "*" = false ->
  wild_matches text s <-> s = text.
Proof.
  revert s. induction text as [|c text IH]; intros s Hstar.
  - split; [by inversion 1 | intros ->; constructor].
  - change (JS.includes (String c text) "*")
      with (Ascii.eqb "*" c && true || JS.includes text "*") in Hstar.
    apply orb_false_iff in Hstar as [Hc Hstar]. rewrite andb_true_r in Hc.
    apply Ascii.eqb_neq in Hc. split.
    + inversion 1 as [|c' r s' _ Hw'|]; subst; [| done].
      f_equal. by apply IH.
    + intros ->. constructor; [done |]. by apply IH.
Qed.

Lemma wild_matches_star (s : string) :
  wild_matches "*" s <-> no_line_terminator s = true.
Proof.
  split.
  - inversion 1 as [|? ? ? Hc|r run s' Hrun Hw']; subst; [done |].
    inversion Hw'; subst. by rewrite append_empty_r.
  - intros Hs. rewrite <- (append_empty_r s). constructor; [done | constructor].
Qed.

Lemma includes_star_app (a b : string) :
  JS.includes (a +:+ b) "*" = JS.includes a "*" || JS.includes b "*".
Proof.
  induction a as [|c a IH]; [by destruct b |].
  rewrite append_cons.
  change (JS.includes (String c (a +:+ b)) "*")
    with (Ascii.eqb "*" c && true || JS.includes (a +:+ b) "*").
  change (JS.includes (String c a) "*")
    with (Ascii.eqb "*" c && true || JS.includes a "*").
  by rewrite IH, orb_assoc.
Qed.

(** What a URL pattern finds, with or without [*]. *)
Lemma matchPattern_finds `{RegExpEngine} (url pattern : string) :
  Blacklist._matchPattern url pattern = Ok true <->
  exists before mid after,
    url = before +:+ mid +:+ after /\ wild_matches pattern mid.
Proof.
  destruct (JS.includes pattern "*") eqn:Hstar.
  - rewrite matchPattern_wild by done. rewrite <- search_wild.
    split; [by intros [= ->] | by intros ->].
  - unfold Blacklist._matchPattern. rewrite Hstar. cbn [negb]. split.
    + intros [= (before & after & ->)%includes_spec].
      exists before, pattern, after. split; [done |]. apply wild_matches_refl.
    + intros (before & mid & after & -> & Hw).
      apply wild_matches_literal in Hw as ->; [| done].
      f_equal. apply includes_spec. by exists before, after.
Qed.

Lemma matchPattern_eq `{RegExpEngine} (url p q : string) :
  (Blacklist._matchPattern url p = Ok true <-> Blacklist._matchPattern url q = Ok true) ->
  Blacklist._matchPattern url p = Blacklist._matchPattern url q.
Proof.
  destruct (matchPattern_returns url p) as [[] ->], (matchPattern_returns url q) as [[] ->];
    intros [H1 H2]; try done.
  - by specialize (H1 eq_refl).
  - by specialize (H2 eq_refl).
Qed.

(** A [*] before and after a URL pattern changes nothing: the pattern is
    searched for anywhere in the URL with or without them, so that
    [*checkout*] and [checkout] match the same URLs. *)
Theorem pattern_outer_stars `{RegExpEngine} (url pattern : string) :
  Blacklist._matchPattern url ("*" +:+ pattern +:+ "*")
  = Blacklist._matchPattern url pattern.
Proof.
  apply matchPattern_eq. rewrite !matchPattern_finds. split.
  - intros (before & mid & after & -> & Hw).
    change ("*" +:+ pattern +:+ "*") with (String "*" (pattern +:+ "*")) in Hw.
    inversion Hw as [| |r run s' Hrun Hw']; subst; [done |].
    apply wild_matches_app in Hw' as (s1 & s2 & -> & H1 & H2).
    exists (before +:+ run), s1, (s2 +:+ after).
    split; [by rewrite !append_assoc | done].
  - intros (before & mid & after & -> & Hw).
    exists before, mid, after. split; [done |].
    rewrite <- (append_empty_l mid), <- (append_empty_r mid), append_empty_l.
    apply (wild_star _ "" (mid +:+ "")); [done |].
    apply wild_matches_app. exists mid, "". repeat split; [done |].
    by apply wild_matches_star.
Qed.

Lemma matchDomain_wild `{RegExpEngine} (hostname rule : string) :
  JS.includes rule "*" = true ->
  plain_rule rule = true ->
  Blacklist._matchDomain hostname rule = Ok true <-> wild_matches rule hostname.
Proof.
  intros Hstar Hplain. unfold Blacklist._matchDomain. rewrite Hstar.
  destruct (String.eqb_spec hostname rule) as [-> | Hne].
  - split; [intros _; apply wild_matches_refl | done].
  - unfold RegExp.test. rewrite compile_domain by done.
    rewrite <- search_wild_anchored. split; [by intros [= ->] | by intros ->].
Qed.

Lemma plain_rule_app (a b : string) :
  plain_rule (a +:+ b) = plain_rule a && plain_rule b.
Proof.
  unfold plain_rule. induction a as [|c a IH]; [done |].
  rewrite append_cons. cbn [list_ascii_of_string forallb]. by rewrite IH, andb_assoc.
Qed.

Lemma no_line_terminator_app (a b : string) :
  no_line_terminator (a +:+ b) = no_line_terminator a && no_line_terminator b.
Proof.
  unfold no_line_terminator. induction a as [|c a IH]; [done |].
  rewrite append_cons. cbn [JS.all_chars]. by rewrite IH, andb_assoc.
Qed.

(** A domain rule [*text], where [text] has no [*] and no character with a
    meaning in a regular expression but [.], matches exactly the host names
    that end in [text]: the rule [*.ads.com] matches the host names that end
    in [.ads.com], and so not [ads.com] itself. *)
Theorem domain_suffix_rule `{RegExpEngine} (hostname text : string) :
  JS.includes text "*" = false ->
  plain_rule text = true ->
  no_line_terminator hostname = true ->
  Blacklist._matchDomain hostname ("*" +:+ text) = Ok true
  <-> exists label, hostname = label +:+ text.
Proof.
  intros Hstar Hplain Hhost.
  rewrite matchDomain_wild; [| done | by rewrite plain_rule_app, Hplain].
  change ("*" +:+ text) with (String "*" text). split.
  - inversion 1 as [|? ? ? Hc|r run s' Hrun Hw']; subst; [done |].
    apply wild_matches_literal in Hw' as ->; [| done]. by exists run.
  - intros [label ->]. rewrite no_line_terminator_app in Hhost.
    apply andb_true_iff in Hhost as [Hlabel _].
    constructor; [done |]. by apply wild_matches_literal.
Qed.

Lemma domain_suffix_rule_witness :
  @Blacklist._matchDomain PlainRegExp.engine "x.ads.com" ("*" +:+ ".ads.com") = Ok true
  <-> exists label, "x.ads.com" = label +:+ ".ads.com".
Proof. apply (@domain_suffix_rule PlainRegExp.engine "x.ads.com" ".ads.com"); reflexivity. Defined.

(** A domain rule [*text*], for such a [text], matches exactly the host
    names in which [text] occurs. *)
Theorem domain_contains_rule `{RegExpEngine} (hostname text : string) :
  JS.includes text "*" = false ->
  plain_rule text = true ->
  no_line_terminator hostname = true ->
  Blacklist._matchDomain hostname ("*" +:+ text +:+ "*") = Ok true
  <-> occurs_in text hostname.
Proof.
  intros Hstar Hplain Hhost.
  rewrite matchDomain_wild;
    [| done | by rewrite !plain_rule_app, Hplain].
  change ("*" +:+ text +:+ "*") with (String "*" (text +:+ "*")). split.
  - inversion 1 as [|? ? ? Hc|r run s' Hrun Hw']; subst; [done |].
    apply wild_matches_app in Hw' as (s1 & s2 & -> & H1 & H2).
    apply wild_matches_literal in H1 as ->; [| done]. by exists run, s2.
  - intros (before & after & ->).
    rewrite !no_line_terminator_app in Hhost.
    apply andb_true_iff in Hhost as [Hbefore [_ Hafter]%andb_true_iff].
    constructor; [done |]. apply wild_matches_app. exists text, after.
    repeat split; [by apply wild_matches_literal | by apply wild_matches_star].
Qed.

Lemma domain_contains_rule_witness :
  @Blacklist._matchDomain PlainRegExp.engine "www.facebook.com"
      ("*" +:+ "facebook" +:+ "*") = Ok true
  <-> occurs_in "facebook" "www.facebook.com".
Proof.
  apply (@domain_contains_rule PlainRegExp.engine "www.facebook.com" "facebook"); reflexivity.
Defined.

Lemma for_some_throws {A : Type} (test : A -> result bool) (xs ys : list A) (x : A) :
  (forall y, In y xs -> test y <> Ok true) ->
  test x = Throws ->
  for_some test (xs ++ x :: ys) = Throws.
Proof.
  intros Hall Hx. induction xs as [|y xs IH]; simpl; [by rewrite Hx |].
  destruct (test y) as [[] |] eqn:Hy; simpl; [| | done].
  - by destruct (Hall y (or_introl eq_refl)).
  - apply IH. intros z Hz. apply Hall. by right.
Qed.

(** A domain rule for which [_matchDomain] throws disables the rules
    after it: when no domain rule before it matches the host name (each
    of them answers [false], or throws in its turn), [matches] answers
    [false], whatever the later domain rules and the URL patterns are. *)
Theorem failing_domain_rule `{RegExpEngine} `{URLParser} (rules : Blacklist.Rules)
    (url host : string) (before after : list string) (rule : string) :
  url_hostname url = Some host ->
  Blacklist.domains rules = before ++ rule :: after ->
  (forall d, In d before ->
     Blacklist._matchDomain (JS.toLowerCase host) (JS.toLowerCase d) <> Ok true) ->
  Blacklist._matchDomain (JS.toLowerCase host) (JS.toLowerCase rule) = Throws ->
  Blacklist.matches rules url = Ok false.
Proof.
  intros Hparse Hrules Hbefore Hrule. unfold Blacklist.matches.
  rewrite Hparse, Hrules.
  by rewrite (for_some_throws
                (fun d => Blacklist._matchDomain (JS.toLowerCase host) (JS.toLowerCase d))).
Qed.

Lemma failing_domain_rule_witness :
  @Blacklist.matches PlainRegExp.engine PlainURL.parser SampleHistory.broken_rules
    "https://site.org/" = Ok false
  /\ RegExp.compile "^[ads.*$" = RegExp.Unsupported
  /\ @Blacklist.matches PlainRegExp.engine PlainURL.parser
       {| Blacklist.domains := ["(ads*"; "[ads*"; "site.org"];
          Blacklist.patterns := [""] |}
       "https://site.org/" = Ok false.
Proof.
  split; [| split; [reflexivity |]].
  - apply (@failing_domain_rule PlainRegExp.engine PlainURL.parser
             SampleHistory.broken_rules
             "https://site.org/" "site.org" ["example.com"] ["site.org"] "(ads*").
    + reflexivity.
    + reflexivity.
    + intros d [<- | []]. vm_compute. discriminate.
    + vm_compute. reflexivity.
  - apply (@failing_domain_rule PlainRegExp.engine PlainURL.parser
             {| Blacklist.domains := ["(ads*"; "[ads*"; "site.org"];
                Blacklist.patterns := [""] |}
             "https://site.org/" "site.org" ["(ads*"] ["site.org"] "[ads*").
    + reflexivity.
    + reflexivity.
    + intros d [<- | []]. vm_compute. discriminate.
    + vm_compute. reflexivity.
Defined.

Lemma for_some_true {A : Type} (test : A -> result bool) (xs : list A) :
  (forall x, In x xs -> exists b, test x = Ok b) ->
  for_some test xs = Ok true <-> exists x, In x xs /\ test x = Ok true.
Proof.
  intros Hall. split.
  - induction xs as [|x xs IH]; [done |]. simpl.
    destruct (test x) as [[] |] eqn:Hx; simpl; try done.
    + intros _. exists x. split; [by left | done].
    + intros Hrest. destruct IH as (y & Hy & Hty); [| done |].
      * intros z Hz. apply Hall. by right.
      * exists y. split; [by right | done].
  - intros (x & Hx & Htx). by eapply for_some_found.
Qed.

Lemma matches_spec `{RegExpEngine} `{URLParser} (rules : Blacklist.Rules) (url host : string) :
  url_hostname url = Some host ->
  (forall d, In d (Blacklist.domains rules) ->
     Blacklist._matchDomain (JS.toLowerCase host) (JS.toLowerCase d) <> Throws) ->
  (exists b, Blacklist.matches rules url = Ok b)
  /\ (Blacklist.matches rules url = Ok true
      <-> (exists d, In d (Blacklist.domains rules)
             /\ Blacklist._matchDomain (JS.toLowerCase host) (JS.toLowerCase d) = Ok true)
          \/ (exists p, In p (Blacklist.patterns rules)
                /\ Blacklist._matchPattern (JS.toLowerCase url) (JS.toLowerCase p) = Ok true)).
Proof.
  intros Hparse Hthrows.
  assert (Hdomains : forall d, In d (Blacklist.domains rules) ->
            exists b, Blacklist._matchDomain (JS.toLowerCase host) (JS.toLowerCase d) = Ok b)
    by (intros d Hd; by apply returns_or_throws, Hthrows).
  pose proof (for_some_true
                (fun d => Blacklist._matchDomain (JS.toLowerCase host) (JS.toLowerCase d))
                (Blacklist.domains rules) Hdomains) as Hd.
  pose proof (for_some_true
                (fun p => Blacklist._matchPattern (JS.toLowerCase url) (JS.toLowerCase p))
                (Blacklist.patterns rules)
                (fun p _ => matchPattern_returns _ _)) as Hp.
  unfold Blacklist.matches. rewrite Hparse.
  destruct (for_some_returns _ _ Hdomains) as [d Hd'].
  destruct (for_some_returns
              (fun p => Blacklist._matchPattern (JS.toLowerCase url) (JS.toLowerCase p))
              (Blacklist.patterns rules) (fun p _ => matchPattern_returns _ _)) as [p Hp'].
  rewrite Hd' in *. rewrite Hp' in *. cbn [try_catch rbind].
  destruct d; cbn [try_catch rbind].
  - split; [eauto |]. split; [intros _; left; by apply Hd | done].
  - destruct p; cbn [try_catch rbind].
    + split; [eauto |]. split; [intros _; right; by apply Hp | done].
    + split; [eauto |]. split; [done |].
      intros [Hex | Hex]; [by apply Hd in Hex | by apply Hp in Hex].
Qed.

(** When no domain rule makes [_matchDomain] throw for the host name,
    [matches] answers [true] exactly when some domain rule matches the
    host name or some URL pattern matches the URL, both in lower case, and
    [false] otherwise: the order of the rules does not matter. *)
Theorem matches_any_rule `{RegExpEngine} `{URLParser}
    (rules : Blacklist.Rules) (url host : string) :
  url_hostname url = Some host ->
  (forall d, In d (Blacklist.domains rules) ->
     Blacklist._matchDomain (JS.toLowerCase host) (JS.toLowerCase d) <> Throws) ->
  (exists b, Blacklist.matches rules url = Ok b)
  /\ (Blacklist.matches rules url = Ok true
      <-> (exists d, In d (Blacklist.domains rules)
             /\ Blacklist._matchDomain (JS.toLowerCase host) (JS.toLowerCase d) = Ok true)
          \/ (exists p, In p (Blacklist.patterns rules)
                /\ Blacklist._matchPattern (JS.toLowerCase url) (JS.toLowerCase p) = Ok true)).
Proof. apply matches_spec. Qed.

Lemma matches_any_rule_witness :
  (exists b,
     @Blacklist.matches PlainRegExp.engine PlainURL.parser SampleHistory.ads_rules
       "https://news.site.org/login" = Ok b)
  /\ (@Blacklist.matches PlainRegExp.engine PlainURL.parser SampleHistory.ads_rules
        "https://news.site.org/login" = Ok true
      <-> (exists d,
             In d (Blacklist.domains SampleHistory.ads_rules)
             /\ @Blacklist._matchDomain PlainRegExp.engine (JS.toLowerCase "news.site.org")
                  (JS.toLowerCase d)
                = Ok true)
          \/ (exists p,
                In p (Blacklist.patterns SampleHistory.ads_rules)
                /\ @Blacklist._matchPattern PlainRegExp.engine (JS.toLowerCase "https://news.site.org/login")
                     (JS.toLowerCase p) = Ok true)).
Proof.
  apply (@matches_any_rule PlainRegExp.engine PlainURL.parser SampleHistory.ads_rules
           "https://news.site.org/login" "news.site.org").
  - reflexivity.
  - intros d [<- | [<- | []]]; vm_compute; discriminate.
Defined.

(** ** Rules added, removed and loaded *)

Lemma unique_distinct (xs : list string) : JS.unique xs = distinct xs.
Proof. reflexivity. Qed.

Lemma unique_In (xs : list string) (x : string) : In x (JS.unique xs) <-> In x xs.
Proof. rewrite unique_distinct. apply distinct_In. Qed.

Lemma unique_NoDup (xs : list string) : List.NoDup (JS.unique xs).
Proof. rewrite unique_distinct. apply distinct_NoDup. Qed.

Lemma for_some_app_bind {A : Type} (test : A -> result bool) (xs ys : list A) :
  for_some test (xs ++ ys)
  = (b <- for_some test xs ;;; if b then Ok true else for_some test ys).
Proof.
  induction xs as [|x xs IH]; [done |]. simpl.
  destruct (test x) as [[] |]; simpl; [done | apply IH | done].
Qed.

Lemma for_some_repeated {A : Type} (test : A -> result bool) (xs : list A) (x : A) :
  In x xs -> for_some test (xs ++ [x]) = for_some test xs.
Proof.
  intros Hx. rewrite for_some_app_bind.
  induction xs as [|y xs IH]; [done |]. simpl.
  destruct (test y) as [[] |] eqn:Hy; simpl; try done.
  destruct Hx as [-> | Hx]; [| by apply IH].
  rewrite Hy. simpl.
  destruct (for_some test xs) as [[] |]; done.
Qed.

Lemma for_some_unique (test : string -> result bool) (xs : list string) :
  for_some test (JS.unique xs) = for_some test xs.
Proof.
  rewrite unique_distinct.
  induction xs as [|x xs IH] using rev_ind; [done |].
  rewrite distinct_snoc. unfold Stats.set_add.
  destruct (existsb (String.eqb x) (distinct xs)) eqn:Hx.
  - apply existsb_eqb_In in Hx. rewrite distinct_In in Hx.
    rewrite IH. symmetry. by apply for_some_repeated.
  - by rewrite !for_some_app_bind, IH.
Qed.

Lemma without_In (y x : string) (xs : list string) :
  In x (Blacklist.without y xs) <-> In x xs /\ x <> y.
Proof.
  unfold Blacklist.without. by rewrite List.filter_In, negb_true_iff, String.eqb_neq.
Qed.

Lemma without_absent (y : string) (xs : list string) :
  ~ In y xs -> Blacklist.without y xs = xs.
Proof.
  intros Hy. unfold Blacklist.without. induction xs as [|x xs IH]; [done |]. simpl.
  destruct (String.eqb_spec x y) as [-> | Hne]; simpl.
  - exfalso. apply Hy. by left.
  - f_equal. apply IH. intros Hin. apply Hy. by right.
Qed.

Lemma without_snoc (y : string) (xs : list string) :
  Blacklist.without y (xs ++ [y]) = Blacklist.without y xs.
Proof.
  unfold Blacklist.without. rewrite List.filter_app. simpl.
  by rewrite String.eqb_refl, app_nil_r.
Qed.

(** [load], when the file is read and the storage holds rules: the
    instance holds the rules of the file and of the storage, each once,
    and [matches] answers as it would with the rules of the file followed
    by those of the storage, repetitions included. *)
Theorem load_merges (b : Blacklist.Instance) (fileDomains filePatterns : option (list string))
    (stored : Blacklist.Rules) :
  Blacklist.storage b = Some stored ->
  let loaded := Blacklist.rules (Blacklist.load (Blacklist.Data fileDomains filePatterns) b) in
  List.NoDup (Blacklist.domains loaded)
  /\ List.NoDup (Blacklist.patterns loaded)
  /\ (forall d, In d (Blacklist.domains loaded)
        <-> In d (default [] fileDomains) \/ In d (Blacklist.domains stored))
  /\ (forall p, In p (Blacklist.patterns loaded)
        <-> In p (default [] filePatterns) \/ In p (Blacklist.patterns stored))
  /\ (forall (engine : RegExpEngine) (parser : URLParser) (url : string),
        Blacklist.matches loaded url
        = Blacklist.matches
            {| Blacklist.domains := default [] fileDomains ++ Blacklist.domains stored;
               Blacklist.patterns := default [] filePatterns ++ Blacklist.patterns stored |}
            url).
Proof.
  intros Hstored. unfold Blacklist.load, Blacklist._loadFromStorage. simpl. rewrite Hstored. simpl.
  split; [apply unique_NoDup |]. split; [apply unique_NoDup |].
  split; [intros d; by rewrite unique_In, in_app_iff |].
  split; [intros p; by rewrite unique_In, in_app_iff |].
  intros engine parser url. unfold Blacklist.matches. simpl.
  destruct (url_hostname url) as [host|]; [| done].
  rewrite for_some_unique.
  destruct (for_some _ (_ ++ Blacklist.domains stored)) as [[] |]; simpl; try done.
  by rewrite for_some_unique.
Qed.

Lemma load_merges_witness :
  List.NoDup (Blacklist.domains (Blacklist.rules SampleHistory.blacklist))
  /\ Blacklist.domains (Blacklist.rules SampleHistory.blacklist)
     = ["example.com"; "*.ads.com"; "tracker.net"].
Proof.
  split; [| reflexivity].
  exact (proj1 (load_merges (Blacklist.new (Some SampleHistory.user_rules))
                  (Some ["example.com"; "*.ads.com"]) (Some ["/login"])
                  SampleHistory.user_rules eq_refl)).
Defined.

Lemma holds_stored_perform (b : Blacklist.Instance) (c : call) :
  holds_stored b -> holds_stored (perform b c).
Proof.
  unfold holds_stored, stored_rules. destruct b as [[ds ps] st].
  intros [Hd Hp]. destruct c as [f | d | p | d | p | f]; simpl in *.
  - destruct f as [| | fd fp]; [done | |]; unfold Blacklist.load, Blacklist._loadFromStorage; simpl;
      destruct st as [[sd sp]|]; simpl in *; try done;
      split; intros x Hx; rewrite unique_In, in_app_iff; auto.
  - unfold Blacklist.addDomain, Blacklist._loadFromStorage. simpl.
    destruct (JS.array_includes _ d); simpl; [done |].
    split; [| done]. intros x. rewrite !in_app_iff. intros [? | ?]; auto.
  - unfold Blacklist.addPattern, Blacklist._loadFromStorage. simpl.
    destruct (JS.array_includes _ p); simpl; [done |].
    split; [done |]. intros x. rewrite !in_app_iff. intros [? | ?]; auto.
  - split; [| done]. intros x. rewrite !without_In. intros [? ?]; auto.
  - split; [done |]. intros x. rewrite !without_In. intros [? ?]; auto.
  - destruct f as [| | fd fp]; unfold Blacklist.clearStorage, Blacklist.load; simpl; done.
Qed.

Lemma holds_stored_load (f : Blacklist.file) (b : Blacklist.Instance) :
  f <> Blacklist.Unavailable -> holds_stored (Blacklist.load f b).
Proof.
  intros Hf. unfold holds_stored, stored_rules. destruct b as [[ds ps] st].
  destruct f as [| | fd fp]; [done | |]; unfold Blacklist.load, Blacklist._loadFromStorage; simpl;
    destruct st as [[sd sp]|]; simpl in *; try done;
    split; intros x Hx; rewrite unique_In, in_app_iff; auto.
Qed.

(** Once [load] has run without an exception, the instance holds every
    rule of the storage, and it still does after any sequence of [load],
    [addDomain], [addPattern], [removeDomain], [removePattern] and
    [clearStorage], each run to its end before the next. *)
Theorem stored_rules_in_force (b : Blacklist.Instance) (f : Blacklist.file) (calls : list call) :
  f <> Blacklist.Unavailable ->
  holds_stored (fold_left perform calls (Blacklist.load f b)).
Proof.
  intros Hloaded%(holds_stored_load f b).
  revert Hloaded. generalize (Blacklist.load f b). clear.
  induction calls as [|c calls IH]; intros b0 Hb0; [done |]. simpl.
  by apply IH, holds_stored_perform.
Qed.

Lemma stored_rules_in_force_witness :
  holds_stored
    (fold_left perform
       [AddDomain "shop.example.org"; RemovePattern "/login";
        ClearStorage Blacklist.NotOk; AddPattern "*?utm_source=*"]
       (Blacklist.load SampleHistory.shipped
          (Blacklist.new (Some SampleHistory.user_rules)))).
Proof. apply stored_rules_in_force. discriminate. Defined.

Lemma matchDomain_exact `{RegExpEngine} (h : string) : Blacklist._matchDomain h h = Ok true.
Proof. unfold Blacklist._matchDomain. by rewrite String.eqb_refl. Qed.

Lemma addDomain_In (domain : string) (b : Blacklist.Instance) :
  holds_stored b -> In domain (Blacklist.domains (Blacklist.rules (Blacklist.addDomain domain b))).
Proof.
  intros [Hd _]. unfold Blacklist.addDomain, Blacklist._loadFromStorage.
  destruct (JS.array_includes _ domain) eqn:Hin; simpl.
  - apply Hd. by apply existsb_eqb_In.
  - apply in_app_iff. right. by left.
Qed.

Lemma addPattern_In (pattern : string) (b : Blacklist.Instance) :
  holds_stored b -> In pattern (Blacklist.patterns (Blacklist.rules (Blacklist.addPattern pattern b))).
Proof.
  intros [_ Hp]. unfold Blacklist.addPattern, Blacklist._loadFromStorage.
  destruct (JS.array_includes _ pattern) eqn:Hin; simpl.
  - apply Hp. by apply existsb_eqb_In.
  - apply in_app_iff. right. by left.
Qed.

Lemma addDomain_rules (domain : string) (b : Blacklist.Instance) (d : string) :
  In d (Blacklist.domains (Blacklist.rules (Blacklist.addDomain domain b))) ->
  d = domain \/ In d (Blacklist.domains (Blacklist.rules b)).
Proof.
  unfold Blacklist.addDomain. destruct (JS.array_includes _ domain); simpl; [auto |].
  rewrite in_app_iff. simpl. intros [? | [<- | []]]; auto.
Qed.

Lemma addDomain_patterns (domain : string) (b : Blacklist.Instance) :
  Blacklist.patterns (Blacklist.rules (Blacklist.addDomain domain b)) = Blacklist.patterns (Blacklist.rules b).
Proof. unfold Blacklist.addDomain. by destruct (JS.array_includes _ domain). Qed.

Lemma addPattern_domains (pattern : string) (b : Blacklist.Instance) :
  Blacklist.domains (Blacklist.rules (Blacklist.addPattern pattern b)) = Blacklist.domains (Blacklist.rules b).
Proof. unfold Blacklist.addPattern. by destruct (JS.array_includes _ pattern). Qed.

(** After [addDomain] or [addPattern] on an instance that holds the rules
    of its storage, [matches] answers [true] for every URL that the new
    rule matches, provided that no domain rule held before makes
    [_matchDomain] throw for the host name. *)
Theorem added_rule_in_force `{RegExpEngine} `{URLParser}
    (b : Blacklist.Instance) (url host : string) :
  holds_stored b ->
  url_hostname url = Some host ->
  (forall d, In d (Blacklist.domains (Blacklist.rules b)) ->
     Blacklist._matchDomain (JS.toLowerCase host) (JS.toLowerCase d) <> Throws) ->
  (forall domain,
     Blacklist._matchDomain (JS.toLowerCase host) (JS.toLowerCase domain) = Ok true ->
     Blacklist.matches (Blacklist.rules (Blacklist.addDomain domain b)) url = Ok true)
  /\ (forall pattern,
        Blacklist._matchPattern (JS.toLowerCase url) (JS.toLowerCase pattern) = Ok true ->
        Blacklist.matches (Blacklist.rules (Blacklist.addPattern pattern b)) url = Ok true).
Proof.
  intros Hb Hparse Hdomains. split.
  - intros domain Hmatch.
    apply (matches_spec _ url host Hparse).
    + intros d [-> | Hd]%addDomain_rules; [by rewrite Hmatch | by apply Hdomains].
    + left. exists domain. split; [by apply addDomain_In | done].
  - intros pattern Hmatch.
    apply (matches_spec _ url host Hparse).
    + by rewrite addPattern_domains.
    + right. exists pattern. split; [by apply addPattern_In | done].
Qed.

Lemma added_rule_in_force_witness :
  (forall domain,
     @Blacklist._matchDomain PlainRegExp.engine (JS.toLowerCase "shop.example.org")
          (JS.toLowerCase domain)
     = Ok true ->
     @Blacklist.matches PlainRegExp.engine PlainURL.parser
       (Blacklist.rules (Blacklist.addDomain domain SampleHistory.blacklist))
       "https://shop.example.org/cart" = Ok true)
  /\ (forall pattern,
        @Blacklist._matchPattern PlainRegExp.engine (JS.toLowerCase "https://shop.example.org/cart")
          (JS.toLowerCase pattern) = Ok true ->
        @Blacklist.matches PlainRegExp.engine PlainURL.parser
          (Blacklist.rules (Blacklist.addPattern pattern SampleHistory.blacklist))
          "https://shop.example.org/cart" = Ok true).
Proof.
  apply (@added_rule_in_force PlainRegExp.engine PlainURL.parser SampleHistory.blacklist
           "https://shop.example.org/cart" "shop.example.org").
  - apply holds_stored_load. discriminate.
  - reflexivity.
  - intros d [<- | [<- | [<- | []]]]; vm_compute; discriminate.
Defined.

Lemma addDomain_once (domain : string) (b : Blacklist.Instance) :
  In domain (Blacklist.domains (stored_rules (Blacklist.addDomain domain b)))
  /\ (List.NoDup (Blacklist.domains (stored_rules b)) ->
      List.NoDup (Blacklist.domains (stored_rules (Blacklist.addDomain domain b))))
  /\ Blacklist.addDomain domain (Blacklist.addDomain domain b) = Blacklist.addDomain domain b.
Proof.
  unfold stored_rules.
  assert (Hstored : In domain
            (Blacklist.domains (default Blacklist.no_rules (Blacklist.storage (Blacklist.addDomain domain b))))).
  { unfold Blacklist.addDomain, Blacklist._loadFromStorage.
    destruct (JS.array_includes _ domain) eqn:Hin; simpl.
    - by apply existsb_eqb_In.
    - apply in_app_iff. right. by left. }
  split; [done |]. split.
  - unfold Blacklist.addDomain, Blacklist._loadFromStorage.
    destruct (JS.array_includes _ domain) eqn:Hin; simpl; [done |].
    intros Hnodup. apply existsb_eqb_not_In in Hin.
    apply List.NoDup_app; [done | repeat constructor; by intros [] |].
    intros x Hx [<- | []]. by apply Hin.
  - apply existsb_eqb_In in Hstored.
    unfold Blacklist.addDomain at 1. unfold Blacklist._loadFromStorage.
    fold (JS.array_includes
            (Blacklist.domains (default Blacklist.no_rules (Blacklist.storage (Blacklist.addDomain domain b))))
            domain) in Hstored.
    by rewrite Hstored.
Qed.

Lemma removeDomain_removes (domain : string) (b : Blacklist.Instance) :
  let b' := Blacklist.removeDomain domain b in
  ~ In domain (Blacklist.domains (Blacklist.rules b'))
  /\ ~ In domain (Blacklist.domains (stored_rules b'))
  /\ (forall d, d <> domain ->
        (In d (Blacklist.domains (Blacklist.rules b')) <-> In d (Blacklist.domains (Blacklist.rules b)))
        /\ (In d (Blacklist.domains (stored_rules b'))
            <-> In d (Blacklist.domains (stored_rules b))))
  /\ Blacklist.patterns (Blacklist.rules b') = Blacklist.patterns (Blacklist.rules b)
  /\ Blacklist.patterns (stored_rules b') = Blacklist.patterns (stored_rules b).
Proof.
  unfold stored_rules, Blacklist.removeDomain, Blacklist._loadFromStorage. simpl.
  rewrite !without_In. repeat split; try tauto; rewrite without_In; tauto.
Qed.

Lemma add_remove_domain (domain : string) (b : Blacklist.Instance) :
  ~ In domain (Blacklist.domains (Blacklist.rules b)) ->
  ~ In domain (Blacklist.domains (stored_rules b)) ->
  Blacklist.rules (Blacklist.removeDomain domain (Blacklist.addDomain domain b)) = Blacklist.rules b
  /\ stored_rules (Blacklist.removeDomain domain (Blacklist.addDomain domain b)) = stored_rules b.
Proof.
  unfold stored_rules. intros Hrules Hstored.
  unfold Blacklist.addDomain, Blacklist._loadFromStorage.
  apply existsb_eqb_not_In in Hstored.
  fold (JS.array_includes (Blacklist.domains (default Blacklist.no_rules (Blacklist.storage b))) domain)
    in Hstored.
  rewrite Hstored. apply existsb_eqb_not_In in Hstored.
  unfold Blacklist.removeDomain, Blacklist._loadFromStorage. simpl.
  rewrite !without_snoc, !without_absent by done.
  split; [by destruct (Blacklist.rules b) | by destruct (default Blacklist.no_rules (Blacklist.storage b))].
Qed.

(** The rules of the file come back: a domain rule of the file that
    [removeDomain] has removed is held again after the next [load], and
    after [clearStorage] the instance holds the rules of the file as they
    are written there, and the storage holds none. *)
Theorem reload_keeps_file_rules (b : Blacklist.Instance)
    (fileDomains filePatterns : list string) (domain : string) :
  let f := Blacklist.Data (Some fileDomains) (Some filePatterns) in
  (In domain fileDomains ->
   In domain (Blacklist.domains (Blacklist.rules (Blacklist.load f (Blacklist.removeDomain domain b)))))
  /\ Blacklist.rules (Blacklist.clearStorage f b)
     = {| Blacklist.domains := fileDomains; Blacklist.patterns := filePatterns |}
  /\ Blacklist.storage (Blacklist.clearStorage f b) = None.
Proof.
  split; [| done]. intros Hfile.
  unfold Blacklist.load, Blacklist.removeDomain, Blacklist._loadFromStorage. simpl.
  rewrite unique_In, in_app_iff. by left.
Qed.

(** ** The stored configuration *)

Lemma or_else_or_else (x : option string) (d : string) :
  JS.or_else (Some (JS.or_else x d)) d = JS.or_else x d.
Proof. destruct x as [[|c s]|]; simpl; by destruct d. Qed.

(** What [Config.load] reads after [Config.save]: for each of the four
    properties, the value saved, the default ([openai] for the provider,
    the empty string for the others) when the value saved is the empty
    string, and what it read before when the property was [undefined] in
    the object saved.  [save] writes no other key of the storage, and
    saving what [load] returns changes nothing of what [load] returns. *)
Theorem save_load (config : Config.t) (storage : gmap string string) :
  Config.load (Config.save config storage)
  = {| Config.apiKey :=
         read_back (Config.apiKey config) (Config.apiKey (Config.load storage)) "";
       Config.provider :=
         read_back (Config.provider config) (Config.provider (Config.load storage)) "openai";
       Config.endpoint :=
         read_back (Config.endpoint config) (Config.endpoint (Config.load storage)) "";
       Config.model :=
         read_back (Config.model config) (Config.model (Config.load storage)) "" |}
  /\ (forall key, ~ In key config_keys ->
        Config.save config storage !! key = storage !! key)
  /\ Config.load (Config.save (Config.load storage) storage) = Config.load storage.
Proof.
  assert (Hload : forall config,
    Config.load (Config.save config storage)
    = {| Config.apiKey :=
           read_back (Config.apiKey config) (Config.apiKey (Config.load storage)) "";
         Config.provider :=
           read_back (Config.provider config) (Config.provider (Config.load storage)) "openai";
         Config.endpoint :=
           read_back (Config.endpoint config) (Config.endpoint (Config.load storage)) "";
         Config.model :=
           read_back (Config.model config) (Config.model (Config.load storage)) "" |}).
  { intros [[a|] [p|] [e|] [m|]]; unfold Config.load, Config.save, Config.set_defined;
      cbn [Config.apiKey Config.provider Config.endpoint Config.model read_back];
      cbv zeta; rewrite !lookup_union; f_equal; f_equal;
      repeat (rewrite lookup_insert_ne by done);
      rewrite ?lookup_insert, ?lookup_empty; simpl;
      try by destruct (storage !! _). }
  split; [apply Hload |]. split.
  - intros key Hkey. unfold Config.save, Config.set_defined. cbv zeta.
    rewrite lookup_union.
    assert (Hnone : forall data : gmap string string, data !! key = None ->
              forall k v, In k config_keys -> (<[k := v]> data) !! key = None).
    { intros data Hdata k v Hk. rewrite lookup_insert_ne; [done |].
      intros ->. by apply Hkey. }
    destruct config as [[a|] [p|] [e|] [m|]]; simpl;
      repeat (rewrite Hnone; [| | vm_compute; tauto]); rewrite ?lookup_empty;
      try done; by destruct (storage !! key).
  - rewrite Hload. unfold Config.load, read_back.
    cbn [Config.apiKey Config.provider Config.endpoint Config.model].
    by rewrite !or_else_or_else.
Qed.

(** ** The requests of the service *)

Lemma provider_is_spec (p : option string) (name : string) :
  LLMService.provider_is p name = true <-> p = Some name.
Proof.
  destruct p as [p|]; simpl; [| done].
  rewrite String.eqb_eq. split; [by intros -> | by intros [= ->]].
Qed.

(** [LLMService.sendMessage] calls [fetch] exactly when the provider is
    [openai], [anthropic] or [gemini] and the API key is not empty, or the
    provider is [custom] and the endpoint is not empty; otherwise it throws
    before any request. *)
Theorem sendMessage_requests (config : Config.t) (userMessage : string)
    (context : option string) :
  (exists r, LLMService.sendMessage config userMessage context = LLMService.Fetch r)
  <-> (hosted (Config.provider config) /\ JS.truthy (Config.apiKey config) = true)
      \/ (Config.provider config = Some "custom"
          /\ JS.truthy (Config.endpoint config) = true).
Proof.
  destruct config as [a p e m].
  unfold LLMService.sendMessage, hosted, LLMService._sendToCustom,
    LLMService._sendToOpenAI, LLMService._sendToAnthropic, LLMService._sendToGemini.
  cbn [Config.provider Config.apiKey Config.endpoint Config.model].
  destruct (LLMService.provider_is p Config.PROVIDERS.CUSTOM) eqn:Hcustom.
  { apply provider_is_spec in Hcustom as ->. rewrite andb_false_r.
    change (LLMService.provider_is (Some Config.PROVIDERS.CUSTOM) ?name)
      with (String.eqb Config.PROVIDERS.CUSTOM name).
    cbn [String.eqb Ascii.eqb Bool.eqb Config.PROVIDERS.CUSTOM Config.PROVIDERS.OPENAI
         Config.PROVIDERS.ANTHROPIC Config.PROVIDERS.GEMINI andb].
    destruct (JS.truthy e); cbn [negb].
    - split; [intros _; by right | intros _; eexists; reflexivity].
    - split; [by intros [r Hr] |].
      intros [[[Hp | [Hp | Hp]] _] | [_ Hk]]; discriminate. }
  rewrite andb_true_r.
  assert (Hnot : p <> Some "custom").
  { intros Hp. apply provider_is_spec in Hp.
    unfold Config.PROVIDERS.CUSTOM in Hcustom. congruence. }
  destruct (JS.truthy a); cbn [negb].
  2:{ split; [by intros [r Hr] |].
      intros [[_ Hk] | [Hp _]]; [discriminate | done]. }
  destruct (LLMService.provider_is p Config.PROVIDERS.OPENAI) eqn:H1.
  { apply provider_is_spec in H1.
    split; [intros _; left; split; [by left | done] | intros _; eexists; reflexivity]. }
  destruct (LLMService.provider_is p Config.PROVIDERS.ANTHROPIC) eqn:H2.
  { apply provider_is_spec in H2.
    split; [intros _; left; split; [by right; left | done] | intros _; eexists; reflexivity]. }
  destruct (LLMService.provider_is p Config.PROVIDERS.GEMINI) eqn:H3.
  { apply provider_is_spec in H3.
    split; [intros _; left; split; [by right; right | done] | intros _; eexists; reflexivity]. }
  split; [by intros [r Hr] |].
  intros [[[Hp | [Hp | Hp]] _] | [Hp _]]; [| | | done];
    apply provider_is_spec in Hp;
    unfold Config.PROVIDERS.OPENAI, Config.PROVIDERS.ANTHROPIC, Config.PROVIDERS.GEMINI in *;
    congruence.
Qed.

(** With the configuration that [Config.load] returns, the request names
    the model of the storage, and the empty string when the storage has
    none: the default model of a provider is not used, since [load] gives
    the property [model] a string, never [undefined].  For [gemini] the
    model is part of the URL. *)
Theorem stored_model_is_sent (storage : gmap string string) (userMessage : string)
    (context : option string) (r : LLMService.request) :
  LLMService.sendMessage (Config.load storage) userMessage context = LLMService.Fetch r ->
  (Config.provider (Config.load storage) <> Some "gemini" ->
   property "model" (LLMService.body r) = Some (LLMService.Str (stored_model storage)))
  /\ (Config.provider (Config.load storage) = Some "gemini" ->
      LLMService.url r
      = "https://generativelanguage.googleapis.com/v1beta/models/"
        +:+ stored_model storage +:+ ":generateContent?key="
        +:+ JS.or_else (storage !! "llm_api_key") "").
Proof.
  unfold LLMService.sendMessage, stored_model.
  cbn [Config.load Config.provider Config.apiKey Config.endpoint Config.model].
  set (provider := Some (JS.or_else (storage !! Config.STORAGE_KEYS.PROVIDER) _)).
  set (model := JS.or_else (storage !! Config.STORAGE_KEYS.MODEL) "").
  set (apiKey := JS.or_else (storage !! Config.STORAGE_KEYS.API_KEY) "").
  change (storage !! "llm_model") with (storage !! Config.STORAGE_KEYS.MODEL).
  change (storage !! "llm_api_key") with (storage !! Config.STORAGE_KEYS.API_KEY).
  fold model apiKey.
  destruct (negb _ && negb _); [done |].
  destruct (LLMService.provider_is provider Config.PROVIDERS.OPENAI) eqn:H1.
  { apply provider_is_spec in H1. intros [= <-].
    split; [done | intros Hp; rewrite H1 in Hp; discriminate]. }
  destruct (LLMService.provider_is provider Config.PROVIDERS.ANTHROPIC) eqn:H2.
  { apply provider_is_spec in H2. intros [= <-].
    split; [done | intros Hp; rewrite H2 in Hp; discriminate]. }
  destruct (LLMService.provider_is provider Config.PROVIDERS.GEMINI) eqn:H3.
  { apply provider_is_spec in H3. intros [= <-]. split; [done | done]. }
  destruct (LLMService.provider_is provider Config.PROVIDERS.CUSTOM) eqn:H4; [| done].
  unfold LLMService._sendToCustom. destruct (negb _); [done |].
  intros [= <-]. split; [done |]. intros Hp. apply provider_is_spec in Hp.
  unfold Config.PROVIDERS.GEMINI in H3. congruence.
Qed.

Lemma stored_model_is_sent_witness :
  exists r,
    LLMService.sendMessage (Config.load SampleHistory.settings) "Hi" None
    = LLMService.Fetch r
    /\ LLMService.url r
       = "https://generativelanguage.googleapis.com/v1beta/models/" +:+ ""
         +:+ ":generateContent?key=" +:+ "secret".
Proof.
  eexists. split; [vm_compute; reflexivity |].
  exact (proj2 (stored_model_is_sent SampleHistory.settings "Hi" None _ eq_refl) eq_refl).
Defined.

(** ** The chat modal *)

Lemma addMessage_effect (role content : string) (w : Modal.World) :
  Modal.modals w <> 0 ->
  exists w',
    Modal.addMessage role content w = Some w'
    /\ Modal.modals w' = Modal.modals w
    /\ Modal.chatState w' = with_message (said role content) (Modal.chatState w)
    /\ histories w'
       = saved (with_message (said role content) (Modal.chatState w)) (histories w).
Proof.
  destruct w as [[s hist tr] m lg]. cbn [Modal.modals]. intros Hm.
  unfold Modal.addMessage, Modal.appendChild. cbn [Modal.modals].
  destruct (Nat.eqb_spec m 0) as [? | _]; [done |]. cbn [mbind option_bind].
  eexists. split; [reflexivity |]. split; [reflexivity |].
  unfold Modal.saveChatHistory, Chat.saveChatHistory, histories, saved, Modal.chatState,
    with_message, entry_of, said.
  cbn. by destruct (Chat.currentPage s).
Qed.

Lemma addMessage_none (role content : string) (w : Modal.World) :
  Modal.modals w = 0 -> Modal.addMessage role content w = None.
Proof.
  intros Hm. unfold Modal.addMessage, Modal.appendChild. by rewrite Hm.
Qed.

Lemma settle_effect (thrown : option string) (w : Modal.World) :
  Modal.modals (Modal.settle thrown w) = Modal.modals w
  /\ Modal.chatState (Modal.settle thrown w) = typing false (Modal.chatState w)
  /\ histories (Modal.settle thrown w) = histories w.
Proof.
  unfold Modal.settle, Modal.addErrorMessage, Modal.appendChild.
  destruct thrown as [message|]; [| done]. cbn.
  by destruct (Modal.modals w =? 0)%nat.
Qed.

Lemma sendMessage_effect (input : string) (w : Modal.World) :
  Modal.modals w <> 0 ->
  JS.trim input <> "" ->
  Chat.isTyping (Modal.chatState w) = false ->
  exists w',
    Modal.sendMessage input w = (w', Modal.AwaitingConfig (JS.trim input))
    /\ Modal.modals w' = Modal.modals w
    /\ Modal.chatState w'
       = typing true (with_message (said "user" (JS.trim input)) (Modal.chatState w))
    /\ histories w'
       = saved (with_message (said "user" (JS.trim input)) (Modal.chatState w))
           (histories w).
Proof.
  intros Hm Hmessage Htyping. unfold Modal.sendMessage.
  destruct (Nat.eqb_spec (Modal.modals w) 0) as [? | _]; [done |].
  rewrite Htyping, orb_false_r.
  assert (Htruthy : JS.truthy (Some (JS.trim input)) = true)
    by (by destruct (JS.trim input)).
  rewrite Htruthy. cbn [negb].
  destruct (addMessage_effect "user" (JS.trim input) w Hm) as (w1 & -> & Hm1 & Hs1 & Hh1).
  eexists. split; [reflexivity |]. split; [done |].
  split; [| done].
  change (typing true (Modal.chatState w1)
          = typing true (with_message (said "user" (JS.trim input)) (Modal.chatState w))).
  by rewrite Hs1.
Qed.

Lemma sendMessage_configured_effect (message : string) (config : Config.t)
    (w : Modal.World) :
  let call := LLMService.sendMessage config message (Chat.pageContent (Modal.chatState w)) in
  let w' := fst (Modal.sendMessage_configured message config w) in
  Modal.modals w' = Modal.modals w
  /\ histories w' = histories w
  /\ match call with
     | LLMService.Fetch r =>
         snd (Modal.sendMessage_configured message config w) = Modal.AwaitingReply r
         /\ Modal.chatState w' = Modal.chatState w
     | LLMService.Error _ =>
         snd (Modal.sendMessage_configured message config w) = Modal.Returned
         /\ Modal.chatState w' = typing false (Modal.chatState w)
     end.
Proof.
  cbv zeta. unfold Modal.sendMessage_configured, LLMService.sendMessage.
  destruct (negb _ && negb _).
  - unfold Modal.addSettingsHint, Modal.appendChild.
    destruct (Modal.modals w =? 0)%nat; cbn [fst snd].
    + by destruct (settle_effect (Some Modal.no_element) w) as (-> & -> & ->).
    + match goal with |- context [Modal.settle None ?x] =>
        destruct (settle_effect None x) as (-> & -> & ->) end.
      done.
  - fold (LLMService.sendMessage config message (Chat.pageContent (Modal.chatState w))).
    set (call := LLMService._sendToOpenAI _ _ _ _).
    match goal with |- context [match ?c with LLMService.Error _ => _ | _ => _ end] =>
      destruct c as [e | r] end; cbn [fst snd].
    + by destruct (settle_effect (Some e) w) as (-> & -> & ->).
    + done.
Qed.

Lemma sendMessage_replied_effect (answer : Modal.reply) (w : Modal.World) :
  Modal.modals w <> 0 ->
  let s := match answer with
           | Modal.Resolved response =>
               with_message (said "assistant" response) (Modal.chatState w)
           | Modal.Rejected _ => Modal.chatState w
           end in
  Modal.modals (Modal.sendMessage_replied answer w) = Modal.modals w
  /\ Modal.chatState (Modal.sendMessage_replied answer w) = typing false s
  /\ histories (Modal.sendMessage_replied answer w)
     = match answer with
       | Modal.Resolved _ => saved s (histories w)
       | Modal.Rejected _ => histories w
       end.
Proof.
  intros Hm. cbv zeta. unfold Modal.sendMessage_replied.
  destruct answer as [response | message].
  - destruct (addMessage_effect "assistant" response w Hm) as (w1 & -> & Hm1 & Hs1 & Hh1).
    destruct (settle_effect None w1) as (-> & -> & ->). by rewrite Hs1.
  - by destruct (settle_effect (Some message) w) as (-> & -> & ->).
Qed.

Lemma saved_lookup (s : Chat.ChatState) (hist : gmap string Chat.Entry.t)
    (page : Chrome.HistoryItem) :
  Chat.currentPage s = Some page ->
  saved s hist !! Chrome.url page = Some (entry_of s).
Proof. intros Hpage. unfold saved. rewrite Hpage. apply lookup_insert_eq. Qed.

(** A call of [sendMessage] in an open modal that runs to its end.  On an
    input that is empty once trimmed, or while an answer is awaited, it
    changes nothing.  Otherwise it appends the trimmed input to the
    transcript as the message of the user, and after it the answer of the
    assistant when the stored configuration makes the service send a
    request and the network resolves it; the typing flag is cleared
    whatever happened, the page and its content are as before, and the
    entry of the page holds the new transcript. *)
Theorem sendMessage_transcript (storage : gmap string string)
    (network : LLMService.request -> Modal.reply) (input : string) (w : Modal.World) :
  Modal.modals w <> 0 ->
  let message := JS.trim input in
  let before := Modal.chatState w in
  let w' := Modal.sendMessage_whole storage network input w in
  let after := Modal.chatState w' in
  (message = "" \/ Chat.isTyping before = true -> w' = w)
  /\ (message <> "" -> Chat.isTyping before = false ->
      Chat.isTyping after = false
      /\ Chat.currentPage after = Chat.currentPage before
      /\ Chat.pageContent after = Chat.pageContent before
      /\ Chat.messages after
         = Chat.messages before ++ said "user" message
           :: match answered storage network message (Chat.pageContent before) with
              | Some response => [said "assistant" response]
              | None => []
              end
      /\ (forall page, Chat.currentPage before = Some page ->
            Chat.get (Chrome.url page) (Modal.chat w') = Some (entry_of after))).
Proof.
  intros Hm. cbv zeta. split.
  - unfold Modal.sendMessage_whole, Modal.sendMessage.
    destruct (Nat.eqb_spec (Modal.modals w) 0) as [? | _]; [done |].
    intros [-> | ->]; [done | by rewrite orb_true_r].
  - intros Hmessage Htyping. unfold Modal.sendMessage_whole.
    destruct (sendMessage_effect input w Hm Hmessage Htyping)
      as (w1 & -> & Hm1 & Hs1 & Hh1).
    pose proof (sendMessage_configured_effect (JS.trim input) (Config.load storage) w1)
      as (Hm2 & Hh2 & Hcall).
    destruct (Modal.sendMessage_configured _ _ w1) as [w2 p]. cbn [fst snd] in *.
    unfold answered. rewrite Hs1 in Hcall. cbn [typing with_message Chat.pageContent] in Hcall.
    destruct (LLMService.sendMessage _ _ _) as [e | r]; destruct Hcall as [-> Hs2];
      cbv beta iota.
    + rewrite Hs2. cbn. repeat split.
      intros page Hpage. unfold Chat.get. fold (histories w2).
      rewrite Hh2, Hh1. by rewrite (saved_lookup _ _ page).
    + assert (Hm2' : Modal.modals w2 <> 0) by congruence.
      pose proof (sendMessage_replied_effect (network r) w2 Hm2') as (_ & Hs3 & Hh3).
      cbv zeta in Hs3. rewrite Hs2 in Hs3, Hh3. rewrite Hh2, Hh1 in Hh3.
      unfold Chat.get.
      change (Chat.chatHistories (Modal.chat ?x)) with (histories x).
      rewrite Hs3. clear Hs3.
      destruct (network r) as [response | message]; rewrite Hh3; cbn;
        rewrite <- ?app_assoc; repeat split;
        intros page Hpage; rewrite (saved_lookup _ _ page) by done;
        unfold entry_of; cbn; by rewrite <- ?app_assoc.
Qed.

Lemma sendMessage_transcript_witness :
  Chat.messages
    (Modal.chatState
       (Modal.sendMessage_whole SampleHistory.settings SampleHistory.network
          "  What is this?  " SampleHistory.open_chat))
  = [said "user" "hello"; said "user" "What is this?";
     said "assistant" "It is an example page."].
Proof.
  assert (Hmodal : Modal.modals SampleHistory.open_chat <> 0) by discriminate.
  assert (Hinput : JS.trim "  What is this?  " <> "") by discriminate.
  exact (proj1 (proj2 (proj2 (proj2
           (proj2 (sendMessage_transcript SampleHistory.settings SampleHistory.network
                     "  What is this?  " SampleHistory.open_chat Hmodal)
              Hinput eq_refl))))).
Defined.

Lemma log_renderExistingMessages (w : Modal.World) :
  Modal.chat (Modal.renderExistingMessages w) = Modal.chat w
  /\ Modal.modals (Modal.renderExistingMessages w) = Modal.modals w.
Proof.
  unfold Modal.renderExistingMessages.
  generalize (Chat.messages (Modal.chatState w)). intros msgs. revert w.
  induction msgs as [|msg msgs IH]; intros w; [done |]. simpl.
  by destruct (IH (Modal.emit (Modal.MessageElement (Chat.Message.role msg)
                                 (Chat.Message.content msg)) w)) as [-> ->].
Qed.

Lemma openChatModal_effect `{URLParser} (item : Chrome.HistoryItem) (w : Modal.World) :
  Modal.chatState (Modal.openChatModal item w)
  = opened item (histories w !! Chrome.url item)
  /\ histories (Modal.openChatModal item w) = histories w
  /\ Modal.modals (Modal.openChatModal item w)
     = match url_hostname (Chrome.url item) with
       | Some _ => Modal.modals w + 1
       | None => Modal.modals w
       end.
Proof.
  unfold Modal.openChatModal, Chat.get, histories, Modal.chatState.
  set (w1 := Modal.set_chatState _ w).
  assert (H1 : Chat.chatState (Modal.chat w1)
               = opened item (Chat.chatHistories (Modal.chat w) !! Chrome.url item)).
  { subst w1. cbn. by destruct (Chat.chatHistories (Modal.chat w) !! Chrome.url item). }
  assert (H2 : Chat.chatHistories (Modal.chat w1) = Chat.chatHistories (Modal.chat w))
    by done.
  assert (H3 : Modal.modals w1 = Modal.modals w) by done.
  clearbody w1.
  destruct (url_hostname (Chrome.url item)) as [domain|]; [| done].
  set (w2 := if JS.truthy _ then _ else _).
  assert (Hw2 : Modal.chat w2 = Modal.chat w1 /\ Modal.modals w2 = Modal.modals w1 + 1).
  { subst w2. unfold Modal.renderExistingContent. cbn.
    destruct (JS.truthy _); [| done].
    by destruct (Chat.pageContent _) as [[|c s]|]. }
  destruct Hw2 as [Hc2 Hm2]. clearbody w2.
  destruct (0 <? _)%nat.
  - destruct (log_renderExistingMessages w2) as [-> ->].
    rewrite Hc2, Hm2. by rewrite H1, H2, H3.
  - rewrite Hc2, Hm2. by rewrite H1, H2, H3.
Qed.

(** A chat that is saved comes back when its page is opened again, after
    any other page was opened: the transcript is the one saved, and so is
    the page content unless it is the empty string, which is read as
    [null]. *)
Theorem reopened_chat `{URLParser} (w : Modal.World) (page again other : Chrome.HistoryItem) :
  Chat.currentPage (Modal.chatState w) = Some page ->
  Chrome.url again = Chrome.url page ->
  let w' := Modal.openChatModal again
              (Modal.openChatModal other (Modal.saveChatHistory w)) in
  Chat.currentPage (Modal.chatState w') = Some again
  /\ Chat.messages (Modal.chatState w') = Chat.messages (Modal.chatState w)
  /\ Chat.pageContent (Modal.chatState w')
     = (if JS.truthy (Chat.pageContent (Modal.chatState w))
        then Chat.pageContent (Modal.chatState w) else None)
  /\ Chat.isTyping (Modal.chatState w') = false.
Proof.
  intros Hpage Hurl. cbv zeta.
  destruct (openChatModal_effect again
              (Modal.openChatModal other (Modal.saveChatHistory w))) as (-> & _ & _).
  destruct (openChatModal_effect other (Modal.saveChatHistory w)) as (_ & -> & _).
  unfold histories, Modal.saveChatHistory, Chat.saveChatHistory.
  unfold Modal.chatState in *. cbn [Modal.chat]. rewrite Hpage.
  cbn [Chat.chatHistories]. rewrite Hurl, lookup_insert_eq. done.
Qed.

Lemma reopened_chat_witness :
  Chat.messages
    (Modal.chatState
       (@Modal.openChatModal PlainURL.parser (SampleHistory.item "https://example.com/")
          (@Modal.openChatModal PlainURL.parser
             (SampleHistory.item "https://news.site.org/")
             (Modal.saveChatHistory SampleHistory.open_chat))))
  = [said "user" "hello"].
Proof.
  exact (proj1 (proj2
           (@reopened_chat PlainURL.parser SampleHistory.open_chat
              (SampleHistory.item "https://example.com/")
              (SampleHistory.item "https://example.com/")
              (SampleHistory.item "https://news.site.org/") eq_refl eq_refl))).
Defined.

(** An answer belongs to the page that is open when it arrives.  When a
    question is sent from the chat of one page and, before the answer
    arrives, the modal is closed and the chat of another page is opened,
    [sendMessage] appends the answer to the transcript of the other page
    and saves it under that page; the entry of the first page keeps the
    question without its answer. *)
Theorem answer_after_switch `{URLParser} (w : Modal.World) (page other : Chrome.HistoryItem)
    (input : string) (config : Config.t) (r : LLMService.request) (response : string) :
  Modal.modals w <> 0 ->
  Chat.currentPage (Modal.chatState w) = Some page ->
  Chat.isTyping (Modal.chatState w) = false ->
  JS.trim input <> "" ->
  LLMService.sendMessage config (JS.trim input) (Chat.pageContent (Modal.chatState w))
  = LLMService.Fetch r ->
  Chrome.url other <> Chrome.url page ->
  is_Some (url_hostname (Chrome.url other)) ->
  let asked := fst (Modal.sendMessage input w) in
  let sent := fst (Modal.sendMessage_configured (JS.trim input) config asked) in
  let switched := Modal.openChatModal other (Modal.remove (Modal.closeChatModal sent)) in
  let w' := Modal.sendMessage_replied (Modal.Resolved response) switched in
  snd (Modal.sendMessage_configured (JS.trim input) config asked) = Modal.AwaitingReply r
  /\ Chat.currentPage (Modal.chatState w') = Some other
  /\ Chat.get (Chrome.url page) (Modal.chat w')
     = Some {| Chat.Entry.messages :=
                 Chat.messages (Modal.chatState w) ++ [said "user" (JS.trim input)];
               Chat.Entry.content := Chat.pageContent (Modal.chatState w) |}
  /\ Chat.get (Chrome.url other) (Modal.chat w')
     = Some {| Chat.Entry.messages :=
                 Chat.messages (opened other (histories w !! Chrome.url other))
                 ++ [said "assistant" response];
               Chat.Entry.content :=
                 Chat.pageContent (opened other (histories w !! Chrome.url other)) |}.
Proof.
  intros Hm Hpage Htyping Hmessage Hcall Hother Hparse. cbv zeta.
  destruct (sendMessage_effect input w Hm Hmessage Htyping) as (w1 & -> & Hm1 & Hs1 & Hh1).
  cbn [fst].
  pose proof (sendMessage_configured_effect (JS.trim input) config w1) as (Hm2 & Hh2 & Hc).
  rewrite Hs1 in Hc. cbn [typing with_message Chat.pageContent] in Hc.
  rewrite Hcall in Hc. destruct Hc as [Hp Hs2].
  set (w2 := fst (Modal.sendMessage_configured (JS.trim input) config w1)) in *.
  split; [done |].
  set (w3 := Modal.openChatModal other (Modal.remove (Modal.closeChatModal w2))).
  destruct (openChatModal_effect other (Modal.remove (Modal.closeChatModal w2)))
    as (Hs3 & Hh3 & Hm3).
  fold w3 in Hs3, Hh3, Hm3.
  change (histories (Modal.remove (Modal.closeChatModal w2))) with (histories w2)
    in Hs3, Hh3.
  assert (Hb : histories w2 !! Chrome.url other = histories w !! Chrome.url other).
  { rewrite Hh2, Hh1. unfold saved. cbn [with_message Chat.currentPage].
    rewrite Hpage. by rewrite lookup_insert_ne. }
  rewrite Hb in Hs3.
  assert (Hm3' : Modal.modals w3 <> 0).
  { rewrite Hm3. destruct Hparse as [domain ->]. lia. }
  pose proof (sendMessage_replied_effect (Modal.Resolved response) w3 Hm3')
    as (_ & Hs4 & Hh4).
  cbv zeta in Hs4. rewrite Hs3 in Hs4, Hh4. rewrite Hh3, Hh2, Hh1 in Hh4.
  unfold Chat.get. change (Chat.chatHistories (Modal.chat ?x)) with (histories x).
  rewrite Hs4, Hh4. split; [done |].
  split.
  - unfold saved at 1. cbn [with_message opened Chat.currentPage].
    rewrite lookup_insert_ne by done. by rewrite (saved_lookup _ _ page).
  - by rewrite (saved_lookup _ _ other).
Qed.

Lemma answer_after_switch_witness :
  let page := SampleHistory.item "https://example.com/" in
  let other := SampleHistory.item "https://news.site.org/" in
  let asked := fst (Modal.sendMessage "What is this?" SampleHistory.open_chat) in
  let sent :=
    fst (Modal.sendMessage_configured "What is this?"
           (Config.load SampleHistory.settings) asked) in
  let switched :=
    @Modal.openChatModal PlainURL.parser other (Modal.remove (Modal.closeChatModal sent)) in
  let w' := Modal.sendMessage_replied (Modal.Resolved "It is an example page.") switched in
  Chat.get "https://example.com/" (Modal.chat w')
  = Some {| Chat.Entry.messages := [said "user" "hello"; said "user" "What is this?"];
            Chat.Entry.content := None |}
  /\ Chat.get "https://news.site.org/" (Modal.chat w')
     = Some {| Chat.Entry.messages :=
                 [said "user" "summary?"; said "assistant" "It is an example page."];
               Chat.Entry.content := None |}.
Proof.
  assert (Hmodal : Modal.modals SampleHistory.open_chat <> 0) by discriminate.
  assert (Hinput : JS.trim "What is this?" <> "") by discriminate.
  assert (Hother : Chrome.url (SampleHistory.item "https://news.site.org/")
                   <> Chrome.url (SampleHistory.item "https://example.com/"))
    by discriminate.
  assert (Hparse : is_Some (PlainURL.hostname "https://news.site.org/"))
    by (eexists; reflexivity).
  exact (proj2 (proj2
           (@answer_after_switch PlainURL.parser SampleHistory.open_chat
              (SampleHistory.item "https://example.com/")
              (SampleHistory.item "https://news.site.org/")
              "What is this?" (Config.load SampleHistory.settings) _
              "It is an example page."
              Hmodal eq_refl eq_refl Hinput eq_refl Hother Hparse))).
Defined.

(** [clearAllChats] empties the store and leaves the transcript of the
    open chat in [chatState]: the next message is appended to it, and
    [addMessage] saves the whole of it again, so that the store then holds
    one entry, with every message that the chat had before the clearing. *)
Theorem cleared_transcript_returns (w : Modal.World) (page : Chrome.HistoryItem)
    (role content : string) :
  Modal.modals w <> 0 ->
  Chat.currentPage (Modal.chatState w) = Some page ->
  histories (Modal.clearAllChats true w) = ∅
  /\ exists w',
       Modal.addMessage role content (Modal.clearAllChats true w) = Some w'
       /\ histories w'
          = {[ Chrome.url page :=
                 {| Chat.Entry.messages :=
                      Chat.messages (Modal.chatState w) ++ [said role content];
                    Chat.Entry.content := Chat.pageContent (Modal.chatState w) |} ]}.
Proof.
  intros Hm Hpage.
  assert (Hcleared : histories (Modal.clearAllChats true w) = ∅
                     /\ Modal.chatState (Modal.clearAllChats true w) = Modal.chatState w
                     /\ Modal.modals (Modal.clearAllChats true w) = Modal.modals w).
  { unfold histories, Modal.clearAllChats, Chat.clearAllChats, Modal.chatState.
    cbn [Modal.chat Modal.modals].
    destruct (Nat.eqb_spec (size (Chat.chatHistories (Modal.chat w))) 0) as [Hsize | _].
    - apply map_size_empty_iff in Hsize. by rewrite <- Hsize.
    - done. }
  destruct Hcleared as (Hh & Hs & Hm'). split; [done |].
  destruct (addMessage_effect role content (Modal.clearAllChats true w))
    as (w' & -> & _ & _ & Hh'); [congruence |].
  exists w'. split; [done |]. rewrite Hh', Hh, Hs. unfold saved.
  cbn [with_message Chat.currentPage]. rewrite Hpage. by rewrite insert_empty.
Qed.

Lemma cleared_transcript_returns_witness :
  histories (Modal.clearAllChats true SampleHistory.open_chat) = ∅
  /\ exists w',
       Modal.addMessage "user" "again" (Modal.clearAllChats true SampleHistory.open_chat)
       = Some w'
       /\ histories w'
          = {[ "https://example.com/" :=
                 {| Chat.Entry.messages := [said "user" "hello"; said "user" "again"];
                    Chat.Entry.content := None |} ]}.
Proof.
  assert (Hmodal : Modal.modals SampleHistory.open_chat <> 0) by discriminate.
  exact (cleared_transcript_returns SampleHistory.open_chat
           (SampleHistory.item "https://example.com/") "user" "again" Hmodal eq_refl).
Defined.

(** ** Time, summary and chart *)

Lemma div_pos_ltb (a k : Z) : (0 < k)%Z -> (0 <? a / k)%Z = (k <=? a)%Z.
Proof.
  intros Hk. destruct (Z.leb_spec k a) as [Hle | Hlt].
  - apply Z.ltb_lt. apply Z.lt_le_trans with 1%Z; [lia |].
    apply Z.div_le_lower_bound; lia.
  - apply Z.ltb_ge. apply Z.lt_succ_r. apply Z.div_lt_upper_bound; lia.
Qed.

Lemma ago_units (n : Z) (unit : string) :
  Feed.ago n unit
  = units_ago n ("1 " +:+ unit +:+ " ago") (" " +:+ unit +:+ "s ago").
Proof.
  unfold Feed.ago, units_ago. destruct (Z.eqb_spec n 1) as [-> | Hn].
  - by rewrite decide_True.
  - by rewrite decide_False.
Qed.

(** [formatTimeAgo] by the time elapsed, in milliseconds: [Just now]
    below one minute, and so for a time that is not yet reached; then the
    whole minutes below one hour, the whole hours below one day, the whole
    days below 7 days, the whole weeks below 30 days, the months of 30 days
    below 365 days, and the years of 365 days from there on, each in the
    singular for the number 1 and with an [s] for any other. *)
Theorem formatTimeAgo_units (now timestamp : Z) :
  let elapsed := (now - timestamp)%Z in
  let text := Feed.formatTimeAgo now timestamp in
  ((elapsed < minute)%Z -> text = "Just now")
  /\ ((minute <= elapsed < hour)%Z
      -> text = units_ago (elapsed / minute) "1 minute ago" " minutes ago")
  /\ ((hour <= elapsed < day)%Z
      -> text = units_ago (elapsed / hour) "1 hour ago" " hours ago")
  /\ ((day <= elapsed < 7 * day)%Z
      -> text = units_ago (elapsed / day) "1 day ago" " days ago")
  /\ ((7 * day <= elapsed < 30 * day)%Z
      -> text = units_ago (elapsed / (7 * day)) "1 week ago" " weeks ago")
  /\ ((30 * day <= elapsed < 365 * day)%Z
      -> text = units_ago (elapsed / (30 * day)) "1 month ago" " months ago")
  /\ ((365 * day <= elapsed)%Z
      -> text = units_ago (elapsed / (365 * day)) "1 year ago" " years ago")
  /\ (elapsed = (90 * minute)%Z -> text = "1 hour ago")
  /\ (elapsed = (3 * day)%Z -> text = "3 days ago").
Proof.
  cbv zeta. unfold Feed.formatTimeAgo, minute, hour, day.
  set (d := (now - timestamp)%Z).
  rewrite !Z.div_div by lia.
  rewrite !div_pos_ltb by lia.
  change (1000 * 60)%Z with 60000%Z.
  change (60000 * 60)%Z with 3600000%Z.
  change (3600000 * 24)%Z with 86400000%Z.
  change (86400000 * 7)%Z with 604800000%Z.
  change (86400000 * 30)%Z with 2592000000%Z.
  change (86400000 * 365)%Z with 31536000000%Z.
  change (7 * 86400000)%Z with 604800000%Z.
  change (30 * 86400000)%Z with 2592000000%Z.
  change (365 * 86400000)%Z with 31536000000%Z.
  rewrite !ago_units.
  split; [| split; [| split; [| split; [| split; [| split; [| split; [| split]]]]]]];
    intros Hd;
    try (rewrite Hd; reflexivity);
    repeat match goal with
           | |- context [(?k <=? d)%Z] => destruct (Z.leb_spec k d); try lia
           end; reflexivity.
Qed.

Lemma fetchHistory_filter `{RegExpEngine} `{URLParser} (rules : Blacklist.Rules)
    (items : list Chrome.HistoryItem) :
  Stats.fetchHistory rules items
  = Ok (List.filter (fun item => negb (blacklisted rules item)) items).
Proof.
  induction items as [|item items IH]; [done |].
  change (Stats.fetchHistory rules (item :: items))
    with (Stats.allowed rules item (Stats.fetchHistory rules items)).
  rewrite IH. unfold Stats.allowed. cbn [List.filter].
  replace (blacklisted rules item)
    with (match Blacklist.matches rules (Chrome.url item) with
          | Ok true => true
          | _ => false
          end) by reflexivity.
  by destruct (matches_returns rules (Chrome.url item)) as [[] ->].
Qed.

Lemma list_sum_perm (l l' : list nat) : Permutation l l' -> list_sum l = list_sum l'.
Proof. induction 1; simpl; lia. Qed.

Section Counting.
Context `{URLParser}.

Lemma records_of_length_snoc (d : string) items item :
  length (records_of d (items ++ [item]))
  = length (records_of d items) + (if in_domain d item then 1 else 0).
Proof. rewrite records_of_snoc, length_app. by destruct (in_domain d item). Qed.

Lemma sum_one_more (f : string -> nat) (p : string -> bool) (keys : list string) :
  list_sum (map (fun d => f d + (if p d then 1 else 0)) keys)
  = list_sum (map f keys) + length (List.filter p keys).
Proof.
  induction keys as [|k keys IH]; [done |]. simpl. rewrite IH.
  destruct (p k); simpl; lia.
Qed.

Lemma filter_in_domain (item : Chrome.HistoryItem) (keys : list string) :
  List.NoDup keys ->
  (forall d, In d keys -> d <> "") ->
  length (List.filter (fun d => in_domain d item) keys)
  = match grouped_domain item with
    | Some d => if existsb (String.eqb d) keys then 1 else 0
    | None => 0
    end.
Proof.
  induction keys as [|k keys IH]; intros Hnodup Hkeys.
  - by destruct (grouped_domain item).
  - apply List.NoDup_cons_iff in Hnodup as [Hk Hnodup].
    assert (Hk' : k <> "") by (apply Hkeys; by left).
    specialize (IH Hnodup (fun d Hd => Hkeys d (or_intror Hd))).
    cbn [List.filter existsb]. destruct (in_domain k item) eqn:Hin.
    + apply in_domain_grouped in Hin; [| done]. rewrite Hin in *.
      rewrite String.eqb_refl. cbn [orb length]. rewrite IH.
      apply existsb_eqb_not_In in Hk. by rewrite Hk.
    + rewrite IH. destruct (grouped_domain item) as [d|] eqn:Hg; [| done].
      destruct (String.eqb_spec d k) as [-> | _]; [| done].
      apply in_domain_grouped in Hg; [congruence | done].
Qed.

Lemma counted_once (items : list Chrome.HistoryItem) :
  list_sum (map (fun d => length (records_of d items)) (domains_of items))
  = length (omap grouped_domain items).
Proof.
  induction items as [|item items IH] using rev_ind; [done |].
  rewrite omap_app, length_app, <- IH.
  change (omap grouped_domain [item])
    with (match grouped_domain item with Some d => [d] | None => [] end).
  rewrite (map_ext _ _ (fun d => records_of_length_snoc d items item)), sum_one_more.
  rewrite domains_of_snoc.
  destruct (grouped_domain item) as [d|] eqn:Hg.
  - unfold Stats.set_add.
    destruct (existsb (String.eqb d) (domains_of items)) eqn:Hd.
    + rewrite filter_in_domain, Hg, Hd; [done | apply distinct_NoDup |].
      intros k. apply domains_of_nonempty.
    + rewrite map_app, list_sum_app, List.filter_app, length_app.
      rewrite filter_in_domain, Hg, Hd; [| apply distinct_NoDup |].
      2:{ intros k. apply domains_of_nonempty. }
      cbn [map List.filter list_sum length].
      assert (Hin : in_domain d item = true).
      { apply in_domain_grouped; [| done]. unfold grouped_domain in Hg.
        destruct (Stats.getRootDomain _) as [d'|]; [| done].
        destruct (String.eqb_spec d' ""); congruence. }
      rewrite Hin. apply existsb_eqb_not_In in Hd.
      rewrite records_of_absent; [simpl; lia | | done].
      unfold grouped_domain in Hg.
      destruct (Stats.getRootDomain _) as [d'|]; [| done].
      destruct (String.eqb_spec d' ""); congruence.
  - rewrite filter_in_domain, Hg; [simpl; lia | apply distinct_NoDup |].
    intros k. apply domains_of_nonempty.
Qed.

End Counting.

(** The visit counts of the statistics add up to the number of records
    that have a root domain that is not empty: every such record is
    counted once, under one domain, and the sum is at most the number of
    records, of which the percentages are taken. *)
Theorem visit_counts_add_up `{URLParser} `{HistoryAPI} (items : list Chrome.HistoryItem) :
  list_sum (map Stats.visitCount (Stats.processDomainData items))
  = length (omap grouped_domain items)
  /\ list_sum (map Stats.visitCount (Stats.processDomainData items)) <= length items.
Proof.
  assert (Hsum : list_sum (map Stats.visitCount (Stats.processDomainData items))
                 = length (omap grouped_domain items)).
  { unfold Stats.processDomainData, Stats.sort_desc.
    rewrite (list_sum_perm _ _ (Permutation_map _ (sort_perm _ _))).
    rewrite grouping, !map_map. cbn [fst snd Stats.resolve Stats.visitCount grouped].
    apply counted_once. }
  split; [done |]. rewrite Hsum. clear.
  induction items as [|item items IH]; [done |]. cbn [omap list_omap].
  destruct (grouped_domain item); simpl; lia.
Qed.

Lemma processDomainData_order `{URLParser} `{HistoryAPI} (items : list Chrome.HistoryItem) :
  StronglySorted more_visits (Stats.processDomainData items).
Proof.
  unfold Stats.processDomainData, Stats.sort_desc, more_visits.
  eapply sorted_weaken; [| apply sort_sorted].
  - intros a b Hab. by apply Nat.leb_le in Hab.
  - intros a b. rewrite !Nat.leb_le. lia.
  - intros a b c. rewrite !Nat.leb_le. lia.
Qed.

Lemma processDomainData_domains `{URLParser} `{HistoryAPI} (items : list Chrome.HistoryItem) :
  List.NoDup (map Stats.domain (Stats.processDomainData items)).
Proof.
  assert (Hperm : Permutation (map Stats.domain (Stats.processDomainData items))
                    (domains_of items)).
  { unfold Stats.processDomainData, Stats.sort_desc.
    rewrite sort_perm, grouping, !map_map.
    cbn [fst snd Stats.resolve Stats.domain grouped]. by rewrite map_id. }
  eapply Permutation_NoDup; [symmetry; exact Hperm | apply distinct_NoDup].
Qed.

Lemma processDomainData_length `{URLParser} `{HistoryAPI} (items : list Chrome.HistoryItem) :
  length (Stats.processDomainData items) = length (domains_of items).
Proof.
  unfold Stats.processDomainData, Stats.sort_desc.
  rewrite (Permutation_length (sort_perm _ _)), grouping. by rewrite !length_map.
Qed.

Lemma sorted_app {A : Type} (R : A -> A -> Prop) (l1 l2 : list A) :
  StronglySorted R (l1 ++ l2) ->
  forall a b, In a l1 -> In b l2 -> R a b.
Proof.
  induction l1 as [|x l1 IH]; [done |]. simpl.
  intros Hs a b [<- | Ha] Hb.
  - apply StronglySorted_inv in Hs as [_ Hx].
    eapply List.Forall_forall in Hx; [exact Hx |]. apply in_or_app. by right.
  - apply StronglySorted_inv in Hs as [Hs _]. by apply IH.
Qed.

Lemma top_split (topN : Stats.count) (domainData : list Stats.DomainData) :
  exists hidden,
    domainData = Stats.top topN domainData ++ hidden
    /\ length (Stats.top topN domainData)
       = match topN with
         | Stats.Finite n => Nat.min n (length domainData)
         | Stats.Infinity => length domainData
         end.
Proof.
  destruct topN as [n|]; simpl.
  - exists (skipn n domainData). unfold JS.slice. rewrite Nat.sub_0_r. simpl.
    by rewrite firstn_skipn, length_firstn.
  - exists []. by rewrite app_nil_r.
Qed.

(** The chart shows the first [topN] objects of the statistics, all of
    them when there are fewer or when [topN] is [Infinity]: its labels are
    distinct domains, its values are their visit counts in descending
    order, and no domain left out has more visits than a domain shown. *)
Theorem chart_shows_most_visited `{URLParser} `{HistoryAPI}
    (items : list Chrome.HistoryItem) (topN : Stats.count)
    (labels : list string) (visitCounts : list nat) (title : string) :
  Stats.renderChart topN (Stats.processDomainData items)
  = Some (labels, visitCounts, title) ->
  exists shown hidden,
    Stats.processDomainData items = shown ++ hidden
    /\ labels = map Stats.domain shown
    /\ visitCounts = map Stats.visitCount shown
    /\ length shown
       = match topN with
         | Stats.Finite n => Nat.min n (length (domains_of items))
         | Stats.Infinity => length (domains_of items)
         end
    /\ (forall a b, In a shown -> In b hidden ->
          Stats.visitCount b <= Stats.visitCount a)
    /\ StronglySorted ge visitCounts
    /\ List.NoDup labels.
Proof.
  unfold Stats.renderChart.
  destruct (top_split topN (Stats.processDomainData items)) as (hidden & Hsplit & Hlen).
  set (shown := Stats.top topN (Stats.processDomainData items)) in *.
  destruct (length shown =? 0)%nat; [done |].
  intros [= <- <- <-]. exists shown, hidden.
  pose proof (processDomainData_order items) as Hsorted.
  pose proof (processDomainData_domains items) as Hnodup.
  rewrite Hsplit in Hsorted, Hnodup. rewrite <- (processDomainData_length items).
  repeat split; try done.
  - intros a b Ha Hb. by apply (sorted_app _ _ _ Hsorted).
  - clear -Hsorted. induction shown as [|x shown IH]; [constructor |].
    simpl in *. apply StronglySorted_inv in Hsorted as [Hs Hx].
    constructor; [by apply IH |].
    rewrite List.Forall_forall in *. intros n (b & <- & Hb)%in_map_iff.
    apply Hx, in_or_app. by left.
  - rewrite map_app in Hnodup. by apply List.NoDup_app_remove_r in Hnodup.
Qed.

Lemma chart_shows_most_visited_witness :
  exists shown hidden,
    @Stats.processDomainData PlainURL.parser SampleHistory.api SampleHistory.items
    = shown ++ hidden
    /\ ["example.com"] = map Stats.domain shown
    /\ [2] = map Stats.visitCount shown
    /\ length shown
       = Nat.min 1 (length (@domains_of PlainURL.parser SampleHistory.items))
    /\ (forall a b, In a shown -> In b hidden ->
          Stats.visitCount b <= Stats.visitCount a)
    /\ StronglySorted ge [2]
    /\ List.NoDup ["example.com"].
Proof.
  apply (@chart_shows_most_visited PlainURL.parser SampleHistory.api SampleHistory.items
           (Stats.Finite 1) ["example.com"] [2] "Top 1 Most Visited Domains").
  vm_compute. reflexivity.
Defined.

(** The summary: the number of unique domains is the number of root
    domains of the records, and the top domain is [N/A] when there is
    none, and otherwise the domain of an object of the statistics that no
    other object exceeds in visits. *)
Theorem summary_most_visited `{URLParser} `{HistoryAPI}
    (items : list Chrome.HistoryItem) (totalVisits : nat) :
  let domainData := Stats.processDomainData items in
  let summary := Stats.updateSummaryStats domainData totalVisits in
  Stats.uniqueDomains summary = length (domains_of items)
  /\ (domains_of items = [] -> Stats.topDomain summary = "N/A")
  /\ (domains_of items <> [] ->
      exists first,
        In first domainData
        /\ Stats.topDomain summary = Stats.domain first
        /\ forall data, In data domainData ->
             Stats.visitCount data <= Stats.visitCount first).
Proof.
  cbv zeta. pose proof (processDomainData_length items) as Hcount.
  pose proof (processDomainData_order items) as Hsorted.
  unfold Stats.updateSummaryStats. cbn [Stats.uniqueDomains Stats.topDomain].
  split; [done |]. split.
  - intros Hnone. rewrite Hnone in Hcount.
    by destruct (Stats.processDomainData items).
  - intros Hsome.
    destruct (Stats.processDomainData items) as [|first rest].
    { destruct (domains_of items); [done | discriminate]. }
    exists first. split; [by left |]. split; [done |].
    intros data [<- | Hdata]; [done |].
    apply StronglySorted_inv in Hsorted as [_ Hfirst].
    by eapply List.Forall_forall in Hfirst.
Qed.

Lemma filter_filter {A : Type} (p q : A -> bool) (l : list A) :
  List.filter q (List.filter p l) = List.filter (fun x => p x && q x) l.
Proof.
  induction l as [|x l IH]; [done |]. simpl.
  destruct (p x); simpl; [| done]. destruct (q x); by rewrite IH.
Qed.

(** [loadAndRenderData] returns, and counts the records that the rule set
    does not match: the total of the summary is their number, and every
    object of the statistics has the number of those of them that are of
    its domain, which is at least one, and its percentage is the result of
    [toFixed(1)] on that number divided by that total, times 100. *)
Theorem statistics_exclude_blacklisted `{RegExpEngine} `{URLParser} `{HistoryAPI}
    (rules : Blacklist.Rules) (topN : Stats.count)
    (items : list Chrome.HistoryItem) :
  exists page,
    Stats.loadAndRenderData rules topN items = Ok page
    /\ Stats.totalVisits (Stats.summary page)
       = length (List.filter (fun item => negb (blacklisted rules item)) items)
    /\ forall data, In data (Stats.domainData page) ->
         Stats.visitCount data = length (counted rules (Stats.domain data) items)
         /\ 1 <= Stats.visitCount data <= Stats.totalVisits (Stats.summary page)
         /\ Stats.percentage data
            = JSString
                (Number.toFixed1
                   (PrimFloat.mul
                      (PrimFloat.div
                         (Number.of_nat (length (counted rules (Stats.domain data) items)))
                         (Number.of_nat
                            (length (List.filter
                                       (fun item => negb (blacklisted rules item)) items))))
                      (Number.of_nat 100))).
Proof.
  unfold Stats.loadAndRenderData. rewrite fetchHistory_filter. cbn [rbind].
  set (history := List.filter (fun item => negb (blacklisted rules item)) items).
  eexists. split; [reflexivity |].
  cbn [Stats.summary Stats.domainData Stats.updateSummaryStats Stats.totalVisits].
  split; [done |].
  intros data (d & Hd & ->)%processDomainData_In.
  cbn [Stats.resolve Stats.visitCount Stats.domain Stats.percentage grouped].
  assert (Hrecords : records_of d history = counted rules d items).
  { unfold records_of, counted, history. apply filter_filter. }
  rewrite Hrecords. split; [done |]. split; [| done].
  rewrite <- Hrecords. split.
  - apply domains_of_In in Hd as (item & Hitem & Hg).
    assert (Hin : In item (records_of d history)).
    { unfold records_of. apply List.filter_In. split; [done |].
      apply in_domain_grouped; [| done]. unfold grouped_domain in Hg.
      destruct (Stats.getRootDomain _) as [d'|]; [| done].
      destruct (String.eqb_spec d' ""); congruence. }
    destruct (records_of d history); [done | simpl; lia].
  - unfold records_of. clear. induction history as [|x l IH]; [done |]. simpl.
    destruct (in_domain d x); simpl; lia.
Qed.

Lemma statistics_exclude_blacklisted_witness :
  exists page,
    @Stats.loadAndRenderData PlainRegExp.engine PlainURL.parser SampleHistory.api
      SampleHistory.no_example_com Stats.Infinity SampleHistory.five = Ok page
    /\ Stats.totalVisits (Stats.summary page) = 2.
Proof.
  destruct (@statistics_exclude_blacklisted PlainRegExp.engine PlainURL.parser
              SampleHistory.api SampleHistory.no_example_com Stats.Infinity
              SampleHistory.five) as (page & Hload & Htotal & _).
  exists page. split; [done | by rewrite Htotal].
Defined.

Lemma rendered_emit (e : Feed.event) (w : Feed.World) :
  Feed.rendered (Feed.trace (Feed.emit e w))
  = Feed.rendered (Feed.trace w)
    ++ match e with Feed.RenderCards items => items | _ => [] end.
Proof. unfold Feed.emit. simpl. rewrite rendered_app. simpl. by rewrite app_nil_r. Qed.

(** A record whose card cannot be rendered blocks the feed at its batch.
    When the next batch holds a record whose URL does not parse, or whose
    visits the history API refuses, a call of [loadMoreHistory] renders no
    card of the batch and leaves the state as it was, [isLoading] cleared
    and [hasMore] set: every later call tries the same batch again. *)
Theorem unrenderable_record_blocks `{URLParser} `{HistoryAPI}
    (w : Feed.World) (item : Chrome.HistoryItem) :
  Feed.isLoading (Feed.state w) = false ->
  Feed.hasMore (Feed.state w) = true ->
  In item (JS.slice (Feed.currentOffset (Feed.state w))
             (Feed.currentOffset (Feed.state w) + Feed.batchSize)
             (Feed.allHistory (Feed.state w))) ->
  url_hostname (Chrome.url item) = None \/ getVisits (Chrome.url item) = None ->
  forall n,
    Feed.state (Nat.iter n Feed.loadMoreHistory_whole w) = Feed.state w
    /\ Feed.rendered (Feed.trace (Nat.iter n Feed.loadMoreHistory_whole w))
       = Feed.rendered (Feed.trace w).
Proof.
  intros Hloading Hmore Hitem Hbad.
  assert (Hstep : forall w0, Feed.state w0 = Feed.state w ->
            Feed.state (Feed.loadMoreHistory_whole w0) = Feed.state w
            /\ Feed.rendered (Feed.trace (Feed.loadMoreHistory_whole w0))
               = Feed.rendered (Feed.trace w0)).
  { intros [s0 tr0] Hs0. simpl in Hs0. subst s0.
    destruct w as [[off loading more hist filtered] tr]. simpl in *. subst loading more.
    unfold Feed.loadMoreHistory_whole, Feed.loadMoreHistory. simpl.
    set (batch := JS.slice _ _ _) in *.
    destruct (Nat.eqb_spec (length batch) 0) as [Hempty | _].
    { by destruct batch. }
    rewrite emit_requests. unfold Feed.loadMoreHistory_resume. simpl.
    assert (Hfails :
      match mapM (fun item => getVisits (Chrome.url item)) batch with
      | Some visits =>
          Feed.renderCards (zip_with Feed.withVisitCount batch visits)
            {| Feed.state :=
                 {| Feed.currentOffset := off; Feed.isLoading := true;
                    Feed.hasMore := true; Feed.allHistory := hist;
                    Feed.filteredCount := filtered |};
               Feed.trace :=
                 ((tr0 ++ [Feed.ShowLoading])
                  ++ [Feed.GetHistoryBatch off Feed.batchSize])
                 ++ map (fun item => Feed.GetVisits (Chrome.url item)) batch |} = Throws
      | None => True
      end).
    { destruct (mapM _ batch) as [visits|] eqn:Hvisits; [| done].
      destruct Hbad as [Hparse | Hvisit].
      - unfold Feed.renderCards.
        destruct (forallb _ _) eqn:Hall; [| done]. exfalso.
        rewrite forallb_forall in Hall.
        apply length_mapM in Hvisits.
        assert (Hurl : In (Chrome.url item)
                         (map Chrome.url (zip_with Feed.withVisitCount batch visits))).
        { rewrite withVisitCount_urls by done. by apply in_map. }
        apply in_map_iff in Hurl as (item' & Hurl & Hitem').
        apply Hall in Hitem'. apply bool_decide_eq_true in Hitem' as [h Hh].
        congruence.
      - exfalso. assert (Hnone : mapM (fun item => getVisits (Chrome.url item)) batch = None).
        { apply mapM_None, List.Exists_exists. eauto. }
        congruence. }
    destruct (mapM _ batch) as [visits|].
    - simpl in Hfails. simpl. rewrite Hfails. simpl.
      rewrite !rendered_app, rendered_requests. simpl. by rewrite !app_nil_r.
    - simpl. rewrite !rendered_app, rendered_requests. simpl. by rewrite !app_nil_r. }
  induction n as [|n [IHs IHr]]; [done |]. rewrite Nat.iter_succ.
  destruct (Hstep _ IHs) as [Hs Hr]. split; [done | congruence].
Qed.

Lemma unrenderable_record_blocks_witness :
  Feed.state
    (Nat.iter 3 (@Feed.loadMoreHistory_whole PlainURL.parser SampleHistory.api)
       SampleHistory.broken_feed)
  = Feed.state SampleHistory.broken_feed
  /\ Feed.rendered
       (Feed.trace
          (Nat.iter 3 (@Feed.loadMoreHistory_whole PlainURL.parser SampleHistory.api)
             SampleHistory.broken_feed))
     = Feed.rendered (Feed.trace SampleHistory.broken_feed).
Proof.
  apply (@unrenderable_record_blocks PlainURL.parser SampleHistory.api
           SampleHistory.broken_feed (SampleHistory.item "not a url")).
  - reflexivity.
  - reflexivity.
  - right. by left.
  - by left.
Defined.

(** ** Page content; rules, both kinds *)

Lemma appendChild_Some (e : Modal.event) (w : Modal.World) :
  Modal.modals w <> 0 -> Modal.appendChild e w = Some (Modal.emit e w).
Proof.
  intros Hm. unfold Modal.appendChild. by destruct (Nat.eqb_spec (Modal.modals w) 0).
Qed.

Lemma is_space_space : JS.is_space " " = true.
Proof. reflexivity. Qed.

Lemma concat_words_cons (c : ascii) (word : string) (rest : list string) :
  String.concat " " (String c word :: rest) = String c (String.concat " " (word :: rest)).
Proof. by destruct rest. Qed.

Lemma concat_words_two (x y : string) (rest : list string) :
  String.concat " " (x :: y :: rest) = x +:+ " " +:+ String.concat " " (y :: rest).
Proof. reflexivity. Qed.

Lemma words_head (s : string) (word : string) (rest : list string) :
  words s = word :: rest -> exists c word', word = String c word'.
Proof.
  revert word rest. induction s as [|c s IH]; intros word rest; [done |].
  cbn [words]. destruct (JS.is_space c); [apply IH |].
  destruct s as [|d s]; [intros [= <- <-]; eauto |].
  destruct (JS.is_space d); [intros [= <- <-]; eauto |].
  destruct (words (String d s)); intros [= <- <-]; eauto.
Qed.

(** The words of a text joined by single spaces: what [trim] leaves of
    the text whose runs of white space are replaced ([trimmed]), and what
    [trimEnd] leaves of it ([ended]). *)
Lemma trimEnd_replace_spaces (s : string) :
  JS.trimEnd (JS.replace_spaces true s) = String.concat " " (words s)
  /\ JS.trimEnd (JS.replace_spaces false s)
     = match s with
       | String c _ =>
           if JS.is_space c then
             match String.concat " " (words s) with
             | EmptyString => EmptyString
             | joined => String " " joined
             end
           else String.concat " " (words s)
       | EmptyString => EmptyString
       end.
Proof.
  induction s as [|c s [IHt IHf]]; [done |].
  cbn [JS.replace_spaces words]. destruct (JS.is_space c) eqn:Hc.
  - split; [done |]. cbn [JS.trimEnd]. rewrite IHt.
    destruct (String.concat " " (words s)); [done | done].
  - cbn [JS.trimEnd]. rewrite IHf.
    assert (Hgoal : match
                      match s with
                      | String c0 _ =>
                          if JS.is_space c0
                          then match String.concat " " (words s) with
                               | "" => ""
                               | String _ _ as joined => String " " joined
                               end
                          else String.concat " " (words s)
                      | "" => ""
                      end
                    with
                    | "" => if JS.is_space c then "" else String c ""
                    | String _ _ as rest => String c rest
                    end
                    = String.concat " "
                        match s with
                        | "" => [String c ""]
                        | String d _ =>
                            if JS.is_space d then String c "" :: words s
                            else match words s with
                                 | [] => [String c ""]
                                 | word :: rest => String c word :: rest
                                 end
                        end).
    { rewrite Hc. destruct s as [|d s]; [done |].
      destruct (words (String d s)) as [|word rest] eqn:Hw;
        [by destruct (JS.is_space d) |].
      apply words_head in Hw as (a & word' & ->).
      destruct (JS.is_space d); [| by rewrite !concat_words_cons].
      by rewrite concat_words_two, concat_words_cons. }
    by rewrite Hgoal.
Qed.

Lemma trimStart_replace_spaces (s : string) :
  JS.trimEnd (JS.trimStart (JS.replace_spaces false s))
  = JS.trimEnd (JS.replace_spaces true s).
Proof.
  induction s as [|c s IH]; [done |].
  cbn [JS.replace_spaces]. destruct (JS.is_space c) eqn:Hc.
  - cbn [JS.trimStart]. rewrite is_space_space.
    clear IH Hc. induction s as [|d s IH]; [done |].
    cbn [JS.replace_spaces]. destruct (JS.is_space d) eqn:Hd; [apply IH |].
    cbn [JS.trimStart]. by rewrite Hd.
  - cbn [JS.trimStart]. by rewrite Hc.
Qed.

Lemma trim_replace_spaces (s : string) :
  JS.trim (JS.replace_spaces false s) = String.concat " " (words s).
Proof.
  unfold JS.trim. rewrite trimStart_replace_spaces. apply trimEnd_replace_spaces.
Qed.

Lemma substring_prefix (n : nat) (s : string) :
  exists rest,
    s = JS.substring n s +:+ rest
    /\ String.length (JS.substring n s) <= n
    /\ (rest = "" \/ String.length (JS.substring n s) = n).
Proof.
  revert s. induction n as [|n IH]; intros s.
  - exists s. simpl. repeat split; [by destruct s | by right].
  - destruct s as [|c s]; [exists ""; simpl; repeat split; [lia | by left] |].
    destruct (IH s) as (rest & Hs & Hlen & Hrest). exists rest.
    cbn [JS.substring String.length]. rewrite append_cons, <- Hs.
    split; [done |]. split; [lia |].
    destruct Hrest as [-> | ->]; [by left | by right].
Qed.

Lemma cleanedContent_words (textContent : string) :
  exists rest,
    String.concat " " (words textContent) = Modal.cleanedContent textContent +:+ rest
    /\ String.length (Modal.cleanedContent textContent) <= 10000
    /\ (rest = "" \/ String.length (Modal.cleanedContent textContent) = 10000).
Proof.
  unfold Modal.cleanedContent. rewrite trim_replace_spaces. apply substring_prefix.
Qed.

Lemma fetch_failed_chat (message : string) (w : Modal.World) :
  Modal.chat (Modal.fetch_failed message w) = Modal.chat w.
Proof.
  unfold Modal.fetch_failed, Modal.addErrorMessage, Modal.appendChild. simpl.
  by destruct (Modal.modals w =? 0)%nat.
Qed.

Lemma fetchPageContent_read_chat (textContent : string) (toggle : bool) (w : Modal.World) :
  Modal.chat (Modal.fetchPageContent_read (Modal.PageText textContent) toggle w)
  = Chat.saveChatHistory
      (Modal.chat (Modal.set_pageContent (Some (Modal.cleanedContent textContent)) w)).
Proof.
  unfold Modal.fetchPageContent_read.
  destruct (Modal.found toggle _).
  - unfold Modal.addSystemMessage, Modal.appendChild.
    destruct (Modal.modals _ =? 0)%nat; [by rewrite fetch_failed_chat | done].
  - by rewrite fetch_failed_chat.
Qed.

(** [fetchPageContent] on a chat with a current page.  When the document
    has no button [#fetchContentBtn], as when the modal shows a preview,
    the call throws before it asks for the page, and nothing is stored;
    otherwise it asks for the page of the chat.  When [fetch] or the
    reading of the text fails, neither the state nor the store changes.
    When the text is read, the content kept, in [chatState] and next to
    the transcript in the entry of the current page, is the words of the
    text joined by single spaces, cut after 10000 characters, whether the
    toggle of the preview is found or not. *)
Theorem fetchPageContent_stores (w : Modal.World) (page : Chrome.HistoryItem) :
  Chat.currentPage (Modal.chatState w) = Some page ->
  (forall button,
     Modal.fetchPageContent button w
     = if Modal.found button w
       then (Modal.emit (Modal.FetchPage (Chrome.url page))
               (Modal.emit (Modal.FetchDisabled true) w),
             Modal.AwaitingResponse (Chrome.url page))
       else (Modal.emit Modal.Uncaught w, Modal.Fetched))
  /\ (forall message,
        let w' := fst (Modal.fetchPageContent_responded (Some message) w) in
        Modal.chatState w' = Modal.chatState w /\ histories w' = histories w)
  /\ (forall message toggle,
        let w' := Modal.fetchPageContent_read (Modal.PageFails message) toggle w in
        Modal.chatState w' = Modal.chatState w /\ histories w' = histories w)
  /\ (forall textContent toggle,
        let w' := Modal.fetchPageContent_read (Modal.PageText textContent) toggle w in
        exists content rest,
          Chat.pageContent (Modal.chatState w') = Some content
          /\ Chat.get (Chrome.url page) (Modal.chat w')
             = Some {| Chat.Entry.messages := Chat.messages (Modal.chatState w);
                       Chat.Entry.content := Some content |}
          /\ String.concat " " (words textContent) = content +:+ rest
          /\ String.length content <= 10000
          /\ (rest = "" \/ String.length content = 10000)).
Proof.
  intros Hpage. split; [| split; [| split]].
  - intros button. unfold Modal.fetchPageContent. by rewrite Hpage.
  - intros message. cbv zeta. cbn [Modal.fetchPageContent_responded fst].
    unfold histories, Modal.chatState. by rewrite fetch_failed_chat.
  - intros message toggle. cbv zeta. cbn [Modal.fetchPageContent_read].
    unfold histories, Modal.chatState. by rewrite fetch_failed_chat.
  - intros textContent toggle. cbv zeta.
    destruct (cleanedContent_words textContent) as (rest & Hwords & Hlen & Hrest).
    exists (Modal.cleanedContent textContent), rest.
    unfold Modal.chatState. rewrite fetchPageContent_read_chat.
    revert Hwords Hlen Hrest.
    generalize (Modal.cleanedContent textContent). intros content Hwords Hlen Hrest.
    destruct w as [[[current pageContent msgs typing] hist tr] m lg].
    cbn in Hpage. subst current.
    split; [done |]. split; [| done].
    unfold Chat.get. cbn. apply lookup_insert_eq.
Qed.

Lemma fetchPageContent_stores_witness :
  Modal.fetchPageContent false SampleHistory.open_chat
  = (Modal.emit Modal.Uncaught SampleHistory.open_chat, Modal.Fetched)
  /\ snd (Modal.fetchPageContent true SampleHistory.open_chat)
     = Modal.AwaitingResponse "https://example.com/"
  /\ exists content rest,
       Chat.pageContent
         (Modal.chatState
            (Modal.fetchPageContent_read (Modal.PageText "  Example   Domain ") true
               SampleHistory.open_chat)) = Some content
       /\ Chat.get "https://example.com/"
            (Modal.chat
               (Modal.fetchPageContent_read (Modal.PageText "  Example   Domain ") true
                  SampleHistory.open_chat))
          = Some {| Chat.Entry.messages := [said "user" "hello"];
                    Chat.Entry.content := Some content |}
       /\ "Example Domain" = content +:+ rest
       /\ String.length content <= 10000
       /\ (rest = "" \/ String.length content = 10000).
Proof.
  destruct (fetchPageContent_stores SampleHistory.open_chat
              (SampleHistory.item "https://example.com/") eq_refl)
    as (Hstart & _ & _ & Hread).
  split; [exact (Hstart false) |].
  split; [by rewrite (Hstart true) |].
  exact (Hread "  Example   Domain " true).
Defined.

Lemma addPattern_once (pattern : string) (b : Blacklist.Instance) :
  In pattern (Blacklist.patterns (stored_rules (Blacklist.addPattern pattern b)))
  /\ (List.NoDup (Blacklist.patterns (stored_rules b)) ->
      List.NoDup (Blacklist.patterns (stored_rules (Blacklist.addPattern pattern b))))
  /\ Blacklist.addPattern pattern (Blacklist.addPattern pattern b) = Blacklist.addPattern pattern b.
Proof.
  unfold stored_rules.
  assert (Hstored : In pattern
            (Blacklist.patterns (default Blacklist.no_rules (Blacklist.storage (Blacklist.addPattern pattern b))))).
  { unfold Blacklist.addPattern, Blacklist._loadFromStorage.
    destruct (JS.array_includes _ pattern) eqn:Hin; simpl.
    - by apply existsb_eqb_In.
    - apply in_app_iff. right. by left. }
  split; [done |]. split.
  - unfold Blacklist.addPattern, Blacklist._loadFromStorage.
    destruct (JS.array_includes _ pattern) eqn:Hin; simpl; [done |].
    intros Hnodup. apply existsb_eqb_not_In in Hin.
    apply List.NoDup_app; [done | repeat constructor; by intros [] |].
    intros x Hx [<- | []]. by apply Hin.
  - apply existsb_eqb_In in Hstored.
    unfold Blacklist.addPattern at 1. unfold Blacklist._loadFromStorage.
    fold (JS.array_includes
            (Blacklist.patterns (default Blacklist.no_rules (Blacklist.storage (Blacklist.addPattern pattern b))))
            pattern) in Hstored.
    by rewrite Hstored.
Qed.

Lemma removePattern_removes (pattern : string) (b : Blacklist.Instance) :
  let b' := Blacklist.removePattern pattern b in
  ~ In pattern (Blacklist.patterns (Blacklist.rules b'))
  /\ ~ In pattern (Blacklist.patterns (stored_rules b'))
  /\ (forall p, p <> pattern ->
        (In p (Blacklist.patterns (Blacklist.rules b')) <-> In p (Blacklist.patterns (Blacklist.rules b)))
        /\ (In p (Blacklist.patterns (stored_rules b'))
            <-> In p (Blacklist.patterns (stored_rules b))))
  /\ Blacklist.domains (Blacklist.rules b') = Blacklist.domains (Blacklist.rules b)
  /\ Blacklist.domains (stored_rules b') = Blacklist.domains (stored_rules b).
Proof.
  unfold stored_rules, Blacklist.removePattern, Blacklist._loadFromStorage. simpl.
  rewrite !without_In. repeat split; try tauto; rewrite without_In; tauto.
Qed.

Lemma add_remove_pattern (pattern : string) (b : Blacklist.Instance) :
  ~ In pattern (Blacklist.patterns (Blacklist.rules b)) ->
  ~ In pattern (Blacklist.patterns (stored_rules b)) ->
  Blacklist.rules (Blacklist.removePattern pattern (Blacklist.addPattern pattern b)) = Blacklist.rules b
  /\ stored_rules (Blacklist.removePattern pattern (Blacklist.addPattern pattern b)) = stored_rules b.
Proof.
  unfold stored_rules. intros Hrules Hstored.
  unfold Blacklist.addPattern, Blacklist._loadFromStorage.
  apply existsb_eqb_not_In in Hstored.
  fold (JS.array_includes (Blacklist.patterns (default Blacklist.no_rules (Blacklist.storage b))) pattern)
    in Hstored.
  rewrite Hstored. apply existsb_eqb_not_In in Hstored.
  unfold Blacklist.removePattern, Blacklist._loadFromStorage. simpl.
  rewrite !without_snoc, !without_absent by done.
  split; [by destruct (Blacklist.rules b) | by destruct (default Blacklist.no_rules (Blacklist.storage b))].
Qed.

(** [addDomain] and [addPattern] store a rule once: after the call the
    rule is in the storage, the storage has no rule twice if it had none
    twice before, and a second call with the same rule changes nothing. *)
Theorem rule_added_once (rule : string) (b : Blacklist.Instance) :
  (In rule (Blacklist.domains (stored_rules (Blacklist.addDomain rule b)))
   /\ (List.NoDup (Blacklist.domains (stored_rules b)) ->
       List.NoDup (Blacklist.domains (stored_rules (Blacklist.addDomain rule b))))
   /\ Blacklist.addDomain rule (Blacklist.addDomain rule b) = Blacklist.addDomain rule b)
  /\ (In rule (Blacklist.patterns (stored_rules (Blacklist.addPattern rule b)))
      /\ (List.NoDup (Blacklist.patterns (stored_rules b)) ->
          List.NoDup (Blacklist.patterns (stored_rules (Blacklist.addPattern rule b))))
      /\ Blacklist.addPattern rule (Blacklist.addPattern rule b) = Blacklist.addPattern rule b).
Proof. split; [apply addDomain_once | apply addPattern_once]. Qed.

(** [removeDomain] and [removePattern] remove the rule, compared as it
    is written, from the instance and from the storage, and nothing else:
    every other rule of the kind is held and stored exactly if it was
    before, and the rules of the other kind are untouched. *)
Theorem rule_removed (rule : string) (b : Blacklist.Instance) :
  (let b' := Blacklist.removeDomain rule b in
   ~ In rule (Blacklist.domains (Blacklist.rules b'))
   /\ ~ In rule (Blacklist.domains (stored_rules b'))
   /\ (forall d, d <> rule ->
         (In d (Blacklist.domains (Blacklist.rules b')) <-> In d (Blacklist.domains (Blacklist.rules b)))
         /\ (In d (Blacklist.domains (stored_rules b'))
             <-> In d (Blacklist.domains (stored_rules b))))
   /\ Blacklist.patterns (Blacklist.rules b') = Blacklist.patterns (Blacklist.rules b)
   /\ Blacklist.patterns (stored_rules b') = Blacklist.patterns (stored_rules b))
  /\ (let b' := Blacklist.removePattern rule b in
      ~ In rule (Blacklist.patterns (Blacklist.rules b'))
      /\ ~ In rule (Blacklist.patterns (stored_rules b'))
      /\ (forall p, p <> rule ->
            (In p (Blacklist.patterns (Blacklist.rules b')) <-> In p (Blacklist.patterns (Blacklist.rules b)))
            /\ (In p (Blacklist.patterns (stored_rules b'))
                <-> In p (Blacklist.patterns (stored_rules b))))
      /\ Blacklist.domains (Blacklist.rules b') = Blacklist.domains (Blacklist.rules b)
      /\ Blacklist.domains (stored_rules b') = Blacklist.domains (stored_rules b)).
Proof. split; [apply removeDomain_removes | apply removePattern_removes]. Qed.

(** Removing a rule that was just added undoes the addition: for a rule
    that the instance neither held nor stored, the instance holds and the
    storage stores the same rules as before the two calls. *)
Theorem rule_added_then_removed (rule : string) (b : Blacklist.Instance) :
  (~ In rule (Blacklist.domains (Blacklist.rules b)) ->
   ~ In rule (Blacklist.domains (stored_rules b)) ->
   Blacklist.rules (Blacklist.removeDomain rule (Blacklist.addDomain rule b)) = Blacklist.rules b
   /\ stored_rules (Blacklist.removeDomain rule (Blacklist.addDomain rule b)) = stored_rules b)
  /\ (~ In rule (Blacklist.patterns (Blacklist.rules b)) ->
      ~ In rule (Blacklist.patterns (stored_rules b)) ->
      Blacklist.rules (Blacklist.removePattern rule (Blacklist.addPattern rule b)) = Blacklist.rules b
      /\ stored_rules (Blacklist.removePattern rule (Blacklist.addPattern rule b)) = stored_rules b).
Proof. split; [apply add_remove_domain | apply add_remove_pattern]. Qed.
